(** * BaseGrid: data providers and CSV import, embedded in Rocq

    A shallow embedding of the parts of the BaseGrid server that the
    specification makes claims about:

    - [TextFile]: [dataProviders/textFileProvider.js], the file-backed
      provider (CSV line parsing, [readFile] with its id-assigning
      rewrite, [writeFile], and the CRUD operations built on them);
    - [Supabase]: [dataProviders/supabaseProvider.js], the
      remote-relational provider (schema discovery, [getTableData],
      [updateRow]);
    - [MultiSource]: [dataProviders/index.js], the registry that routes
      a call to the provider of a source;
    - [Server]: the [/import-csv] handler of [server.js];
    - [Auth]: [login] of the providers and of the registry, and
      [requireAuth] with the login and logout handlers of [server.js];
    - [Html]: [escapeHtml] of [server.js].

    Modelling conventions.
    - A JavaScript string is a [string]; a character is one code unit
      below 256 (Latin-1), which fixes what [trim] and [toLowerCase] do.
    - A JavaScript number holding an integer is a [Z].  The two agree
      while the integers stay in the range where a double is exact and
      prints in plain decimal notation; the statements that depend on
      it say so ([ids_in_range], [safe_integer]).
    - A lookup [o[k]] in a plain object is a lookup in a finite map or
      an association list.  The two agree for every key that is no
      property name inherited from [Object.prototype]; the statements
      that depend on it say so ([inherited]).
    - A plain object with string values (a row payload, a parsed CSV
      record) is an association list in [Object.keys] order; a
      configuration object is a [gmap].
    - The file system is a finite map from paths to contents.  A read of a
      missing path is Node's [ENOENT]; writes succeed.
    - [async] functions become state-passing functions; a rejected promise
      or a [throw] is the [Throw] outcome. *)

From Stdlib Require Import ZArith Ascii String List DecimalString DecimalPos Lia.
From stdpp Require Import gmap strings list.

Local Open Scope string_scope.
Local Open Scope Z_scope.

(** ** JavaScript primitives used by the providers *)

Module JS.

(** The outcome of an [await]ed call: a value, or a thrown [Error]
    with its [message]. *)
Inductive Outcome (A : Type) : Type :=
| Ok (a : A)
| Throw (message : string).
Arguments Ok {A} a.
Arguments Throw {A} message.

Definition dquote : ascii := "034"%char.
Definition comma : ascii := ","%char.
Definition colon : ascii := ":"%char.
Definition newline : ascii := "010"%char.

(** [WhiteSpace] and [LineTerminator] code units below 256:
    TAB, LF, VT, FF, CR, SP and NBSP. *)
Definition is_ws (c : ascii) : bool :=
  let n := nat_of_ascii c in
  ((9 <=? n)%nat && (n <=? 13)%nat) || (n =? 32)%nat || (n =? 160)%nat.

Fixpoint trimStart (s : string) : string :=
  match s with
  | String c r => if is_ws c then trimStart r else s
  | EmptyString => EmptyString
  end.

Fixpoint trimEnd (s : string) : string :=
  match s with
  | String c r =>
      match trimEnd r with
      | EmptyString => if is_ws c then EmptyString else String c EmptyString
      | r' => String c r'
      end
  | EmptyString => EmptyString
  end.

(** [String.prototype.trim] *)
Definition trim (s : string) : string := trimEnd (trimStart s).

(** [s.includes(c)] for a one-character needle. *)
Fixpoint includes (c : ascii) (s : string) : bool :=
  match s with
  | String d r => Ascii.eqb d c || includes c r
  | EmptyString => false
  end.

(** [s.includes(needle)] for a string needle. *)
Fixpoint includes_str (needle s : string) : bool :=
  String.prefix needle s ||
  match s with
  | String _ r => includes_str needle r
  | EmptyString => false
  end.

(** [s.split(sep)] for a one-character separator: never empty. *)
Fixpoint split (sep : ascii) (s : string) : list string :=
  match s with
  | String c r =>
      if Ascii.eqb c sep then EmptyString :: split sep r
      else match split sep r with
           | h :: t => String c h :: t
           | [] => [String c EmptyString]
           end
  | EmptyString => [EmptyString]
  end.

(** [arr.join(sep)] *)
Definition join (sep : string) (l : list string) : string :=
  String.concat sep l.

Definition lower_char (c : ascii) : ascii :=
  let n := nat_of_ascii c in
  if ((65 <=? n)%nat && (n <=? 90)%nat)
     || ((192 <=? n)%nat && (n <=? 222)%nat && negb (n =? 215)%nat)
  then ascii_of_nat (n + 32) else c.

(** [String.prototype.toLowerCase] *)
Fixpoint toLowerCase (s : string) : string :=
  match s with
  | String c r => String (lower_char c) (toLowerCase r)
  | EmptyString => EmptyString
  end.

(** [toUpperCase] of one character, for the letters whose capital is
    again a single code unit below 256. *)
Definition upper_char (c : ascii) : ascii :=
  let n := nat_of_ascii c in
  if ((97 <=? n)%nat && (n <=? 122)%nat)
     || ((224 <=? n)%nat && (n <=? 254)%nat && negb (n =? 247)%nat)
  then ascii_of_nat (n - 32) else c.

(** [arr.findIndex(f)]; [None] is [-1]. *)
Fixpoint findIndex {A : Type} (f : A -> bool) (l : list A) : option nat :=
  match l with
  | x :: r => if f x then Some 0%nat
              else match findIndex f r with
                   | Some i => Some (S i)
                   | None => None
                   end
  | [] => None
  end.

(** Truthiness of a string: only the empty string is falsy. *)
Definition truthy (s : string) : bool :=
  match s with EmptyString => false | _ => true end.

(** [o && truthy] for a possibly [undefined] string. *)
Definition truthy_opt (o : option string) : bool :=
  match o with Some s => truthy s | None => false end.

(** The global [replace] of [writeFile]: every double-quote character
    becomes two. *)
Fixpoint double_quotes (s : string) : string :=
  match s with
  | String c r =>
      if Ascii.eqb c dquote then String dquote (String dquote (double_quotes r))
      else String c (double_quotes r)
  | EmptyString => EmptyString
  end.

(** The value of one digit in the given radix, as [parseInt] reads it. *)
Definition digit_val (radix : Z) (c : ascii) : option Z :=
  let n := Z.of_nat (nat_of_ascii c) in
  let v := if (48 <=? n) && (n <=? 57) then Some (n - 48)
           else if (97 <=? n) && (n <=? 122) then Some (n - 87)
           else if (65 <=? n) && (n <=? 90) then Some (n - 55)
           else None in
  match v with
  | Some d => if d <? radix then Some d else None
  | None => None
  end.

(** The longest prefix of digits; [None] (NaN) when there is none. *)
Fixpoint parse_digits (radix : Z) (s : string) (acc : Z) (seen : bool) : option Z :=
  match s with
  | String c r =>
      match digit_val radix c with
      | Some d => parse_digits radix r (acc * radix + d) true
      | None => if seen then Some acc else None
      end
  | EmptyString => if seen then Some acc else None
  end.

(** The sign that [parseInt] reads off the front of the string. *)
Definition strip_sign (s : string) : Z * string :=
  match s with
  | String "-"%char r => (-1, r)
  | String "+"%char r => (1, r)
  | _ => (1, s)
  end.

(** The radix [parseInt] settles on without a radix argument: 16 after
    the prefix [0x] or [0X], else 10. *)
Definition strip_radix (s : string) : Z * string :=
  match s with
  | String "0"%char (String "x"%char r) => (16, r)
  | String "0"%char (String "X"%char r) => (16, r)
  | _ => (10, s)
  end.

(** [parseInt(s)] without a radix argument; [None] is [NaN]. *)
Definition parseInt (s : string) : option Z :=
  let '(sign, s2) := strip_sign (trimStart s) in
  let '(radix, s3) := strip_radix s2 in
  match parse_digits radix s3 0 false with
  | Some v => Some (sign * v)
  | None => None
  end.

(** [String(n)] for a number holding an integer: the plain decimal
    digits, as the code prints every integer up to
    [Number.MAX_SAFE_INTEGER] in absolute value. *)
Definition String_of_Z (n : Z) : string :=
  NilZero.string_of_int (Z.to_int n).

(** [String(n)] for an array index. *)
Definition String_of_nat (n : nat) : string := String_of_Z (Z.of_nat n).

(** A plain object whose values are strings, in [Object.keys] order. *)
Definition Obj : Type := list (string * string).

(** [o[k]]; [None] is [undefined].  This is the lookup of the code
    for a key that is no inherited property name. *)
Fixpoint get (o : Obj) (k : string) : option string :=
  match o with
  | (k', v) :: r => if String.eqb k' k then Some v else get r k
  | [] => None
  end.

(** [o[k]] or-else the empty string. *)
Definition get_or_empty (o : Obj) (k : string) : string :=
  match get o k with Some v => v | None => EmptyString end.

(** [Object.keys(o)] *)
Definition keys (o : Obj) : list string := map fst o.

End JS.

Import JS.

(** ** Field descriptors and table projections, as both providers build them *)

Module Schema.

(** The type names the providers put in field descriptors. *)
Inductive FieldType : Type :=
| text | integer | number | date | boolean | lu.

Global Instance FieldType_eq_dec : EqDecision FieldType.
Proof. solve_decision. Defined.

(** A field descriptor.  [luFile] and [readonly] are optional
    properties: [None] is a property the object does not have. *)
Record FieldDef : Type := mkField {
  name : string;
  type : FieldType;
  luFile : option string;
  readonly : option bool
}.

Global Instance FieldDef_eq_dec : EqDecision FieldDef.
Proof. solve_decision. Defined.

(** [if (field.readonly)] *)
Definition is_readonly (f : FieldDef) : bool :=
  match readonly f with Some b => b | None => false end.

(** What [getTableData] resolves to, for rows of cells of type [Cell]. *)
Record TableData (Cell : Type) : Type := mkTableData {
  object : string;
  title : string;
  headings : list FieldDef;
  rows : list (list Cell)
}.
Arguments mkTableData {Cell} _ _ _ _.
Arguments object {Cell} _.
Arguments title {Cell} _.
Arguments headings {Cell} _.
Arguments rows {Cell} _.

(** [formatTitle], the same in both providers: a space before every
    capital A-Z, underscores to spaces, then every word capitalised. *)
Fixpoint space_capitals (s : string) : string :=
  match s with
  | String c r =>
      let n := nat_of_ascii c in
      if (65 <=? n)%nat && (n <=? 90)%nat
      then String " "%char (String c (space_capitals r))
      else String c (space_capitals r)
  | EmptyString => EmptyString
  end.

Fixpoint underscores_to_spaces (s : string) : string :=
  match s with
  | String c r =>
      String (if Ascii.eqb c "_"%char then " "%char else c) (underscores_to_spaces r)
  | EmptyString => EmptyString
  end.

Definition capitalise (word : string) : string :=
  match word with
  | String c r => String (upper_char c) (toLowerCase r)
  | EmptyString => EmptyString
  end.

Definition formatTitle (tableName : string) : string :=
  join " " (map capitalise
                (split " "%char (trim (underscores_to_spaces (space_capitals tableName))))).

(** [this.lookupConfig[tableName] && this.lookupConfig[tableName][name]];
    [None] when the chain is falsy.  The configuration is a finite map:
    this is the lookup of the code for table and field names that are
    no inherited property names. *)
Definition manual_lookup (cfg : gmap string (gmap string string))
           (tableName name : string) : option string :=
  match cfg !! tableName with
  | Some t => match t !! name with
              | Some target => if truthy target then Some target else None
              | None => None
              end
  | None => None
  end.

End Schema.

Import Schema.

(** ** The file-backed provider: [dataProviders/textFileProvider.js] *)

Module TextFile.

Definition Row : Type := list string.

(** What [readFile] resolves to; [headers = None] is [null]. *)
Record FileData : Type := mkFileData {
  headers : option (list FieldDef);
  rows : list Row
}.

(** The constructor's configuration. *)
Record Provider : Type := mkProvider {
  dataDirectory : string;
  authRequired : bool;
  lookupConfig : gmap string (gmap string string)
}.

Record User : Type := mkUser { user_id : string; email : string }.

Record LoginResult : Type := mkLogin { success : bool; user : User }.

(** [login]: lines 20-29. *)
Definition login (p : Provider) (email password : string) : LoginResult :=
  if negb (authRequired p) then mkLogin true (mkUser "guest" "guest")
  else mkLogin true (mkUser email email).

(** [parseCSVLine]: the loop over the characters of the line, with its
    three variables [result], [current] and [inQuotes]. *)
Fixpoint parseCSVLine_loop (line : string) (result : list string)
         (current : string) (inQuotes : bool) : list string :=
  match line with
  | String char rest =>
      if Ascii.eqb char dquote then
        parseCSVLine_loop rest result current (negb inQuotes)
      else if Ascii.eqb char comma && negb inQuotes then
        parseCSVLine_loop rest (result ++ [trim current]) EmptyString inQuotes
      else
        parseCSVLine_loop rest result (current +:+ String char EmptyString) inQuotes
  | EmptyString => result ++ [trim current]
  end.

Definition parseCSVLine (line : string) : list string :=
  parseCSVLine_loop line [] EmptyString false.

(** [mapTypeCode]; the argument is [undefined] when the header field
    has no colon. *)
Definition mapTypeCode (code : option string) : FieldType :=
  match code with
  | None => text
  | Some c =>
      if negb (truthy c) then text else
      let lowerCode := toLowerCase c in
      if (lowerCode =? "int")%string || (lowerCode =? "integer")%string then integer
      else if (lowerCode =? "num")%string || (lowerCode =? "number")%string then number
      else if (lowerCode =? "dat")%string || (lowerCode =? "date")%string then date
      else if (lowerCode =? "bool")%string || (lowerCode =? "boolean")%string then boolean
      else if (lowerCode =? "lu")%string || (lowerCode =? "lookup")%string then lu
      else text
  end.

Definition getTypeCode (t : FieldType) : string :=
  match t with
  | integer => "int"
  | number => "num"
  | date => "dat"
  | boolean => "bool"
  | lu => "lu"
  | text => "str"
  end.

(** The callback of [firstLine.map] in [readFile]: one header field
    [name:typecode[:lookupTarget]] to its descriptor. *)
Definition parse_header_field (p : Provider) (tableName field : string) : FieldDef :=
  let parts := map trim (split colon field) in
  let name := match parts !! 0%nat with
              | Some s => if truthy s then s else "Unknown"
              | None => "Unknown"
              end in
  let type := mapTypeCode (parts !! 1%nat) in
  let is_lu := match parts !! 1%nat with
               | Some c => truthy c && (toLowerCase c =? "lu")%string
               | None => false
               end in
  if is_lu && truthy_opt (parts !! 2%nat) then
    mkField name lu (parts !! 2%nat) None
  else match manual_lookup (lookupConfig p) tableName name with
       | Some target => mkField name lu (Some target) None
       | None => mkField name type None None
       end.

(** The test that sends a data line to the id-assigning branch. *)
Definition lacks_id (fields : list string) : bool :=
  match fields !! 0%nat with
  | Some f0 =>
      negb (truthy f0) || (trim f0 =? "")%string
      || match parseInt f0 with None => true | Some _ => false end
  | None => true
  end.

(** The loop over the data lines in [readFile], with its variables
    [rows], [needsUpdate] and [nextId]; [nextId] is the code's number
    while the ids of the file are exact numbers. *)
Fixpoint read_rows (lines : list string) (rows : list Row)
         (needsUpdate : bool) (nextId : Z) : list Row * bool * Z :=
  match lines with
  | line :: rest =>
      let fields := parseCSVLine line in
      if lacks_id fields then
        read_rows rest (rows ++ [String_of_Z nextId :: fields]) true (nextId + 1)
      else
        let currentId := match fields !! 0%nat with
                         | Some f0 => match parseInt f0 with Some n => n | None => 0 end
                         | None => 0
                         end in
        read_rows rest (rows ++ [fields]) needsUpdate
                  (if currentId >=? nextId then currentId + 1 else nextId)
  | [] => (rows, needsUpdate, nextId)
  end.

(** One header descriptor as [writeFile] prints it. *)
Definition header_cell (h : FieldDef) : string :=
  match type h, luFile h with
  | lu, Some f =>
      if truthy f then name h +:+ ":lu:" +:+ f
      else name h +:+ ":" +:+ getTypeCode (type h)
  | _, _ => name h +:+ ":" +:+ getTypeCode (type h)
  end.

(** One field as [writeFile] prints it. *)
Definition csv_cell (fieldStr : string) : string :=
  if includes comma fieldStr || includes dquote fieldStr || includes newline fieldStr
  then String dquote (double_quotes fieldStr) +:+ String dquote EmptyString
  else fieldStr.

(** The text [writeFile] hands to [fs.writeFile]. *)
Definition file_content (rows : list Row) (headers : option (list FieldDef)) : string :=
  let allLines :=
    match headers with
    | Some hs => [join "," (map header_cell hs)]
    | None => []
    end in
  let csvRows := map (fun row => join "," (map csv_cell row)) rows in
  join (String newline EmptyString) (allLines ++ csvRows).

Section WithPath.

(** Node's [path.join], applied to the data directory and a file
    name. *)
Variable path_join : string -> string -> string.

Definition getFilePath (p : Provider) (tableName : string) : string :=
  path_join (dataDirectory p) (tableName +:+ ".txt").

(** [writeFile] *)
Definition writeFile (p : Provider) (fs : gmap string string) (tableName : string)
           (rows : list Row) (headers : option (list FieldDef)) : gmap string string :=
  <[getFilePath p tableName := file_content rows headers]> fs.

(** [readFile]: the table read from the file, and the file system
    after the call (the file is rewritten when an id was assigned). *)
Definition readFile (p : Provider) (fs : gmap string string) (tableName : string)
  : FileData * gmap string string :=
  match fs !! getFilePath p tableName with
  | None => (mkFileData None [], fs)
  | Some content =>
      let lines := List.filter (fun line => truthy (trim line))
                               (split newline content) in
      match lines with
      | [] => (mkFileData None [], fs)
      | line0 :: lines' =>
          let firstLine := parseCSVLine line0 in
          let has_header := existsb (includes colon) firstLine in
          let headers :=
            if has_header
            then Some (map (parse_header_field p tableName) firstLine)
            else None in
          let '(rows, needsUpdate, _) :=
            read_rows (if has_header then lines' else lines) [] false 1 in
          (mkFileData headers rows,
           if needsUpdate then writeFile p fs tableName rows headers else fs)
      end
  end.

(** The descriptors made up for a table without a header line, from
    the shape of one of its rows. *)
Definition positional_fields (row : Row) : list FieldDef :=
  imap (fun idx _ =>
          mkField (if (idx =? 0)%nat then "id" else "Column" +:+ String_of_nat idx)
                  text None (Some (idx =? 0)%nat))
       row.

Definition default_id_field : FieldDef := mkField "id" integer None (Some true).

(** The spread-and-override of [getTableData] and [getRowById]:
    the header descriptor with [readonly] set from its name. *)
Definition with_readonly (h : FieldDef) : FieldDef :=
  mkField (name h) (type h) (luFile h) (Some (toLowerCase (name h) =? "id")%string).

(** [getTableData]: lines 220-257. *)
Definition getTableData (p : Provider) (fs : gmap string string) (tableName : string)
  : Outcome (TableData string) * gmap string string :=
  let '(fd, fs1) := readFile p fs tableName in
  let fields :=
    match headers fd with
    | Some hs => map with_readonly hs
    | None =>
        match rows fd with
        | row0 :: _ => positional_fields row0
        | [] => [default_id_field]
        end
    end in
  (Ok (mkTableData tableName (formatTitle tableName) fields (rows fd)), fs1).

(** What [getRowById] resolves to. *)
Record RowData : Type := mkRowData {
  row_object : string;
  row_title : string;
  row_headings : list FieldDef;
  row : Row
}.

(** [r[0] === String(id)]; the id arrives already as a string. *)
Definition has_id (id : string) (r : Row) : bool :=
  match r !! 0%nat with
  | Some r0 => (r0 =? id)%string
  | None => false
  end.

(** [getRowById]: lines 269-307. *)
Definition getRowById (p : Provider) (fs : gmap string string) (tableName id : string)
  : Outcome RowData * gmap string string :=
  let '(fd, fs1) := readFile p fs tableName in
  match List.find (has_id id) (rows fd) with
  | None => (Throw "Failed to fetch row: Row not found", fs1)
  | Some row =>
      let fields :=
        match headers fd with
        | Some hs => map with_readonly hs
        | None => positional_fields row
        end in
      (Ok (mkRowData tableName (formatTitle tableName) fields row), fs1)
  end.

(** The [forEach] of [insertRow] that finds the largest id, started
    at [maxId].  The comparison and the later [maxId + 1] are those of
    the code while the ids are exact numbers. *)
Definition max_id_from (maxId : Z) (rows : list Row) : Z :=
  fold_left
    (fun maxId r =>
       match r !! 0%nat with
       | Some r0 =>
           match parseInt r0 with
           | Some id => if id >? maxId then id else maxId
           | None => maxId
           end
       | None => maxId
       end)
    rows maxId.

(** The row [insertRow] builds for the payload [rowData]. *)
Definition new_row (fields : list FieldDef) (newId : Z) (rowData : Obj) : Row :=
  map (fun field =>
         if (toLowerCase (name field) =? "id")%string then String_of_Z newId
         else get_or_empty rowData (name field))
      fields.

(** [insertRow]: lines 309-342.  [Ok tt] is the success object. *)
Definition insertRow (p : Provider) (fs : gmap string string) (tableName : string)
           (rowData : Obj) : Outcome unit * gmap string string :=
  let '(fd, fs1) := readFile p fs tableName in
  let fields :=
    match headers fd with
    | Some hs => hs
    | None =>
        match rows fd with
        | row0 :: _ => positional_fields row0
        | [] => [default_id_field]
        end
    end in
  let maxId := max_id_from 0 (rows fd) in
  let newId := maxId + 1 in
  let newRow := new_row fields newId rowData in
  (Ok tt, writeFile p fs1 tableName (rows fd ++ [newRow]) (headers fd)).

(** The row [updateRow] stores in place of [old].  A cell that [old]
    does not have is [undefined], which [writeFile] prints as the empty
    string. *)
Definition updated_row (fields : list FieldDef) (old : Row) (rowData : Obj) : Row :=
  imap (fun idx field =>
          if is_readonly field then
            match old !! idx with Some v => v | None => EmptyString end
          else get_or_empty rowData (name field))
       fields.

(** [updateRow]: lines 344-372. *)
Definition updateRow (p : Provider) (fs : gmap string string) (tableName id : string)
           (rowData : Obj) : Outcome unit * gmap string string :=
  let '(fd, fs1) := readFile p fs tableName in
  match findIndex (has_id id) (rows fd), rows fd with
  | Some rowIndex, row0 :: _ =>
      let fields :=
        match headers fd with
        | Some hs => hs
        | None => positional_fields row0
        end in
      let old := match rows fd !! rowIndex with Some r => r | None => [] end in
      let rows' := <[rowIndex := updated_row fields old rowData]> (rows fd) in
      (Ok tt, writeFile p fs1 tableName rows' (headers fd))
  | _, _ => (Throw "Failed to update row: Row not found", fs1)
  end.

(** [deleteRow]: lines 374-389. *)
Definition deleteRow (p : Provider) (fs : gmap string string) (tableName id : string)
  : Outcome unit * gmap string string :=
  let '(fd, fs1) := readFile p fs tableName in
  let filteredRows := List.filter (fun r => negb (has_id id r)) (rows fd) in
  if (length (rows fd) =? length filteredRows)%nat then
    (Throw "Failed to delete row: Row not found", fs1)
  else
    (Ok tt, writeFile p fs1 tableName filteredRows (headers fd)).

End WithPath.

(** A plain path join, to run the provider on concrete file systems. *)
Definition slash_join (dir file : string) : string := dir +:+ "/" +:+ file.

End TextFile.

(** ** The remote-relational provider: [dataProviders/supabaseProvider.js] *)

Module Supabase.

(** A JSON value held in a record of the remote service.  A number is
    the rational it denotes; objects and arrays are not looked into. *)
Inductive Value : Type :=
| VNull
| VNum (num : Z) (den : positive)
| VBool (b : bool)
| VStr (s : string)
| VObject.

(** A record of a table, in [Object.entries] order. *)
Definition Record_ : Type := list (string * Value).

Fixpoint field_of (r : Record_) (k : string) : option Value :=
  match r with
  | (k', v) :: rest => if String.eqb k' k then Some v else field_of rest k
  | [] => None
  end.

(** What the client resolves to: [{ data, error }], the error by its
    message. *)
Record Response (A : Type) : Type := mkResponse {
  data : option A;
  error : option string
}.
Arguments mkResponse {A} _ _.
Arguments data {A} _.
Arguments error {A} _.

(** A row of the [get_foreign_keys] procedure. *)
Record FkRow : Type := mkFkRow {
  column_name : string;
  foreign_table_name : string;
  foreign_column_name : string
}.

Record ForeignKey : Type := mkForeignKey {
  referencedTable : string;
  referencedColumn : string
}.

(** [this.supabase]: the answers of the remote service to the calls the
    provider makes.  [Throw] is a rejected promise. *)
Record Client : Type := mkClient {
  rpc_get_foreign_keys : string -> Outcome (Response (list FkRow));
  rpc_get_public_tables : Outcome (Response (list string));
  select_limit_1 : string -> Outcome (Response (list Record_));
  select_order_by_id : string -> Outcome (Response (list Record_));
  insert : string -> gmap string (option Value) -> Outcome (Response unit);
  update_eq_id : string -> gmap string (option Value) -> Value -> Outcome (Response unit)
}.

(** An entry of the metadata cache. *)
Record TableMeta : Type := mkTableMeta {
  meta_title : string;
  tableName : string;
  fields : list FieldDef
}.

(** The caches and configuration a provider instance holds. *)
Record Provider : Type := mkProvider {
  metadataCache : option (gmap string TableMeta);
  schemaCache : gmap string (list FieldDef);
  foreignKeyCache : gmap string (gmap string ForeignKey);
  lookupConfig : gmap string (gmap string string)
}.

Definition set_foreignKeyCache (p : Provider) (c : gmap string (gmap string ForeignKey)) :=
  mkProvider (metadataCache p) (schemaCache p) c (lookupConfig p).
Definition set_schemaCache (p : Provider) (c : gmap string (list FieldDef)) :=
  mkProvider (metadataCache p) c (foreignKeyCache p) (lookupConfig p).
Definition set_metadataCache (p : Provider) (c : option (gmap string TableMeta)) :=
  mkProvider c (schemaCache p) (foreignKeyCache p) (lookupConfig p).

(** [discoverForeignKeys]: lines 67-100. *)
Definition discoverForeignKeys (c : Client) (p : Provider) (tableName : string)
  : gmap string ForeignKey * Provider :=
  match foreignKeyCache p !! tableName with
  | Some cached => (cached, p)
  | None =>
      match rpc_get_foreign_keys c tableName with
      | Throw _ => (∅, p)
      | Ok resp =>
          match error resp with
          | Some _ => (∅, p)
          | None =>
              let foreignKeys :=
                match data resp with
                | Some rows =>
                    fold_left
                      (fun acc fk =>
                         <[column_name fk :=
                             mkForeignKey (foreign_table_name fk) (foreign_column_name fk)]> acc)
                      rows ∅
                | None => ∅
                end in
              (foreignKeys,
               set_foreignKeyCache p (<[tableName := foreignKeys]> (foreignKeyCache p)))
          end
      end
  end.

Definition is_digit (c : ascii) : bool :=
  let n := nat_of_ascii c in (48 <=? n)%nat && (n <=? 57)%nat.

(** The regular expression of [inferType]: four digits, a dash, two
    digits, a dash, two digits, at the start of the string. *)
Definition iso_date_prefix (s : string) : bool :=
  match s with
  | String y1 (String y2 (String y3 (String y4 (String d1
      (String m1 (String m2 (String d2 (String a1 (String a2 _))))))))) =>
      is_digit y1 && is_digit y2 && is_digit y3 && is_digit y4
      && Ascii.eqb d1 "-"%char && is_digit m1 && is_digit m2
      && Ascii.eqb d2 "-"%char && is_digit a1 && is_digit a2
  | _ => false
  end.

Section WithRuntime.

(** Whether [Date.parse] of the string is a number; the accepted
    formats are the engine's. *)
Variable Date_parse_ok : string -> bool.

(** The outcome of reading [config.getSupabaseConfig().tables],
    defaulted to the empty list. *)
Variable configured_tables : Outcome (list string).

(** [inferType]: lines 232-256. *)
Definition inferType (value : Value) (columnName : string) : FieldType :=
  match value with
  | VNull => text
  | _ =>
      let colLower := toLowerCase columnName in
      if includes_str "date" colLower || includes_str "_at" colLower then date
      else match value with
           | VNum n d => if (Z.rem n (Z.pos d) =? 0) then integer else number
           | VBool _ => boolean
           | VStr s => if Date_parse_ok s && iso_date_prefix s then date else text
           | _ => text
           end
  end.

(** The body of the loop over the sample row's entries in
    [discoverTableSchema], lines 195-214: the descriptor of one
    column. *)
Definition column_field (p : Provider) (foreignKeys : gmap string ForeignKey)
           (tableName columnName : string) (value : Value) : FieldDef :=
  let field := mkField columnName (inferType value columnName) None
                       (Some (columnName =? "id")%string) in
  match foreignKeys !! columnName with
  | Some fk =>
      mkField (name field) lu (Some (referencedTable fk)) (readonly field)
  | None =>
      match manual_lookup (lookupConfig p) tableName columnName with
      | Some target => mkField (name field) lu (Some target) (readonly field)
      | None => field
      end
  end.

(** The loop itself, which skips the audit columns. *)
Definition sample_fields (p : Provider) (foreignKeys : gmap string ForeignKey)
           (tableName : string) (sampleRow : Record_) : list FieldDef :=
  flat_map
    (fun '(columnName, value) =>
       if (columnName =? "created_at")%string || (columnName =? "updated_at")%string
       then []
       else [column_field p foreignKeys tableName columnName value])
    sampleRow.

(** The stable sort that moves the [id] descriptor to the front. *)
Definition id_first (fields : list FieldDef) : list FieldDef :=
  List.filter (fun f => (name f =? "id")%string) fields
  ++ List.filter (fun f => negb (name f =? "id")%string) fields.

Definition default_fields : list FieldDef := [mkField "id" integer None (Some true)].

(** [discoverTableSchema]: lines 166-230. *)
Definition discoverTableSchema (c : Client) (p : Provider) (tableName : string)
  : list FieldDef * Provider :=
  match schemaCache p !! tableName with
  | Some cached => (cached, p)
  | None =>
      let '(foreignKeys, p1) := discoverForeignKeys c p tableName in
      match select_limit_1 c tableName with
      | Throw _ => (default_fields, p1)
      | Ok resp =>
          match error resp, data resp with
          | Some _, _ => (default_fields, p1)
          | None, None => (default_fields, p1)
          | None, Some [] => (default_fields, p1)
          | None, Some (sampleRow :: _) =>
              let fields := id_first (sample_fields p1 foreignKeys tableName sampleRow) in
              (fields, set_schemaCache p1 (<[tableName := fields]> (schemaCache p1)))
          end
      end
  end.

(** The loop of [discoverTables] and [discoverTablesFromConfig] over
    the table names. *)
Fixpoint discover_each (c : Client) (p : Provider) (names : list string)
         (tables : gmap string TableMeta) : gmap string TableMeta * Provider :=
  match names with
  | tableName :: rest =>
      let '(fields, p1) := discoverTableSchema c p tableName in
      discover_each c p1 rest
        (<[tableName := mkTableMeta (formatTitle tableName) tableName fields]> tables)
  | [] => (tables, p)
  end.

(** [discoverTablesFromConfig]: lines 139-164. *)
Definition discoverTablesFromConfig (c : Client) (p : Provider)
  : Outcome (gmap string TableMeta) * Provider :=
  match configured_tables with
  | Throw m => (Throw m, p)
  | Ok [] => (Ok ∅, p)
  | Ok tableList =>
      let '(tables, p1) := discover_each c p tableList ∅ in
      (Ok tables, set_metadataCache p1 (Some tables))
  end.

(** [discoverTables]: lines 102-137.  A failure of the fall-back
    inside the [try] block lands in the [catch] block, which runs the
    fall-back again. *)
Definition discoverTables (c : Client) (p : Provider)
  : Outcome (gmap string TableMeta) * Provider :=
  match metadataCache p with
  | Some cached => (Ok cached, p)
  | None =>
      let fallback :=
        match discoverTablesFromConfig c p with
        | (Throw _, p1) => discoverTablesFromConfig c p1
        | r => r
        end in
      match rpc_get_public_tables c with
      | Throw _ => discoverTablesFromConfig c p
      | Ok resp =>
          match error resp, data resp with
          | Some _, _ => fallback
          | None, None => fallback
          | None, Some [] => fallback
          | None, Some names =>
              let '(tables, p1) := discover_each c p names ∅ in
              (Ok tables, set_metadataCache p1 (Some tables))
          end
      end
  end.

(** [getTableMetadata]; [Ok None] is [undefined].  The lookup is the
    one of the code for a table name that is no inherited property
    name. *)
Definition getTableMetadata (c : Client) (p : Provider) (tableName : string)
  : Outcome (option TableMeta) * Provider :=
  match discoverTables c p with
  | (Ok allMetadata, p1) => (Ok (allMetadata !! tableName), p1)
  | (Throw m, p1) => (Throw m, p1)
  end.

(** [metadata.fields.map(f => record[f.name])] *)
Definition project (fields : list FieldDef) (record : Record_) : list (option Value) :=
  map (fun f => field_of record (name f)) fields.

(** [getTableData]: lines 273-300.  A [data] of [null] without an
    error makes [data.map] throw. *)
Definition getTableData (c : Client) (p : Provider) (tableName : string)
  : Outcome (TableData (option Value)) * Provider :=
  match getTableMetadata c p tableName with
  | (Throw m, p1) => (Throw ("Failed to fetch data: " +:+ m), p1)
  | (Ok None, p1) => (Throw "Failed to fetch data: Table not found", p1)
  | (Ok (Some metadata), p1) =>
      match select_order_by_id c tableName with
      | Throw m => (Throw ("Failed to fetch data: " +:+ m), p1)
      | Ok resp =>
          match error resp, data resp with
          | Some m, _ => (Throw ("Failed to fetch data: " +:+ m), p1)
          | None, None =>
              (Throw "Failed to fetch data: Cannot read properties of null (reading 'map')", p1)
          | None, Some records =>
              (Ok (mkTableData tableName (meta_title metadata) (fields metadata)
                               (map (project (fields metadata)) records)), p1)
          end
      end
  end.

(** [insertRow]: lines 331-355.  The [inserts] object is filled like
    the [updates] object of [updateRow] below. *)
Definition insertRow (c : Client) (p : Provider) (tableName : string)
           (rowData : gmap string Value) : Outcome unit * Provider :=
  match getTableMetadata c p tableName with
  | (Throw m, p1) => (Throw ("Failed to insert row: " +:+ m), p1)
  | (Ok None, p1) => (Throw "Failed to insert row: Table not found", p1)
  | (Ok (Some metadata), p1) =>
      let inserts :=
        fold_left
          (fun inserts field =>
             if negb (is_readonly field) && negb (name field =? "id")%string
             then <[name field := rowData !! name field]> inserts
             else inserts)
          (fields metadata) ∅ in
      match insert c tableName inserts with
      | Throw m => (Throw ("Failed to insert row: " +:+ m), p1)
      | Ok resp =>
          match error resp with
          | Some m => (Throw ("Failed to insert row: " +:+ m), p1)
          | None => (Ok tt, p1)
          end
      end
  end.

(** The [updates] object of [updateRow]: the payload's value for
    every field that is neither readonly nor named [id]. *)
Definition update_payload (fields : list FieldDef) (rowData : gmap string Value)
  : gmap string (option Value) :=
  fold_left
    (fun updates field =>
       if negb (is_readonly field) && negb (name field =? "id")%string
       then <[name field := rowData !! name field]> updates
       else updates)
    fields ∅.

(** [updateRow]: lines 357-382. *)
Definition updateRow (c : Client) (p : Provider) (tableName : string) (id : Value)
           (rowData : gmap string Value) : Outcome unit * Provider :=
  match getTableMetadata c p tableName with
  | (Throw m, p1) => (Throw ("Failed to update row: " +:+ m), p1)
  | (Ok None, p1) => (Throw "Failed to update row: Table not found", p1)
  | (Ok (Some metadata), p1) =>
      let updates := update_payload (fields metadata) rowData in
      match update_eq_id c tableName updates id with
      | Throw m => (Throw ("Failed to update row: " +:+ m), p1)
      | Ok resp =>
          match error resp with
          | Some m => (Throw ("Failed to update row: " +:+ m), p1)
          | None => (Ok tt, p1)
          end
      end
  end.

End WithRuntime.

End Supabase.

(** ** The source registry: [dataProviders/index.js] *)

Module MultiSource.

(** A provider instance of either type; the remote one with its
    client. *)
Inductive AnyProvider : Type :=
| TextFiles (p : TextFile.Provider)
| Remote (c : Supabase.Client) (p : Supabase.Provider).

(** The [MultiSourceManager]: its [providers] map, together with the
    file system the file-backed providers work on. *)
Record Manager : Type := mkManager {
  providers : gmap string AnyProvider;
  files : gmap string string
}.

(** A CSV record or form payload as the remote provider reads it. *)
Definition as_values (row : Obj) : gmap string Supabase.Value :=
  fold_right (fun '(k, v) acc => <[k := Supabase.VStr v]> acc) ∅ row.

Section WithEnvironment.

Variable path_join : string -> string -> string.
Variable Date_parse_ok : string -> bool.
Variable configured_tables : Outcome (list string).

(** [getProvider] *)
Definition getProvider (m : Manager) (sourceId : string) : Outcome AnyProvider :=
  match providers m !! sourceId with
  | Some provider => Ok provider
  | None => Throw ("Data source not found: " +:+ sourceId)
  end.

(** [getTableData], routed by source id. *)
Definition getTableData (m : Manager) (sourceId tableName : string)
  : Outcome (TableData (option Supabase.Value)) * Manager :=
  match getProvider m sourceId with
  | Throw e => (Throw e, m)
  | Ok (TextFiles p) =>
      let '(r, fs1) := TextFile.getTableData path_join p (files m) tableName in
      (match r with
       | Ok t => Ok (mkTableData (object t) (title t) (headings t)
                                 (map (map (fun cell => Some (Supabase.VStr cell)))
                                      (Schema.rows t)))
       | Throw e => Throw e
       end,
       mkManager (providers m) fs1)
  | Ok (Remote c p) =>
      let '(r, p1) :=
        Supabase.getTableData Date_parse_ok configured_tables c p tableName in
      (r, mkManager (<[sourceId := Remote c p1]> (providers m)) (files m))
  end.

(** [insertRow], routed by source id. *)
Definition insertRow (m : Manager) (sourceId tableName : string) (row : Obj)
  : Outcome unit * Manager :=
  match getProvider m sourceId with
  | Throw e => (Throw e, m)
  | Ok (TextFiles p) =>
      let '(r, fs1) := TextFile.insertRow path_join p (files m) tableName row in
      (r, mkManager (providers m) fs1)
  | Ok (Remote c p) =>
      let '(r, p1) :=
        Supabase.insertRow Date_parse_ok configured_tables c p tableName (as_values row) in
      (r, mkManager (<[sourceId := Remote c p1]> (providers m)) (files m))
  end.

End WithEnvironment.

End MultiSource.

(** ** The CSV import endpoint: [app.post('/import-csv')] in [server.js] *)

Module Server.

(** The parts of the request the handler reads: [req.body.object],
    [req.body.source] and the text of the uploaded file. *)
Record Request : Type := mkRequest {
  body_object : option string;
  body_source : option string;
  file : option string
}.

(** An entry of the [errors] array. *)
Record RowError : Type := mkRowError {
  row : nat;
  error : string
}.

(** The JSON bodies the handler sends.  [errors = None] is the
    [undefined] that leaves the key out of the body. *)
Inductive Body : Type :=
| Failure (error : string)
| ColumnMismatch (error : string) (validColumns : list string)
| Summary (success : bool) (imported total : nat) (errors : option (list RowError)).

Record HttpResponse : Type := mkHttpResponse {
  status : nat;
  body : Body
}.

Section WithEnvironment.

Variable path_join : string -> string -> string.
Variable Date_parse_ok : string -> bool.
Variable configured_tables : Outcome (list string).

(** The [csv-parser] stream run to its end on the uploaded text: the
    records pushed to [results], or the stream's error. *)
Variable csv : string -> Outcome (list Obj).

(** The insert loop, lines 293-301, with its variables [i],
    [successCount] and [errors]. *)
Fixpoint import_rows (m : MultiSource.Manager) (source object : string)
         (results : list Obj) (i successCount : nat) (errors : list RowError)
  : nat * list RowError * MultiSource.Manager :=
  match results with
  | result :: rest =>
      match MultiSource.insertRow path_join Date_parse_ok configured_tables
                                  m source object result with
      | (Ok _, m1) => import_rows m1 source object rest (S i) (S successCount) errors
      | (Throw message, m1) =>
          import_rows m1 source object rest (S i) successCount
                      (errors ++ [mkRowError (i + 1) message])
      end
  | [] => (successCount, errors, m)
  end.

(** [Object.keys(results[0])] *)
Definition csvColumns (results : list Obj) : list string :=
  match results with
  | first :: _ => keys first
  | [] => []
  end.

Definition includes_name (l : list string) (x : string) : bool :=
  existsb (String.eqb x) l.

(** The handler, lines 253-314. *)
Definition import_csv (m : MultiSource.Manager) (req : Request)
  : HttpResponse * MultiSource.Manager :=
  match body_object req, body_source req, file req with
  | Some object, Some source, Some uploaded =>
      if negb (truthy object) then (mkHttpResponse 400 (Failure "Object name required"), m)
      else if negb (truthy source) then (mkHttpResponse 400 (Failure "Source required"), m)
      else
        match csv uploaded with
        | Throw message => (mkHttpResponse 500 (Failure message), m)
        | Ok [] => (mkHttpResponse 400 (Failure "CSV file is empty"), m)
        | Ok results =>
            match MultiSource.getTableData path_join Date_parse_ok configured_tables
                                           m source object with
            | (Throw message, m1) => (mkHttpResponse 500 (Failure message), m1)
            | (Ok tableData, m1) =>
                let validColumns := map name (headings tableData) in
                let invalidColumns :=
                  List.filter (fun col => negb (includes_name validColumns col))
                              (csvColumns results) in
                match invalidColumns with
                | _ :: _ =>
                    (mkHttpResponse 400
                       (ColumnMismatch
                          ("Invalid columns in CSV: " +:+ join ", " invalidColumns)
                          validColumns),
                     m1)
                | [] =>
                    let '(successCount, errors, m2) :=
                      import_rows m1 source object results 0 0 [] in
                    (mkHttpResponse 200
                       (Summary true successCount (length results)
                                (match errors with [] => None | _ => Some errors end)),
                     m2)
                end
            end
        end
  | None, _, _ => (mkHttpResponse 400 (Failure "Object name required"), m)
  | Some object, None, _ =>
      if negb (truthy object) then (mkHttpResponse 400 (Failure "Object name required"), m)
      else (mkHttpResponse 400 (Failure "Source required"), m)
  | Some object, Some source, None =>
      if negb (truthy object) then (mkHttpResponse 400 (Failure "Object name required"), m)
      else if negb (truthy source) then (mkHttpResponse 400 (Failure "Source required"), m)
      else (mkHttpResponse 400 (Failure "No file uploaded"), m)
  end.

End WithEnvironment.

End Server.

(** ** Authentication: [login] of the providers and of the manager,
    and the session handlers of [server.js] *)

Module Auth.

(** The object a [login] resolves to: success with the user, or
    failure with an error text. *)
Inductive LoginResult : Type :=
| Success (user : TextFile.User)
| Failed (error : string).

(** The answer of [supabase.auth.signInWithPassword]: the signed-in
    user, or an error with its message (empty when it has none). *)
Inductive SignIn : Type :=
| SignedIn (user : TextFile.User)
| SignInError (message : string).

(** The session store [sessions] of [server.js]. *)
Definition Sessions : Type := gmap string TextFile.User.

(** What [requireAuth] does with a request: call [next] with
    [req.user] set, or answer 401. *)
Inductive Gate : Type :=
| Next (user : TextFile.User)
| Unauthorized.

(** The answers of the login handler. *)
Inductive LoginResponse : Type :=
| LoginOk (sessionId email : string)
| LoginError (status : Z) (error : string).

Section WithService.

(** The outcome of the sign-in call of a remote provider. *)
Variable signInWithPassword : Supabase.Client -> string -> string -> Outcome SignIn.

(** [SupabaseProvider.login]: lines 21-43. *)
Definition supabase_login (c : Supabase.Client) (email password : string) : LoginResult :=
  match signInWithPassword c email password with
  | Ok (SignedIn u) => Success (TextFile.mkUser (TextFile.user_id u) (TextFile.email u))
  | Ok (SignInError message) | Throw message =>
      Failed (if truthy message then message else "Invalid credentials")
  end.

(** [provider.login(email, password)] for a provider of either class. *)
Definition provider_login (provider : MultiSource.AnyProvider) (email password : string)
  : LoginResult :=
  match provider with
  | MultiSource.TextFiles p =>
      let result := TextFile.login p email password in
      if TextFile.success result then Success (TextFile.user result) else Failed ""
  | MultiSource.Remote c _ => supabase_login c email password
  end.

(** [provider.isAuthRequired()] for a provider of either class. *)
Definition provider_isAuthRequired (provider : MultiSource.AnyProvider) : bool :=
  match provider with
  | MultiSource.TextFiles p => TextFile.authRequired p
  | MultiSource.Remote _ _ => true
  end.

(** [MultiSourceManager.isAuthRequired], over [this.providers.values()]
    in insertion order. *)
Fixpoint isAuthRequired (values : list MultiSource.AnyProvider) : bool :=
  match values with
  | [] => false
  | provider :: rest =>
      if provider_isAuthRequired provider then true else isAuthRequired rest
  end.

(** [MultiSourceManager.login], over [this.providers.values()] in
    insertion order. *)
Fixpoint login (values : list MultiSource.AnyProvider) (email password : string)
  : LoginResult :=
  match values with
  | [] => Failed "Invalid credentials"
  | provider :: rest =>
      match provider_login provider email password with
      | Success u => Success u
      | Failed _ => login rest email password
      end
  end.

(** [requireAuth] of [server.js], lines 33-46, on the header
    [x-session-id] of the request. *)
Definition requireAuth (values : list MultiSource.AnyProvider) (sessions : Sessions)
           (header : option string) : Gate :=
  if negb (isAuthRequired values) then Next (TextFile.mkUser "guest" "guest")
  else match header with
       | Some sessionId =>
           if truthy sessionId
           then match sessions !! sessionId with
                | Some u => Next u
                | None => Unauthorized
                end
           else Unauthorized
       | None => Unauthorized
       end.

(** The handler of [POST /login], lines 379-396; [sessionId] is the
    value [generateSessionId] returns in this call. *)
Definition post_login (values : list MultiSource.AnyProvider) (sessions : Sessions)
           (email password : option string) (sessionId : string)
  : LoginResponse * Sessions :=
  match email, password with
  | Some email, Some password =>
      if negb (truthy email) || negb (truthy password)
      then (LoginError 400 "Email and password required", sessions)
      else match login values email password with
           | Success u => (LoginOk sessionId (TextFile.email u), <[sessionId := u]> sessions)
           | Failed e => (LoginError 401 e, sessions)
           end
  | _, _ => (LoginError 400 "Email and password required", sessions)
  end.

(** The handler of [GET /logout], lines 420-424. *)
Definition get_logout (sessions : Sessions) (header : option string) : Sessions :=
  match header with
  | Some sessionId => if truthy sessionId then delete sessionId sessions else sessions
  | None => sessions
  end.

End WithService.

End Auth.

(** ** [escapeHtml] of [server.js] *)

Module Html.

(** [s.replace(/c/g, by)] for a pattern of one character. *)
Fixpoint replace_all (c : ascii) (by_ : string) (s : string) : string :=
  match s with
  | EmptyString => EmptyString
  | String x rest =>
      if Ascii.eqb x c then by_ +:+ replace_all c by_ rest
      else String x (replace_all c by_ rest)
  end.

(** [escapeHtml]: lines 48-51; [None] is [null] or [undefined]. *)
Definition escapeHtml (s : option string) : string :=
  match s with
  | None => ""
  | Some s =>
      replace_all "'" "&#39;"
        (replace_all JS.dquote "&quot;"
           (replace_all ">" "&gt;"
              (replace_all "<" "&lt;"
                 (replace_all "&" "&amp;" s))))
  end.

End Html.

(** ** Concrete providers and files for the worked examples *)

Module Examples.

Definition nl : string := String newline EmptyString.
Definition dq : string := String dquote EmptyString.

(** A file-backed source on the directory [data], without and with
    authentication. *)
Definition open_source : TextFile.Provider := TextFile.mkProvider "data" false ∅.
Definition secured_source : TextFile.Provider := TextFile.mkProvider "data" true ∅.

Definition path_of (tableName : string) : string :=
  TextFile.getFilePath TextFile.slash_join open_source tableName.

(** A file system holding one table file. *)
Definition one_file (tableName content : string) : gmap string string :=
  {[ path_of tableName := content ]}.

(** The value of the round-trip property: [a], a comma, and [b] in
    double quotes. *)
Definition quoted_value : string := "a," +:+ dq +:+ "b" +:+ dq.

(** A remote service with a table [orders] whose column [customer_id]
    is a foreign key to [customers]; it rejects the insertion of a
    second order for the item [pen]. *)
Definition orders_client : Supabase.Client :=
  Supabase.mkClient
    (fun _ => Ok (Supabase.mkResponse
                    (Some [Supabase.mkFkRow "customer_id" "customers" "id"]) None))
    (Ok (Supabase.mkResponse (Some ["orders"]) None))
    (fun _ => Ok (Supabase.mkResponse
                    (Some [[("id", Supabase.VNum 1 1);
                            ("customer_id", Supabase.VNum 7 1);
                            ("item", Supabase.VStr "pen")]]) None))
    (fun _ => Ok (Supabase.mkResponse
                    (Some [[("id", Supabase.VNum 1 1);
                            ("customer_id", Supabase.VNum 7 1);
                            ("item", Supabase.VStr "pen")];
                           [("id", Supabase.VNum 2 1);
                            ("customer_id", Supabase.VNum 7 1);
                            ("item", Supabase.VStr "ink")]]) None))
    (fun _ inserts =>
       match inserts !! "item" with
       | Some (Some (Supabase.VStr "pen")) =>
           Ok (Supabase.mkResponse None (Some "duplicate key value violates unique constraint"))
       | _ => Ok (Supabase.mkResponse None None)
       end)
    (fun _ _ _ => Ok (Supabase.mkResponse None None)).

(** A remote provider with empty caches, configured with a manual
    lookup of [orders.customer_id] in the table [clients]. *)
Definition orders_provider : Supabase.Provider :=
  Supabase.mkProvider None ∅ ∅ {[ "orders" := {[ "customer_id" := "clients" ]} ]}.

(** The engine's [Date.parse], as far as the examples need it. *)
Definition no_dates (s : string) : bool := false.

(** The repository's [config.js] has no [getSupabaseConfig]. *)
Definition no_config : Outcome (list string) :=
  Throw "config.getSupabaseConfig is not a function".

(** The registry of the examples: the file-backed source [source1] and
    the remote source [source2]. *)
Definition registry (fs : gmap string string) : MultiSource.Manager :=
  MultiSource.mkManager
    {[ "source1" := MultiSource.TextFiles open_source;
       "source2" := MultiSource.Remote orders_client orders_provider ]}
    fs.

(** A table [Countries] with the fields [id], [Name] and [ISO2]. *)
Definition countries_file : gmap string string :=
  one_file "Countries" ("id:int,Name:str,ISO2:str" +:+ nl +:+ "1,France,FR").

(** That table as the registry hands it out. *)
Definition countries_table : TableData (option Supabase.Value) :=
  mkTableData "Countries" "Countries"
              [mkField "id" integer None (Some true);
               mkField "Name" text None (Some false);
               mkField "ISO2" text None (Some false)]
              [[Some (Supabase.VStr "1"); Some (Supabase.VStr "France");
                Some (Supabase.VStr "FR")]].

(** An upload whose records have the columns [id], [Name] and
    [Capital]. *)
Definition capitals_upload (uploaded : string) : Outcome (list Obj) :=
  Ok [[("id", "7"); ("Name", "Spain"); ("Capital", "Madrid")]].

(** An upload of three orders, the second one for the item [pen]. *)
Definition orders_upload (uploaded : string) : Outcome (list Obj) :=
  Ok [[("customer_id", "7"); ("item", "nib")];
      [("customer_id", "7"); ("item", "pen")];
      [("customer_id", "8"); ("item", "cap")]].

(** A table [Letters] without a header line. *)
Definition letters_file : gmap string string :=
  one_file "Letters" ("1,a" +:+ nl +:+ "2,b").

(** A remote service that is out of reach. *)
Definition down_client : Supabase.Client :=
  Supabase.mkClient
    (fun _ => Throw "fetch failed")
    (Throw "fetch failed")
    (fun _ => Throw "fetch failed")
    (fun _ => Throw "fetch failed")
    (fun _ _ => Throw "fetch failed")
    (fun _ _ _ => Throw "fetch failed").

(** A sign-in service that rejects every credential. *)
Definition strict_service (c : Supabase.Client) (email password : string)
  : Outcome Auth.SignIn :=
  Ok (Auth.SignInError "Invalid login credentials").

(** A remote source registered before a file-backed one. *)
Definition mixed_sources : list MultiSource.AnyProvider :=
  [MultiSource.Remote orders_client orders_provider; MultiSource.TextFiles secured_source].

(** The records csv-parser gives, with its default options, for an
    upload with the header line [id,Name,Capital] and the data line
    [7,Spain]: a record has a key for each cell of its line, so the
    short line gives no [Capital]. *)
Definition short_row_upload (uploaded : string) : Outcome (list Obj) :=
  Ok [[("id", "7"); ("Name", "Spain")]].

(** The records it gives for an upload that holds the header line
    [id,Name,Capital] only: none. *)
Definition header_only_upload (uploaded : string) : Outcome (list Obj) :=
  Ok [].

End Examples.

(** ** Vocabulary of the statements *)

(** The ids of rows, as numbers: [parseInt] of the first cell. *)
Definition row_ids (rows : list TextFile.Row) : list (option Z) :=
  map (fun r => match r !! 0%nat with Some r0 => parseInt r0 | None => None end) rows.


(** The non-blank lines of a file, as [readFile] splits it. *)
Definition file_lines (content : string) : list string :=
  List.filter (fun line => truthy (trim line)) (split newline content).

(** The data lines of a file: all of its non-blank lines, without the
    first one when that is a header line. *)
Definition data_lines (content : string) : list string :=
  match file_lines content with
  | line0 :: rest =>
      if existsb (includes colon) (TextFile.parseCSVLine line0) then rest
      else line0 :: rest
  | [] => []
  end.

(** The data lines of the file at a path; none when there is no file. *)
Definition stored_lines (fs : gmap string string) (path : string) : list string :=
  match fs !! path with
  | Some content => data_lines content
  | None => []
  end.

(** A row reads a data line: it holds the fields of the line, after an
    assigned id when the line has none. *)
Definition row_of_line (line : string) (row : TextFile.Row) : Prop :=
  if TextFile.lacks_id (TextFile.parseCSVLine line)
  then exists n : Z, row = String_of_Z n :: TextFile.parseCSVLine line
  else row = TextFile.parseCSVLine line.

(** The largest id of a table that is above zero; zero when there is
    none. *)
Definition largest_id (rows : list TextFile.Row) : Z :=
  fold_right (fun id acc => match id with Some n => Z.max n acc | None => acc end)
             0 (row_ids rows).



(** *** The import loop, told by its outcomes *)

Section ImportOutcomes.

Variable path_join : string -> string -> string.
Variable Date_parse_ok : string -> bool.
Variable configured_tables : Outcome (list string).

(** One [insertRow] per record, in order, each on the registry the
    previous one left: the outcomes, and the registry at the end. *)
Fixpoint attempts (m : MultiSource.Manager) (source object : string) (results : list Obj)
  : list (Outcome unit) * MultiSource.Manager :=
  match results with
  | result :: rest =>
      let '(o, m1) :=
        MultiSource.insertRow path_join Date_parse_ok configured_tables
                              m source object result in
      let '(os, m2) := attempts m1 source object rest in
      (o :: os, m2)
  | [] => ([], m)
  end.

End ImportOutcomes.

(** The number of successful outcomes. *)
Fixpoint successes (os : list (Outcome unit)) : nat :=
  match os with
  | Ok _ :: rest => S (successes rest)
  | Throw _ :: rest => successes rest
  | [] => 0%nat
  end.

(** The failed outcomes with their positions, counted from [n]. *)
Fixpoint failures_from (n : nat) (os : list (Outcome unit)) : list Server.RowError :=
  match os with
  | Ok _ :: rest => failures_from (S n) rest
  | Throw message :: rest => Server.mkRowError n message :: failures_from (S n) rest
  | [] => []
  end.

(** A string has ink when one of its characters is not white space. *)
Fixpoint has_ink (s : string) : bool :=
  match s with
  | String c r => negb (is_ws c) || has_ink r
  | EmptyString => false
  end.

(** A cell as [parseCSVLine] produces it from one line of a file:
    trimmed, and free of double quotes and line breaks. *)
Definition clean (cell : string) : Prop :=
  trim cell = cell /\ includes dquote cell = false /\ includes newline cell = false.

(** The line [writeFile] prints for a row. *)
Definition csv_line (row : TextFile.Row) : string :=
  join "," (map TextFile.csv_cell row).

(** A string of decimal digits. *)
Fixpoint digits_only (s : string) : bool :=
  match s with
  | String c r => Supabase.is_digit c && digits_only r
  | EmptyString => true
  end.

(** A row as [readFile] hands it out: clean cells, the first one an
    id. *)
Definition healed (row : TextFile.Row) : Prop :=
  Forall clean row /\ TextFile.lacks_id row = false.

(** The header line [writeFile] prints. *)
Definition header_line (hs : list FieldDef) : string :=
  join "," (map TextFile.header_cell hs).

(** The lines [writeFile] prints. *)
Definition printed_lines (rows : list TextFile.Row) (headers : option (list FieldDef))
  : list string :=
  match headers with
  | Some hs => [header_line hs]
  | None => []
  end ++ map csv_line rows.

(** No lookup target of the configuration holds a line break. *)
Definition config_on_one_line (p : TextFile.Provider) : Prop :=
  forall tableName name target,
    manual_lookup (TextFile.lookupConfig p) tableName name = Some target ->
    includes newline target = false.

(** The number a decimal numeral denotes, read after the digits that gave
    [acc]. *)
Fixpoint numeral_value (d : Decimal.uint) (acc : Z) : Z :=
  match d with
  | Decimal.Nil => acc
  | Decimal.D0 l => numeral_value l (acc * 10 + 0)
  | Decimal.D1 l => numeral_value l (acc * 10 + 1)
  | Decimal.D2 l => numeral_value l (acc * 10 + 2)
  | Decimal.D3 l => numeral_value l (acc * 10 + 3)
  | Decimal.D4 l => numeral_value l (acc * 10 + 4)
  | Decimal.D5 l => numeral_value l (acc * 10 + 5)
  | Decimal.D6 l => numeral_value l (acc * 10 + 6)
  | Decimal.D7 l => numeral_value l (acc * 10 + 7)
  | Decimal.D8 l => numeral_value l (acc * 10 + 8)
  | Decimal.D9 l => numeral_value l (acc * 10 + 9)
  end.

(** A name as [writeFile] can print it in a header line and [readFile]
    read it back: trimmed, not empty, and free of colons, commas, quotes
    and line breaks. *)
Definition plain (s : string) : Prop :=
  trim s = s /\ truthy s = true /\ includes colon s = false
  /\ includes comma s = false /\ includes dquote s = false
  /\ includes newline s = false.

(** A header descriptor of the table [t] as [readFile] builds it: a
    plain name, no [readonly] property, a lookup target only with the
    type [lu], and no manual lookup that would replace its type. *)
Definition header_as_read (p : TextFile.Provider) (t : string) (h : FieldDef) : Prop :=
  plain (name h) /\ readonly h = None
  /\ match type h, luFile h with
     | lu, Some f => plain f
     | _, Some _ => False
     | _, None => manual_lookup (TextFile.lookupConfig p) t (name h) = None
     end.

(** A string that [writeFile] prints as it is and [parseCSVLine] reads
    back as it is. *)
Definition printable (s : string) : Prop :=
  trim s = s /\ s <> "" /\ includes comma s = false
  /\ includes dquote s = false /\ includes newline s = false.

(** The audit columns that schema discovery leaves out. *)
Definition audit_column (columnName : string) : bool :=
  (columnName =? "created_at")%string || (columnName =? "updated_at")%string.


(** The entity of one character. *)
Definition entity (c : ascii) : string :=
  if Ascii.eqb c "&" then "&amp;"
  else if Ascii.eqb c "<" then "&lt;"
  else if Ascii.eqb c ">" then "&gt;"
  else if Ascii.eqb c JS.dquote then "&quot;"
  else if Ascii.eqb c "'" then "&#39;"
  else String c EmptyString.

(** Escaping in one pass over the text. *)
Fixpoint escape_each (s : string) : string :=
  match s with
  | EmptyString => EmptyString
  | String c rest => entity c +:+ escape_each rest
  end.

(** The characters that open or close markup or an attribute value. *)
Definition markup (c : ascii) : bool :=
  Ascii.eqb c "<" || Ascii.eqb c ">" || Ascii.eqb c JS.dquote || Ascii.eqb c "'".

Fixpoint forallb_string (f : ascii -> bool) (s : string) : bool :=
  match s with
  | EmptyString => true
  | String c rest => f c && forallb_string f rest
  end.

(** The table list of the service did not arrive: the call threw,
    returned an error, or returned no table. *)
Definition no_public_tables (c : Supabase.Client) : Prop :=
  match Supabase.rpc_get_public_tables c with
  | Ok (Supabase.mkResponse (Some (_ :: _)) None) => False
  | _ => True
  end.

(** A provider whose own [login] fails for the credentials. *)
Definition refused (signInWithPassword : Supabase.Client -> string -> string -> Outcome Auth.SignIn)
           (email password : string) (provider : MultiSource.AnyProvider) : Prop :=
  exists e, Auth.provider_login signInWithPassword provider email password = Auth.Failed e.

(** [Number.MAX_SAFE_INTEGER]: up to it, in absolute value, every
    integer is a number of the code, sums and comparisons are exact, and
    [String] prints the plain decimal digits. *)
Definition MAX_SAFE_INTEGER : Z := 9007199254740991.

Definition safe_integer (n : Z) : bool := Z.abs n <=? MAX_SAFE_INTEGER.

(** The ids of a table file stay in that range: the number of lines,
    and every id that [parseInt] reads from the first cell of a line,
    with the number of lines added to it.  The ids that [readFile]
    assigns and the id that [insertRow] computes are then in the range
    as well, and the integers of this development are the numbers of
    the code. *)
Definition ids_in_range (fs : gmap string string) (path : string) : bool :=
  match fs !! path with
  | None => true
  | Some content =>
      let lines := file_lines content in
      let count := Z.of_nat (length lines) in
      (count <=? MAX_SAFE_INTEGER)
      && forallb (fun line =>
                    match TextFile.parseCSVLine line !! 0%nat with
                    | Some f0 =>
                        match parseInt f0 with
                        | Some n => Z.abs n + count <=? MAX_SAFE_INTEGER
                        | None => true
                        end
                    | None => true
                    end)
                 lines
  end.

(** The property names a plain object inherits from
    [Object.prototype]: [o[k]] finds them although [o] has no such key
    of its own. *)
Definition Object_prototype_names : list string :=
  ["constructor"; "__proto__"; "__defineGetter__"; "__defineSetter__";
   "__lookupGetter__"; "__lookupSetter__"; "hasOwnProperty"; "isPrototypeOf";
   "propertyIsEnumerable"; "toString"; "toLocaleString"; "valueOf"].

(** A key that a lookup in a plain object finds without the object
    having it.  For every other key, the lookup in a finite map is the
    lookup in the object. *)
Definition inherited (k : string) : bool :=
  existsb (String.eqb k) Object_prototype_names.

(** A call of one of the methods of the remote provider.  The methods
    that are not embedded here ([getRowById], [deleteRow],
    [getLookupValues], [getAvailableTables]) touch the provider through
    [getTableMetadata] or [discoverTables] only. *)
Inductive RemoteCall : Type :=
| SchemaOf (tableName : string)
| ForeignKeysOf (tableName : string)
| TablesOf
| MetadataOf (tableName : string)
| TableDataOf (tableName : string)
| InsertInto (tableName : string) (rowData : gmap string Supabase.Value)
| UpdateIn (tableName : string) (id : Supabase.Value) (rowData : gmap string Supabase.Value).

(** The provider after one call, answered by the service [c]. *)
Definition after_call (Date_parse_ok : string -> bool) (configured_tables : Outcome (list string))
           (c : Supabase.Client) (p : Supabase.Provider) (call : RemoteCall)
  : Supabase.Provider :=
  match call with
  | SchemaOf t => snd (Supabase.discoverTableSchema Date_parse_ok c p t)
  | ForeignKeysOf t => snd (Supabase.discoverForeignKeys c p t)
  | TablesOf => snd (Supabase.discoverTables Date_parse_ok configured_tables c p)
  | MetadataOf t => snd (Supabase.getTableMetadata Date_parse_ok configured_tables c p t)
  | TableDataOf t => snd (Supabase.getTableData Date_parse_ok configured_tables c p t)
  | InsertInto t rowData =>
      snd (Supabase.insertRow Date_parse_ok configured_tables c p t rowData)
  | UpdateIn t id rowData =>
      snd (Supabase.updateRow Date_parse_ok configured_tables c p t id rowData)
  end.

(** The provider after a sequence of calls, each with the service as
    it answers at that time. *)
Fixpoint after_calls (Date_parse_ok : string -> bool) (configured_tables : Outcome (list string))
         (p : Supabase.Provider) (calls : list (Supabase.Client * RemoteCall))
  : Supabase.Provider :=
  match calls with
  | [] => p
  | (c, call) :: rest =>
      after_calls Date_parse_ok configured_tables
                  (after_call Date_parse_ok configured_tables c p call) rest
  end.

(** The second provider still holds every cache entry of the first. *)
Definition keeps_caches (p q : Supabase.Provider) : Prop :=
  (forall t fields, Supabase.schemaCache p !! t = Some fields ->
                    Supabase.schemaCache q !! t = Some fields)
  /\ (forall t fks, Supabase.foreignKeyCache p !! t = Some fks ->
                    Supabase.foreignKeyCache q !! t = Some fks)
  /\ (forall tables, Supabase.metadataCache p = Some tables ->
                     Supabase.metadataCache q = Some tables).

(** Later calls of the remote provider, with the service out of reach
    for some of them. *)
Definition later_calls : list (Supabase.Client * RemoteCall) :=
  [(Examples.down_client, TableDataOf "orders");
   (Examples.orders_client, SchemaOf "customers");
   (Examples.down_client, MetadataOf "invoices");
   (Examples.down_client, ForeignKeysOf "orders")].

(** * Properties of the file-backed provider *)

Section TextFileFacts.

Variable path_join : string -> string -> string.

(** C9.  When the file-backed provider requires authentication, [login]
    succeeds for every email and password, and the user it returns is
    built from the email. *)
Theorem login_accepts_every_credential (p : TextFile.Provider) (email password : string) :
  TextFile.authRequired p = true ->
  TextFile.login p email password
  = TextFile.mkLogin true (TextFile.mkUser email email).
Proof.
  intros Hauth. unfold TextFile.login. now rewrite Hauth.
Qed.

Lemma readFile_missing (p : TextFile.Provider) (fs : gmap string string) (t : string) :
  fs !! TextFile.getFilePath path_join p t = None ->
  TextFile.readFile path_join p fs t = (TextFile.mkFileData None [], fs).
Proof.
  intros Hnone. unfold TextFile.readFile. now rewrite Hnone.
Qed.

(** C10.  When the backing file of a table does not exist, [readFile]
    resolves to the empty table (no headers, no rows) and
    [getTableData] succeeds with no rows and the single default [id]
    descriptor; the file system is left as it was. *)
Theorem missing_file_is_an_empty_table
        (p : TextFile.Provider) (fs : gmap string string) (t : string) :
  fs !! TextFile.getFilePath path_join p t = None ->
  TextFile.readFile path_join p fs t = (TextFile.mkFileData None [], fs)
  /\ TextFile.getTableData path_join p fs t
     = (Ok (mkTableData t (formatTitle t) [mkField "id" integer None (Some true)] []), fs).
Proof.
  intros Hnone. split.
  - now apply readFile_missing.
  - unfold TextFile.getTableData. now rewrite readFile_missing.
Qed.

End TextFileFacts.

Lemma login_accepts_every_credential_witness :
  TextFile.authRequired Examples.secured_source = true
  /\ TextFile.login Examples.secured_source "nobody@example.org" "wrong"
     = TextFile.mkLogin true (TextFile.mkUser "nobody@example.org" "nobody@example.org").
Proof.
  split; [reflexivity |].
  apply (login_accepts_every_credential Examples.secured_source); reflexivity.
Defined.

Lemma missing_file_is_an_empty_table_witness :
  (∅ : gmap string string) !! TextFile.getFilePath TextFile.slash_join Examples.open_source "Ghosts" = None
  /\ TextFile.getTableData TextFile.slash_join Examples.open_source ∅ "Ghosts"
     = (Ok (mkTableData "Ghosts" "Ghosts" [mkField "id" integer None (Some true)] []), ∅).
Proof.
  split; [reflexivity |].
  apply (missing_file_is_an_empty_table TextFile.slash_join Examples.open_source ∅ "Ghosts").
  reflexivity.
Defined.

(** C1.  The round trip of [writeFile] and [readFile] at the table with
    the single row [1], [a,"b"]: the file holds the value with its quotes
    doubled, and reading it back yields [a,b], the double quotes gone.
    The rows read back are not the rows written. *)
Theorem round_trip_loses_embedded_quotes :
  let written := [["1"; Examples.quoted_value]] in
  let fs := TextFile.writeFile TextFile.slash_join Examples.open_source ∅ "t" written None in
  let read := fst (TextFile.readFile TextFile.slash_join Examples.open_source fs "t") in
  fs !! Examples.path_of "t"
  = Some ("1," +:+ Examples.dq +:+ "a," +:+ Examples.dq +:+ Examples.dq +:+ "b"
               +:+ Examples.dq +:+ Examples.dq +:+ Examples.dq)
  /\ TextFile.rows read = [["1"; "a,b"]]
  /\ TextFile.rows read <> written.
Proof.
  intros written fs read.
  split; [vm_compute; reflexivity |].
  split; [vm_compute; reflexivity |].
  vm_compute. discriminate.
Qed.

(** C2.  [updateRow] on a table with a header line, called for the row
    with id [1] with a payload that carries [id = 99]: the stored row's
    id becomes [99].  The descriptors [readFile] builds from a header
    line carry no [readonly] property, so the readonly branch of
    [updateRow] is never taken for them. *)
Theorem update_overwrites_id_under_header :
  let fs := Examples.one_file "Countries" ("id:int,Name:str" +:+ Examples.nl +:+ "1,France") in
  let r := TextFile.updateRow TextFile.slash_join Examples.open_source fs "Countries" "1"
                              [("id", "99"); ("Name", "Gaul")] in
  fst r = Ok tt
  /\ snd r !! Examples.path_of "Countries"
     = Some ("id:int,Name:str" +:+ Examples.nl +:+ "99,Gaul")
  /\ TextFile.rows (fst (TextFile.readFile TextFile.slash_join Examples.open_source
                                           (snd r) "Countries"))
     = [["99"; "Gaul"]].
Proof.
  repeat split; vm_compute; reflexivity.
Qed.



(** C6, as stated, fails: in a table whose only id is [-5], the largest
    existing id is [-5], yet the new row gets the id [1], not [-4]. *)
Lemma insertRow_ignores_ids_below_one :
  let fs := Examples.one_file "t" "-5,a" in
  let r := TextFile.insertRow TextFile.slash_join Examples.open_source fs "t" [("Column1", "b")] in
  row_ids (TextFile.rows (fst (TextFile.readFile TextFile.slash_join Examples.open_source fs "t")))
  = [Some (-5)]
  /\ snd r !! Examples.path_of "t" = Some ("-5,a" +:+ Examples.nl +:+ "1,b")
  /\ row_ids (TextFile.rows (fst (TextFile.readFile TextFile.slash_join Examples.open_source
                                                    (snd r) "t")))
     = [Some (-5); Some 1]
  /\ 1 <> -5 + 1.
Proof.
  repeat split; try (vm_compute; reflexivity). discriminate.
Qed.

(** * Properties of the CSV import *)

Section ImportFacts.

Variable path_join : string -> string -> string.
Variable Date_parse_ok : string -> bool.
Variable configured_tables : Outcome (list string).
Variable csv : string -> Outcome (list Obj).

Local Abbreviation handler :=
  (Server.import_csv path_join Date_parse_ok configured_tables csv).
Local Abbreviation loop :=
  (Server.import_rows path_join Date_parse_ok configured_tables).
Local Abbreviation schema_of :=
  (MultiSource.getTableData path_join Date_parse_ok configured_tables).
Local Abbreviation run :=
  (attempts path_join Date_parse_ok configured_tables).

Lemma includes_name_In (l : list string) (x : string) :
  Server.includes_name l x = true <-> In x l.
Proof.
  unfold Server.includes_name. rewrite existsb_exists. split.
  - intros [y [Hin Heq]]. apply String.eqb_eq in Heq. now subst.
  - intros Hin. exists x. split; [assumption | apply String.eqb_refl].
Qed.

Lemma invalid_columns_In (valid cols : list string) (c : string) :
  In c (List.filter (fun col => negb (Server.includes_name valid col)) cols)
  <-> In c cols /\ ~ In c valid.
Proof.
  rewrite filter_In, negb_true_iff, <- (includes_name_In valid c).
  destruct (Server.includes_name valid c); split; intros [Hc Hv]; split; auto;
    try discriminate; now destruct Hv.
Qed.

(** C4, amended.  The handler checks the keys of the first parsed
    record, not the header line.  A well-formed import whose first
    record has a key that is not a field name of the target table is
    answered with status 400 and a column-mismatch body: its message
    lists exactly the keys of the first record that are no field
    names, and it carries the table's field names.  The registry is as
    the schema lookup left it: no insert has run. *)
Theorem import_rejects_unknown_columns
        (m m1 : MultiSource.Manager) (object source uploaded : string)
        (results : list Obj) (tableData : TableData (option Supabase.Value)) :
  truthy object = true ->
  truthy source = true ->
  csv uploaded = Ok results ->
  schema_of m source object = (Ok tableData, m1) ->
  (exists col, In col (Server.csvColumns results)
               /\ ~ In col (map name (headings tableData))) ->
  exists invalidColumns,
    handler m (Server.mkRequest (Some object) (Some source) (Some uploaded))
    = (Server.mkHttpResponse 400
         (Server.ColumnMismatch
            ("Invalid columns in CSV: " +:+ join ", " invalidColumns)
            (map name (headings tableData))),
       m1)
    /\ invalidColumns <> []
    /\ forall c, In c invalidColumns
                 <-> In c (Server.csvColumns results)
                     /\ ~ In c (map name (headings tableData)).
Proof.
  intros Hobj Hsrc Hcsv Htd [col [Hcol Hbad]].
  set (valid := map name (headings tableData)) in *.
  exists (List.filter (fun c => negb (Server.includes_name valid c))
                      (Server.csvColumns results)).
  assert (Hin : In col (List.filter (fun c => negb (Server.includes_name valid c))
                                    (Server.csvColumns results)))
    by (apply invalid_columns_In; auto).
  split; [| split].
  - unfold Server.import_csv. cbn [Server.body_object Server.body_source Server.file].
    rewrite Hobj, Hsrc, Hcsv. cbn [negb].
    destruct results as [| first rest]; [destruct Hcol |].
    rewrite Htd. fold valid.
    destruct (List.filter _ _) as [| c cs] eqn:Hf; [destruct Hin | reflexivity].
  - intros Hnil. rewrite Hnil in Hin. destruct Hin.
  - intros c. apply invalid_columns_In.
Qed.

Lemma import_rows_outcomes (source object : string) (results : list Obj) :
  forall (m : MultiSource.Manager) (i successCount : nat) (errors : list Server.RowError),
    loop m source object results i successCount errors
    = ((successCount + successes (fst (run m source object results)))%nat,
       (errors ++ failures_from (i + 1) (fst (run m source object results)))%list,
       snd (run m source object results)).
Proof.
  induction results as [| result rest IH]; intros m i n errs; cbn [Server.import_rows attempts].
  - cbn. now rewrite Nat.add_0_r, app_nil_r.
  - destruct (MultiSource.insertRow _ _ _ m source object result) as [[[] | message] m1].
    + rewrite IH. destruct (run m1 source object rest) as [os m2]. cbn.
      repeat f_equal; lia.
    + rewrite IH. destruct (run m1 source object rest) as [os m2]. cbn.
      rewrite <- app_assoc. cbn. repeat f_equal; lia.
Qed.

Lemma attempts_length (source object : string) (results : list Obj) :
  forall m, length (fst (run m source object results)) = length results.
Proof.
  induction results as [| result rest IH]; intros m; cbn; [reflexivity |].
  destruct (MultiSource.insertRow _ _ _ m source object result) as [o m1].
  specialize (IH m1). destruct (run m1 source object rest) as [os m2].
  cbn in *. now rewrite IH.
Qed.

Lemma successes_failures (os : list (Outcome unit)) :
  forall n, (successes os + length (failures_from n os))%nat = length os.
Proof.
  induction os as [| [u | message] rest IH]; intros n; cbn; [reflexivity | |].
  - now rewrite IH.
  - rewrite Nat.add_succ_r. now rewrite IH.
Qed.

(** C5.  A well-formed import that passes parsing and column validation
    attempts one insert per record, in order, and is answered with
    status 200 and the summary: [imported] counts the inserts that
    succeeded, [total] the records, and [errors] lists each failed
    insert with its message and the 1-based position of its record.
    The list is left out exactly when no insert failed; a failure never
    stops the loop, so that successes and failures add up to the
    total. *)
Theorem import_reports_every_row
        (m m1 : MultiSource.Manager) (object source uploaded : string)
        (results : list Obj) (tableData : TableData (option Supabase.Value)) :
  truthy object = true ->
  truthy source = true ->
  csv uploaded = Ok results ->
  results <> [] ->
  schema_of m source object = (Ok tableData, m1) ->
  (forall col, In col (Server.csvColumns results)
               -> In col (map name (headings tableData))) ->
  let outcomes := fst (run m1 source object results) in
  handler m (Server.mkRequest (Some object) (Some source) (Some uploaded))
  = (Server.mkHttpResponse 200
       (Server.Summary true (successes outcomes) (length results)
                       (match failures_from 1 outcomes with
                        | [] => None
                        | _ :: _ => Some (failures_from 1 outcomes)
                        end)),
     snd (run m1 source object results))
  /\ length outcomes = length results
  /\ (successes outcomes + length (failures_from 1 outcomes))%nat = length results
  /\ (failures_from 1 outcomes = [] <-> successes outcomes = length results).
Proof.
  intros Hobj Hsrc Hcsv Hne Htd Hvalid outcomes.
  assert (Hlen : length outcomes = length results) by apply attempts_length.
  assert (Hsum : (successes outcomes + length (failures_from 1 outcomes))%nat
                 = length results)
    by (rewrite successes_failures; exact Hlen).
  split; [| split; [exact Hlen | split; [exact Hsum |]]].
  - unfold Server.import_csv. cbn [Server.body_object Server.body_source Server.file].
    rewrite Hobj, Hsrc, Hcsv. cbn [negb].
    destruct results as [| first rest] eqn:Hres; [congruence |].
    rewrite <- Hres in *. subst outcomes. rewrite Htd.
    assert (Hnone : List.filter
                      (fun c => negb (Server.includes_name (map name (headings tableData)) c))
                      (Server.csvColumns results) = []).
    { destruct (List.filter _ _) as [| c cs] eqn:Hf; [reflexivity |].
      assert (Hc : In c (c :: cs)) by now left.
      rewrite <- Hf in Hc. apply invalid_columns_In in Hc.
      destruct Hc as [Hc Hbad]. destruct (Hbad (Hvalid c Hc)). }
    rewrite Hnone, import_rows_outcomes. cbn [Nat.add app].
    rewrite Hres. reflexivity.
  - split; intros H.
    + rewrite H in Hsum. cbn in Hsum. lia.
    + destruct (failures_from 1 outcomes); [reflexivity | cbn in Hsum; lia].
Qed.

End ImportFacts.

(** The import of the columns [id], [Name], [Capital] into the table
    with the fields [id], [Name], [ISO2] is refused, naming [Capital];
    the registry, and with it the file of the table, is untouched. *)
Example import_of_capitals_is_refused :
  Server.import_csv TextFile.slash_join Examples.no_dates Examples.no_config
                    Examples.capitals_upload (Examples.registry Examples.countries_file)
                    (Server.mkRequest (Some "Countries") (Some "source1") (Some "upload"))
  = (Server.mkHttpResponse 400
       (Server.ColumnMismatch "Invalid columns in CSV: Capital" ["id"; "Name"; "ISO2"]),
     Examples.registry Examples.countries_file).
Proof. vm_compute. reflexivity. Qed.

Lemma import_rejects_unknown_columns_witness :
  exists invalidColumns,
    Server.import_csv TextFile.slash_join Examples.no_dates Examples.no_config
                      Examples.capitals_upload (Examples.registry Examples.countries_file)
                      (Server.mkRequest (Some "Countries") (Some "source1") (Some "upload"))
    = (Server.mkHttpResponse 400
         (Server.ColumnMismatch ("Invalid columns in CSV: " +:+ join ", " invalidColumns)
                                ["id"; "Name"; "ISO2"]),
       Examples.registry Examples.countries_file)
    /\ invalidColumns <> []
    /\ forall c, In c invalidColumns
                 <-> In c ["id"; "Name"; "Capital"] /\ ~ In c ["id"; "Name"; "ISO2"].
Proof.
  apply (import_rejects_unknown_columns
           TextFile.slash_join Examples.no_dates Examples.no_config Examples.capitals_upload
           (Examples.registry Examples.countries_file)
           (Examples.registry Examples.countries_file)
           "Countries" "source1" "upload"
           [[("id", "7"); ("Name", "Spain"); ("Capital", "Madrid")]]
           Examples.countries_table).
  - reflexivity.
  - reflexivity.
  - reflexivity.
  - vm_compute. reflexivity.
  - exists "Capital". split; [cbn; auto |].
    cbn. intros [H | [H | [H | []]]]; discriminate.
Defined.

(** C4, as stated, fails: the header [id,Name,Capital] has the column
    [Capital], which is no field of the table [Countries].  When the
    first data line is short the first record has no such key, the
    import passes the column check and the row is inserted; when the
    upload has no data line at all, the answer is the empty-file error,
    not the column mismatch. *)
Lemma import_accepts_unknown_header_column :
  let request := Server.mkRequest (Some "Countries") (Some "source1") (Some "upload") in
  let before := Examples.registry Examples.countries_file in
  let short := Server.import_csv TextFile.slash_join Examples.no_dates Examples.no_config
                                 Examples.short_row_upload before request in
  let bare := Server.import_csv TextFile.slash_join Examples.no_dates Examples.no_config
                                Examples.header_only_upload before request in
  fst short = Server.mkHttpResponse 200 (Server.Summary true 1 1 None)
  /\ MultiSource.files (snd short) !! Examples.path_of "Countries"
     = Some ("id:int,Name:str,ISO2:str" +:+ Examples.nl +:+ "1,France,FR"
             +:+ Examples.nl +:+ "2,Spain,")
  /\ bare = (Server.mkHttpResponse 400 (Server.Failure "CSV file is empty"), before).
Proof.
  repeat split; vm_compute; reflexivity.
Qed.

(** Three orders are imported into the remote table [orders], which
    refuses the second one: two rows are imported out of three, and the
    one error is reported for row 2. *)
Example import_with_one_failing_row :
  fst (Server.import_csv TextFile.slash_join Examples.no_dates Examples.no_config
                         Examples.orders_upload (Examples.registry ∅)
                         (Server.mkRequest (Some "orders") (Some "source2") (Some "upload")))
  = Server.mkHttpResponse 200
      (Server.Summary true 2 3
         (Some [Server.mkRowError
                  2 "Failed to insert row: duplicate key value violates unique constraint"])).
Proof. vm_compute. reflexivity. Qed.

Lemma import_reports_every_row_witness :
  let m := Examples.registry ∅ in
  let m1 := snd (MultiSource.getTableData TextFile.slash_join Examples.no_dates
                                          Examples.no_config m "source2" "orders") in
  let outcomes := fst (attempts TextFile.slash_join Examples.no_dates Examples.no_config
                                m1 "source2" "orders"
                                [[("customer_id", "7"); ("item", "nib")];
                                 [("customer_id", "7"); ("item", "pen")];
                                 [("customer_id", "8"); ("item", "cap")]]) in
  outcomes = [Ok tt;
              Throw "Failed to insert row: duplicate key value violates unique constraint";
              Ok tt]
  /\ fst (Server.import_csv TextFile.slash_join Examples.no_dates Examples.no_config
                            Examples.orders_upload m
                            (Server.mkRequest (Some "orders") (Some "source2") (Some "upload")))
     = Server.mkHttpResponse 200
         (Server.Summary true (successes outcomes) 3
            (match failures_from 1 outcomes with
             | [] => None
             | _ :: _ => Some (failures_from 1 outcomes)
             end)).
Proof.
  intros m m1 outcomes. split; [vm_compute; reflexivity |].
  edestruct (import_reports_every_row
               TextFile.slash_join Examples.no_dates Examples.no_config
               Examples.orders_upload m m1 "orders" "source2" "upload"
               [[("customer_id", "7"); ("item", "nib")];
                [("customer_id", "7"); ("item", "pen")];
                [("customer_id", "8"); ("item", "cap")]])
    as [Hresp _].
  - reflexivity.
  - reflexivity.
  - reflexivity.
  - discriminate.
  - vm_compute. reflexivity.
  - cbn. intros col [H | [H | []]]; subst col; vm_compute; auto.
  - rewrite Hresp. reflexivity.
Defined.

(** * Properties of the remote-relational provider *)

Section SupabaseFacts.

Variable Date_parse_ok : string -> bool.
Variable configured_tables : Outcome (list string).

(** A column with a discovered foreign key is a lookup in the
    referenced table, whatever the manual configuration says. *)
Lemma column_field_foreign_key
      (p : Supabase.Provider) (foreignKeys : gmap string Supabase.ForeignKey)
      (tableName columnName : string) (value : Supabase.Value) (fk : Supabase.ForeignKey) :
  foreignKeys !! columnName = Some fk ->
  Supabase.column_field Date_parse_ok p foreignKeys tableName columnName value
  = mkField columnName lu (Some (Supabase.referencedTable fk))
            (Some (columnName =? "id")%string).
Proof.
  intros Hfk. unfold Supabase.column_field. now rewrite Hfk.
Qed.

(** The manual configuration decides only for a column without a
    discovered foreign key. *)
Lemma column_field_manual
      (p : Supabase.Provider) (foreignKeys : gmap string Supabase.ForeignKey)
      (tableName columnName target : string) (value : Supabase.Value) :
  foreignKeys !! columnName = None ->
  manual_lookup (Supabase.lookupConfig p) tableName columnName = Some target ->
  Supabase.column_field Date_parse_ok p foreignKeys tableName columnName value
  = mkField columnName lu (Some target) (Some (columnName =? "id")%string).
Proof.
  intros Hfk Hmanual. unfold Supabase.column_field. now rewrite Hfk, Hmanual.
Qed.

(** The [updates] object of the remote [updateRow] has a key only for a
    field that is not readonly and not named [id]. *)
Lemma update_payload_keys (fields : list FieldDef) (rowData : gmap string Supabase.Value)
      (k : string) (v : option Supabase.Value) :
  Supabase.update_payload fields rowData !! k = Some v ->
  k <> "id" /\ exists f, In f fields /\ name f = k /\ is_readonly f = false.
Proof.
  unfold Supabase.update_payload.
  assert (Hgen : forall (acc : gmap string (option Supabase.Value)),
             fold_left
               (fun updates field =>
                  if negb (is_readonly field) && negb (name field =? "id")%string
                  then <[name field := rowData !! name field]> updates
                  else updates) fields acc !! k = Some v ->
             acc !! k = Some v
             \/ (k <> "id" /\ exists f, In f fields /\ name f = k /\ is_readonly f = false)).
  { induction fields as [| f rest IH]; intros acc Hk; cbn in Hk; [now left |].
    apply IH in Hk. destruct Hk as [Hk | [Hne [g [Hg [Hn Hr]]]]].
    - destruct (is_readonly f) eqn:Hro; cbn in Hk; [now left |].
      destruct (name f =? "id")%string eqn:Hid; cbn in Hk; [now left |].
      destruct (decide (name f = k)) as [Heq | Hneq].
      + right. split.
        * intros ->. apply String.eqb_neq in Hid. congruence.
        * exists f. cbn. auto.
      + left. now rewrite lookup_insert_ne in Hk.
    - right. split; [assumption |]. exists g. cbn. auto. }
  intros Hk. apply Hgen in Hk. destruct Hk as [Hk | Hk]; [| assumption].
  now rewrite lookup_empty in Hk.
Qed.

(** The remote [updateRow] never sends a value for [id]. *)
Corollary update_payload_has_no_id (fields : list FieldDef)
          (rowData : gmap string Supabase.Value) :
  Supabase.update_payload fields rowData !! "id" = None.
Proof.
  destruct (Supabase.update_payload fields rowData !! "id") as [v |] eqn:Hk;
    [| reflexivity].
  apply update_payload_keys in Hk. now destruct Hk as [Hne _].
Qed.

(** The rows of the remote [getTableData] are the records the service
    returned for the query ordered by id, in that order, each projected
    on the fields of the table. *)
Lemma remote_getTableData_rows
      (c : Supabase.Client) (p p' : Supabase.Provider) (tableName : string)
      (t : TableData (option Supabase.Value)) :
  Supabase.getTableData Date_parse_ok configured_tables c p tableName = (Ok t, p') ->
  exists records,
    Supabase.select_order_by_id c tableName = Ok (Supabase.mkResponse (Some records) None)
    /\ Schema.rows t = map (Supabase.project (headings t)) records.
Proof.
  unfold Supabase.getTableData.
  destruct (Supabase.getTableMetadata _ _ c p tableName) as [[[metadata |] | m] p1];
    try discriminate.
  destruct (Supabase.select_order_by_id c tableName) as [[d [e |]] | m]; try discriminate.
  destruct d as [records |]; try discriminate.
  intros H. injection H as Ht Hp. subst t. cbn. eauto.
Qed.


End SupabaseFacts.

(** C3.  Schema discovery for the table [orders], whose column
    [customer_id] has both a discovered foreign key (to [customers]) and
    a manual lookup mapping (to [clients]): the column is classified as a
    lookup in [customers].  The foreign key is tested first and the
    manual mapping only in its [else] branch, so the manual configuration
    does not take precedence. *)
Theorem foreign_key_shadows_manual_lookup :
  manual_lookup (Supabase.lookupConfig Examples.orders_provider) "orders" "customer_id"
  = Some "clients"
  /\ fst (Supabase.discoverForeignKeys Examples.orders_client Examples.orders_provider "orders")
     !! "customer_id"
     = Some (Supabase.mkForeignKey "customers" "id")
  /\ fst (Supabase.discoverTableSchema Examples.no_dates Examples.orders_client
                                       Examples.orders_provider "orders")
     = [mkField "id" integer None (Some true);
        mkField "customer_id" lu (Some "customers") (Some false);
        mkField "item" text None (Some false)].
Proof.
  repeat split; vm_compute; reflexivity.
Qed.

(** * Reading, inserting and deleting in the file-backed provider *)

Section TextFileRows.

Variable path_join : string -> string -> string.

Local Abbreviation readFile := (TextFile.readFile path_join).
Local Abbreviation path := (TextFile.getFilePath path_join).

Lemma parseCSVLine_loop_nonempty (line : string) :
  forall result current inQuotes,
    TextFile.parseCSVLine_loop line result current inQuotes <> [].
Proof.
  induction line as [| c rest IH]; intros result current inQuotes; cbn.
  - intros H. now apply app_eq_nil in H as [_ H].
  - destruct (Ascii.eqb c dquote); [apply IH |].
    destruct (Ascii.eqb c comma && negb inQuotes); apply IH.
Qed.

Lemma row_of_line_nonempty (line : string) (row : TextFile.Row) :
  row_of_line line row -> row <> [].
Proof.
  unfold row_of_line. destruct (TextFile.lacks_id _).
  - intros [n ->]. discriminate.
  - intros ->. apply parseCSVLine_loop_nonempty.
Qed.

(** The loop of [readFile] appends one row per line, in order, and
    raises [needsUpdate] exactly when a line lacks an id. *)
Lemma read_rows_spec (lines : list string) :
  forall rows needsUpdate nextId,
  exists new nextId',
    TextFile.read_rows lines rows needsUpdate nextId
    = ((rows ++ new)%list,
       needsUpdate || existsb (fun l => TextFile.lacks_id (TextFile.parseCSVLine l)) lines,
       nextId')
    /\ Forall2 row_of_line lines new.
Proof.
  induction lines as [| line rest IH]; intros rows nu n; cbn [TextFile.read_rows existsb].
  - exists [], n. rewrite app_nil_r, orb_false_r. split; [reflexivity | constructor].
  - destruct (TextFile.lacks_id (TextFile.parseCSVLine line)) eqn:Hlacks.
    + destruct (IH (rows ++ [String_of_Z n :: TextFile.parseCSVLine line])%list true (n + 1))
        as [new [n' [Heq Hall]]].
      exists ((String_of_Z n :: TextFile.parseCSVLine line) :: new), n'.
      rewrite Heq, <- app_assoc. cbn. rewrite orb_true_r. split; [reflexivity |].
      constructor; [| assumption]. unfold row_of_line. rewrite Hlacks. now exists n.
    + match goal with
      | |- context [TextFile.read_rows rest ?r ?u ?k] =>
          destruct (IH r u k) as [new [n' [Heq Hall]]]
      end.
      exists (TextFile.parseCSVLine line :: new), n'.
      rewrite Heq, <- app_assoc. cbn. split; [reflexivity |].
      constructor; [| assumption]. unfold row_of_line. now rewrite Hlacks.
Qed.

(** What [readFile] resolves to, and what it leaves on disk. *)
Lemma readFile_spec (p : TextFile.Provider) (fs : gmap string string) (t : string) :
  let fd := fst (readFile p fs t) in
  Forall2 row_of_line (stored_lines fs (path p t)) (TextFile.rows fd)
  /\ snd (readFile p fs t)
     = (if existsb (fun l => TextFile.lacks_id (TextFile.parseCSVLine l))
                   (stored_lines fs (path p t))
        then <[path p t := TextFile.file_content (TextFile.rows fd) (TextFile.headers fd)]> fs
        else fs).
Proof.
  unfold TextFile.readFile, stored_lines, data_lines, file_lines.
  destruct (fs !! path p t) as [content |]; cbn; [| split; [constructor | reflexivity]].
  destruct (List.filter _ (split newline content)) as [| line0 lines'];
    cbn; [split; [constructor | reflexivity] |].
  destruct (existsb (includes colon) (TextFile.parseCSVLine line0)).
  - destruct (read_rows_spec lines' [] false 1) as [new [n' [Heq Hall]]].
    rewrite Heq. cbn. split; [assumption |].
    destruct (existsb _ lines'); reflexivity.
  - destruct (read_rows_spec (line0 :: lines') [] false 1) as [new [n' [Heq Hall]]].
    rewrite Heq. cbn [fst snd TextFile.rows TextFile.headers app orb].
    split; [assumption |].
    destruct (existsb _ (line0 :: lines')); reflexivity.
Qed.

Lemma readFile_rows_nonempty (p : TextFile.Provider) (fs : gmap string string) (t : string) :
  Forall (fun row => row <> []) (TextFile.rows (fst (readFile p fs t))).
Proof.
  destruct (readFile_spec p fs t) as [Hall _].
  induction Hall as [| line row lines rows Hrow _ IH]; constructor; [| assumption].
  now apply row_of_line_nonempty in Hrow.
Qed.


End TextFileRows.



(** * Writing a table and reading it back *)

Section StringFacts.

Lemma append_cons (c : ascii) (r s : string) : String c r +:+ s = String c (r +:+ s).
Proof. reflexivity. Qed.

Lemma append_nil_l (s : string) : "" +:+ s = s.
Proof. reflexivity. Qed.

Lemma append_nil_r (s : string) : s +:+ "" = s.
Proof.
  induction s as [| c r IH]; [reflexivity |].
  now rewrite append_cons, IH.
Qed.

Lemma append_assoc (a b c : string) : (a +:+ b) +:+ c = a +:+ (b +:+ c).
Proof.
  induction a as [| x r IH]; [reflexivity |].
  now rewrite !append_cons, IH.
Qed.

Lemma includes_append (c : ascii) (a b : string) :
  includes c (a +:+ b) = includes c a || includes c b.
Proof.
  induction a as [| x r IH]; [reflexivity |].
  rewrite append_cons. cbn [includes]. now rewrite IH, orb_assoc.
Qed.

Lemma split_without_sep (sep : ascii) (s : string) :
  includes sep s = false -> split sep s = [s].
Proof.
  induction s as [| c r IH]; cbn; [reflexivity |].
  intros H. apply orb_false_iff in H as [Hc Hr].
  now rewrite Hc, (IH Hr).
Qed.

Lemma split_append_sep (sep : ascii) (s rest : string) :
  includes sep s = false ->
  split sep (s +:+ String sep rest) = s :: split sep rest.
Proof.
  induction s as [| c r IH].
  - intros _. rewrite append_nil_l. cbn [split]. now rewrite Ascii.eqb_refl.
  - cbn [includes]. intros H. apply orb_false_iff in H as [Hc Hr].
    rewrite append_cons. cbn [split]. now rewrite Hc, (IH Hr).
Qed.

Lemma split_pieces_without_sep (sep : ascii) (s : string) :
  Forall (fun piece => includes sep piece = false) (split sep s).
Proof.
  induction s as [| c r IH]; cbn; [repeat constructor |].
  destruct (Ascii.eqb c sep) eqn:Hc; [constructor; [reflexivity | assumption] |].
  destruct (split sep r) as [| h t]; [repeat constructor; cbn; now rewrite Hc |].
  inversion IH as [| ? ? Hh Ht]; subst. constructor; [| assumption].
  cbn. now rewrite Hc.
Qed.

(** Joining lines that hold no line break and splitting again gives the
    lines back. *)
Lemma split_join (sep : ascii) (ls : list string) :
  ls <> [] ->
  Forall (fun l => includes sep l = false) ls ->
  split sep (join (String sep EmptyString) ls) = ls.
Proof.
  intros Hne Hall. induction Hall as [| l rest Hl Hrest IH]; [contradiction |].
  unfold join in *. destruct rest as [| l' rest'].
  - cbn. now apply split_without_sep.
  - cbn [String.concat]. rewrite append_cons, append_nil_l.
    rewrite (split_append_sep _ _ _ Hl). f_equal. now apply IH.
Qed.

Lemma trimEnd_empty_iff (s : string) : trimEnd s = "" <-> has_ink s = false.
Proof.
  induction s as [| c r IH]; cbn; [tauto |].
  destruct (trimEnd r) eqn:Hr.
  - destruct (is_ws c); cbn; [tauto |]. split; discriminate.
  - split; [discriminate |]. intros H. apply orb_false_iff in H as [_ H].
    apply IH in H. discriminate.
Qed.

Lemma has_ink_trimStart (s : string) : has_ink (trimStart s) = has_ink s.
Proof.
  induction s as [| c r IH]; cbn; [reflexivity |].
  destruct (is_ws c) eqn:Hc; cbn; [assumption | now rewrite Hc].
Qed.

(** A line is kept by [readFile] exactly when it has ink. *)
Lemma truthy_trim (s : string) : truthy (trim s) = has_ink s.
Proof.
  unfold trim. rewrite <- has_ink_trimStart.
  destruct (trimEnd (trimStart s)) eqn:Ht; cbn.
  - symmetry. now apply trimEnd_empty_iff.
  - destruct (has_ink (trimStart s)) eqn:Hi; [reflexivity |].
    apply trimEnd_empty_iff in Hi. congruence.
Qed.

Lemma has_ink_append_l (a b : string) : has_ink a = true -> has_ink (a +:+ b) = true.
Proof.
  induction a as [| c r IH]; [discriminate |].
  rewrite append_cons. cbn [has_ink].
  intros H. apply orb_true_iff in H as [H | H]; [now rewrite H |].
  rewrite (IH H). apply orb_true_r.
Qed.

Lemma trimEnd_idem (s : string) : trimEnd (trimEnd s) = trimEnd s.
Proof.
  induction s as [| c r IH]; cbn; [reflexivity |].
  destruct (trimEnd r) as [| c' r'] eqn:Hr.
  - destruct (is_ws c) eqn:Hc; cbn; [reflexivity | now rewrite Hc].
  - cbn [trimEnd]. cbn [trimEnd] in IH. now rewrite IH.
Qed.

Lemma trimStart_inked_head (c : ascii) (r : string) :
  is_ws c = false -> trimStart (String c r) = String c r.
Proof. intros H. cbn. now rewrite H. Qed.

Lemma trimStart_head (s : string) :
  match trimStart s with String c _ => is_ws c = false | EmptyString => True end.
Proof.
  induction s as [| c r IH]; cbn; [exact I |].
  destruct (is_ws c) eqn:Hc; [assumption | assumption].
Qed.

Lemma trimEnd_head (c : ascii) (r : string) :
  is_ws c = false -> exists r', trimEnd (String c r) = String c r'.
Proof.
  intros Hc. cbn. destruct (trimEnd r); rewrite ?Hc; eauto.
Qed.

Lemma trim_idem (s : string) : trim (trim s) = trim s.
Proof.
  unfold trim. pose proof (trimStart_head s) as Hhead.
  destruct (trimStart s) as [| c r]; [reflexivity |].
  destruct (trimEnd_head c r Hhead) as [r' Hr'].
  rewrite Hr', (trimStart_inked_head _ _ Hhead), <- Hr'. apply trimEnd_idem.
Qed.

Lemma includes_trimStart (c : ascii) (s : string) :
  includes c s = false -> includes c (trimStart s) = false.
Proof.
  induction s as [| x r IH]; cbn; [reflexivity |].
  intros H. apply orb_false_iff in H as [Hx Hr].
  destruct (is_ws x); [now apply IH | cbn; now rewrite Hx, Hr].
Qed.

Lemma includes_trimEnd (c : ascii) (s : string) :
  includes c s = false -> includes c (trimEnd s) = false.
Proof.
  induction s as [| x r IH]; cbn; [reflexivity |].
  intros H. apply orb_false_iff in H as [Hx Hr]. specialize (IH Hr).
  destruct (trimEnd r) as [| y r'].
  - destruct (is_ws x); cbn; [reflexivity | now rewrite Hx].
  - cbn in *. now rewrite Hx, IH.
Qed.

Lemma includes_trim (c : ascii) (s : string) :
  includes c s = false -> includes c (trim s) = false.
Proof. intros H. unfold trim. now apply includes_trimEnd, includes_trimStart. Qed.

End StringFacts.

Section LineFacts.

Local Abbreviation scan := TextFile.parseCSVLine_loop.

Lemma char_is_dquote (c : ascii) (s : string) :
  includes dquote (String c s) = false -> Ascii.eqb c dquote = false.
Proof. cbn. intros H. now apply orb_false_iff in H as [H _]. Qed.

(** Outside quotes, the scan takes a piece without comma and quote into
    the current field. *)
Lemma scan_plain (piece : string) :
  forall rest result current,
    includes comma piece = false ->
    includes dquote piece = false ->
    scan (piece +:+ rest) result current false
    = scan rest result (current +:+ piece) false.
Proof.
  induction piece as [| c r IH]; intros rest result current Hcomma Hquote.
  - now rewrite append_nil_l, append_nil_r.
  - cbn [includes] in *.
    apply orb_false_iff in Hcomma as [Hc1 Hc2].
    apply orb_false_iff in Hquote as [Hq1 Hq2].
    rewrite append_cons. cbn [TextFile.parseCSVLine_loop].
    rewrite Hq1, Hc1. cbn [andb].
    rewrite IH by assumption. now rewrite append_assoc.
Qed.

(** Inside quotes, the scan takes a piece without quote into the current
    field, commas included. *)
Lemma scan_quoted (piece : string) :
  forall rest result current,
    includes dquote piece = false ->
    scan (piece +:+ rest) result current true
    = scan rest result (current +:+ piece) true.
Proof.
  induction piece as [| c r IH]; intros rest result current Hquote.
  - now rewrite append_nil_l, append_nil_r.
  - cbn [includes] in *.
    apply orb_false_iff in Hquote as [Hq1 Hq2].
    rewrite append_cons. cbn [TextFile.parseCSVLine_loop].
    rewrite Hq1. cbn [negb andb]. rewrite andb_false_r.
    rewrite IH by assumption. now rewrite append_assoc.
Qed.

Lemma double_quotes_without_quote (s : string) :
  includes dquote s = false -> double_quotes s = s.
Proof.
  induction s as [| c r IH]; [reflexivity |].
  cbn [includes double_quotes]. intros H. apply orb_false_iff in H as [Hc Hr].
  now rewrite Hc, (IH Hr).
Qed.

Lemma scan_quoted_cell (cell rest : string) (result : list string) :
  includes dquote cell = false ->
  scan ((String dquote (double_quotes cell) +:+ String dquote "") +:+ rest) result "" false
  = scan rest result cell false.
Proof.
  intros Hquote. rewrite (double_quotes_without_quote _ Hquote).
  rewrite append_assoc, (append_cons dquote cell).
  cbn [TextFile.parseCSVLine_loop]. rewrite Ascii.eqb_refl. cbn [negb].
  rewrite (scan_quoted cell) by assumption.
  rewrite (append_cons dquote ""), !append_nil_l. cbn [TextFile.parseCSVLine_loop].
  now rewrite Ascii.eqb_refl.
Qed.

(** The scan reads a printed cell back as the cell, when the cell holds
    no quote. *)
Lemma scan_csv_cell (cell rest : string) (result : list string) :
  includes dquote cell = false ->
  scan (TextFile.csv_cell cell +:+ rest) result "" false
  = scan rest result cell false.
Proof.
  intros Hquote. unfold TextFile.csv_cell. rewrite Hquote.
  destruct (includes comma cell) eqn:Hcomma; cbn [orb].
  - now apply scan_quoted_cell.
  - destruct (includes newline cell) eqn:Hnl.
    + now apply scan_quoted_cell.
    + now rewrite (scan_plain cell) by assumption.
Qed.

(** [parseCSVLine] reads the printed line of a row of clean cells back
    as the row. *)
Lemma scan_csv_line (row : TextFile.Row) :
  row <> [] ->
  Forall clean row ->
  forall result, scan (csv_line row) result "" false = (result ++ row)%list.
Proof.
  intros Hne Hall. induction Hall as [| cell rest [Htrim [Hquote _]] Hrest IH];
    [contradiction |].
  intros result. unfold csv_line, join in *. destruct rest as [| cell' rest'].
  - cbn [map String.concat].
    rewrite <- (append_nil_r (TextFile.csv_cell cell)), scan_csv_cell by assumption.
    cbn [TextFile.parseCSVLine_loop]. now rewrite Htrim.
  - cbn [map String.concat]. rewrite scan_csv_cell by assumption.
    rewrite append_cons, append_nil_l. cbn [TextFile.parseCSVLine_loop].
    replace (Ascii.eqb "," dquote) with false by reflexivity.
    replace (Ascii.eqb "," comma) with true by reflexivity. cbn [andb negb].
    rewrite Htrim. cbn [map String.concat] in IH. rewrite IH by discriminate.
    now rewrite <- app_assoc.
Qed.

Lemma parseCSVLine_csv_line (row : TextFile.Row) :
  row <> [] -> Forall clean row -> TextFile.parseCSVLine (csv_line row) = row.
Proof.
  intros Hne Hall. unfold TextFile.parseCSVLine. now rewrite scan_csv_line.
Qed.

(** The cells the scan produces are clean, when the line holds no line
    break. *)
Lemma scan_clean (line : string) :
  forall result current inQuotes,
    includes newline line = false ->
    Forall clean result ->
    includes dquote current = false ->
    includes newline current = false ->
    Forall clean (scan line result current inQuotes).
Proof.
  assert (Hpush : forall result current,
             Forall clean result ->
             includes dquote current = false ->
             includes newline current = false ->
             Forall clean (result ++ [trim current])).
  { intros result current Hres Hq Hn. apply Forall_app. split; [assumption |].
    constructor; [| constructor].
    repeat split; [apply trim_idem | now apply includes_trim | now apply includes_trim]. }
  induction line as [| c r IH]; intros result current inQuotes Hline Hres Hq Hn;
    cbn [TextFile.parseCSVLine_loop].
  - now apply Hpush.
  - cbn [includes] in Hline. apply orb_false_iff in Hline as [Hc Hr].
    destruct (Ascii.eqb c dquote) eqn:Hcq; [now apply IH |].
    destruct (Ascii.eqb c comma && negb inQuotes).
    + apply IH; auto.
    + apply IH; auto.
      * rewrite includes_append. cbn. now rewrite Hq, Hcq.
      * rewrite includes_append. cbn. now rewrite Hn, Hc.
Qed.

Lemma parseCSVLine_clean (line : string) :
  includes newline line = false -> Forall clean (TextFile.parseCSVLine line).
Proof.
  intros H. unfold TextFile.parseCSVLine. apply scan_clean; auto.
Qed.

End LineFacts.

Section IdFacts.

Lemma string_of_uint_digits (d : Decimal.uint) :
  digits_only (NilEmpty.string_of_uint d) = true.
Proof. induction d; cbn; auto. Qed.

Lemma string_of_uint_nonempty (d : Decimal.uint) :
  d <> Decimal.Nil -> NilEmpty.string_of_uint d <> "".
Proof. destruct d; cbn; congruence. Qed.

(** The decimal print of a number that is not negative is a non-empty
    string of digits. *)
Lemma String_of_Z_digits (n : Z) :
  0 <= n -> digits_only (String_of_Z n) = true /\ String_of_Z n <> "".
Proof.
  intros Hn. unfold String_of_Z. destruct n as [| p | p]; [| | lia].
  - cbn. split; [reflexivity | discriminate].
  - cbn [Z.to_int NilZero.string_of_int].
    pose proof (Unsigned.to_uint_nonnil p) as Hnil.
    replace (NilZero.string_of_uint (Pos.to_uint p))
      with (NilEmpty.string_of_uint (Pos.to_uint p))
      by (destruct (Pos.to_uint p); [contradiction | reflexivity ..]).
    split; [apply string_of_uint_digits | now apply string_of_uint_nonempty].
Qed.

Lemma is_digit_not_ws (c : ascii) : Supabase.is_digit c = true -> is_ws c = false.
Proof. destruct c as [[] [] [] [] [] [] [] []]; vm_compute; congruence. Qed.

Lemma digits_exclude (x : ascii) (s : string) :
  Supabase.is_digit x = false -> digits_only s = true -> includes x s = false.
Proof.
  intros Hx. induction s as [| c r IH]; cbn; [reflexivity |].
  intros H. apply andb_true_iff in H as [Hc Hr]. rewrite (IH Hr), orb_false_r.
  destruct (Ascii.eqb_spec c x) as [-> | Hne]; [congruence | reflexivity].
Qed.

Lemma digits_trimEnd (s : string) : digits_only s = true -> trimEnd s = s.
Proof.
  induction s as [| c r IH]; cbn; [reflexivity |].
  intros H. apply andb_true_iff in H as [Hc Hr]. rewrite (IH Hr).
  destruct r; [now rewrite (is_digit_not_ws _ Hc) | reflexivity].
Qed.

Lemma digits_trimStart (s : string) : digits_only s = true -> trimStart s = s.
Proof.
  destruct s as [| c r]; cbn; [reflexivity |].
  intros H. apply andb_true_iff in H as [Hc _]. now rewrite (is_digit_not_ws _ Hc).
Qed.

Lemma digits_clean (s : string) : digits_only s = true -> clean s.
Proof.
  intros H. repeat split.
  - unfold trim. now rewrite (digits_trimStart _ H), (digits_trimEnd _ H).
  - now apply digits_exclude.
  - now apply digits_exclude.
Qed.

Lemma parse_digits_seen (radix : Z) (s : string) :
  forall acc, exists v, parse_digits radix s acc true = Some v.
Proof.
  induction s as [| c r IH]; intros acc; cbn; [eauto |].
  destruct (digit_val radix c); eauto.
Qed.

Lemma strip_sign_digit (c : ascii) (r : string) :
  Supabase.is_digit c = true -> strip_sign (String c r) = (1, String c r).
Proof.
  destruct c as [[] [] [] [] [] [] [] []]; intros H; vm_compute in H;
    try discriminate H; reflexivity.
Qed.

Lemma strip_radix_digits (s : string) :
  digits_only s = true -> strip_radix s = (10, s).
Proof.
  destruct s as [| c1 [| c2 r]]; [reflexivity | |].
  - destruct c1 as [[] [] [] [] [] [] [] []]; reflexivity.
  - cbn [digits_only]. intros H.
    apply andb_true_iff in H as [_ H]. apply andb_true_iff in H as [H _].
    destruct c2 as [[] [] [] [] [] [] [] []]; vm_compute in H; try discriminate H;
      destruct c1 as [[] [] [] [] [] [] [] []]; reflexivity.
Qed.

Lemma digit_val_digit (c : ascii) :
  Supabase.is_digit c = true -> exists d, digit_val 10 c = Some d.
Proof.
  destruct c as [[] [] [] [] [] [] [] []]; intros H; vm_compute in H;
    try discriminate H; vm_compute; eauto.
Qed.

(** [parseInt] of a non-empty string of digits is a number. *)
Lemma parseInt_digits (s : string) :
  digits_only s = true -> s <> "" -> exists n, parseInt s = Some n.
Proof.
  intros Hd Hne. unfold parseInt. rewrite (digits_trimStart _ Hd).
  destruct s as [| c r]; [contradiction |].
  pose proof Hd as Hd'. cbn [digits_only] in Hd'. apply andb_true_iff in Hd' as [Hc Hr].
  rewrite (strip_sign_digit _ _ Hc), (strip_radix_digits _ Hd).
  cbn [parse_digits]. destruct (digit_val_digit _ Hc) as [d ->].
  destruct (parse_digits_seen 10 r (0 * 10 + d)) as [v ->]. eauto.
Qed.

(** A row that starts with the print of an id has an id. *)
Lemma lacks_id_assigned (n : Z) (fields : list string) :
  0 <= n -> TextFile.lacks_id (String_of_Z n :: fields) = false.
Proof.
  intros Hn. destruct (String_of_Z_digits n Hn) as [Hd Hne].
  unfold TextFile.lacks_id. cbn [lookup list_lookup].
  destruct (parseInt_digits _ Hd Hne) as [v ->].
  destruct (digits_clean _ Hd) as [-> _].
  destruct (String_of_Z n) eqn:Hs; [contradiction | reflexivity].
Qed.

End IdFacts.

Section RereadFacts.

Variable path_join : string -> string -> string.

Local Abbreviation readFile := (TextFile.readFile path_join).
Local Abbreviation path := (TextFile.getFilePath path_join).

Lemma healed_nonempty (row : TextFile.Row) : healed row -> row <> [].
Proof. intros [_ H] ->. discriminate H. Qed.

Lemma read_rows_healed (lines : list string) :
  forall rows needsUpdate nextId,
    0 <= nextId ->
    Forall (fun l => includes newline l = false) lines ->
    Forall healed rows ->
    Forall healed (TextFile.read_rows lines rows needsUpdate nextId).1.1.
Proof.
  induction lines as [| line rest IH]; intros rows nu n Hn Hlines Hrows;
    cbn [TextFile.read_rows]; [assumption |].
  inversion Hlines as [| ? ? Hline Hrest]; subst.
  pose proof (parseCSVLine_clean line Hline) as Hclean.
  destruct (TextFile.lacks_id (TextFile.parseCSVLine line)) eqn:Hlacks.
  - apply IH; [lia | assumption |]. apply Forall_app. split; [assumption |].
    constructor; [| constructor]. split.
    + constructor; [| assumption].
      apply digits_clean. now apply String_of_Z_digits.
    + now apply lacks_id_assigned.
  - apply IH; [| assumption |].
    + match goal with
      | |- 0 <= (if ?v >=? n then _ else _) => destruct (Z.geb_spec v n); lia
      end.
    + apply Forall_app. split; [assumption |]. constructor; [| constructor].
      now split.
Qed.

Lemma csv_cell_clean_newline (cell : string) :
  clean cell -> includes newline (TextFile.csv_cell cell) = false.
Proof.
  intros [_ [Hq Hn]]. unfold TextFile.csv_cell. rewrite Hq, Hn.
  destruct (includes comma cell); cbn [orb]; [| assumption].
  rewrite (double_quotes_without_quote _ Hq), append_cons. cbn [includes].
  rewrite includes_append, Hn. reflexivity.
Qed.

Lemma csv_line_newline (row : TextFile.Row) :
  Forall clean row -> includes newline (csv_line row) = false.
Proof.
  unfold csv_line, join. induction 1 as [| cell rest Hcell Hrest IH]; [reflexivity |].
  destruct rest as [| cell' rest']; cbn [map String.concat].
  - now apply csv_cell_clean_newline.
  - rewrite !includes_append, (csv_cell_clean_newline _ Hcell).
    cbn [map String.concat] in IH. now rewrite IH.
Qed.

Lemma csv_cell_ink (cell : string) : has_ink cell = true -> has_ink (TextFile.csv_cell cell) = true.
Proof.
  intros H. unfold TextFile.csv_cell. now destruct (_ || _).
Qed.

Lemma csv_line_ink (row : TextFile.Row) :
  TextFile.lacks_id row = false -> has_ink (csv_line row) = true.
Proof.
  destruct row as [| f0 rest]; [discriminate |].
  unfold TextFile.lacks_id. cbn [lookup list_lookup]. intros H.
  apply orb_false_iff in H as [H _]. apply orb_false_iff in H as [_ H].
  assert (Hink : has_ink f0 = true).
  { rewrite <- truthy_trim. destruct (trim f0); [discriminate | reflexivity]. }
  unfold csv_line, join. destruct rest as [| f1 rest']; cbn [map String.concat].
  - now apply csv_cell_ink.
  - now apply has_ink_append_l, csv_cell_ink.
Qed.

(** Reading the printed lines of healed rows gives the rows back and
    assigns no id. *)
Lemma read_rows_printed (rows : list TextFile.Row) :
  Forall healed rows ->
  forall acc needsUpdate nextId,
  exists nextId',
    TextFile.read_rows (map csv_line rows) acc needsUpdate nextId
    = ((acc ++ rows)%list, needsUpdate, nextId').
Proof.
  induction 1 as [| row rest [Hclean Hid] Hrest IH]; intros acc nu n; cbn [map TextFile.read_rows].
  - exists n. now rewrite app_nil_r.
  - rewrite parseCSVLine_csv_line by (try assumption; now intros ->).
    rewrite Hid.
    match goal with
    | |- context [TextFile.read_rows _ ?a ?u ?k] => destruct (IH a u k) as [n' ->]
    end.
    exists n'. now rewrite <- app_assoc.
Qed.

Lemma includes_ink (c : ascii) (s : string) :
  is_ws c = false -> includes c s = true -> has_ink s = true.
Proof.
  intros Hc. induction s as [| x r IH]; cbn; [discriminate |].
  intros H. apply orb_true_iff in H as [H | H].
  - apply Ascii.eqb_eq in H. subst x. now rewrite Hc.
  - rewrite (IH H). apply orb_true_r.
Qed.

Lemma includes_trimStart_ink (c : ascii) (s : string) :
  is_ws c = false -> includes c (trimStart s) = includes c s.
Proof.
  intros Hc. induction s as [| x r IH]; cbn; [reflexivity |].
  destruct (is_ws x) eqn:Hx; [| reflexivity].
  rewrite IH. destruct (Ascii.eqb_spec x c) as [-> | _]; [congruence | reflexivity].
Qed.

Lemma includes_trimEnd_ink (c : ascii) (s : string) :
  is_ws c = false -> includes c (trimEnd s) = includes c s.
Proof.
  intros Hc. induction s as [| x r IH]; cbn; [reflexivity |].
  rewrite <- IH. destruct (trimEnd r) as [| y r']; [| reflexivity].
  destruct (is_ws x) eqn:Hx; cbn; [| reflexivity].
  destruct (Ascii.eqb_spec x c) as [-> | _]; [congruence | reflexivity].
Qed.

Lemma includes_trim_ink (c : ascii) (s : string) :
  is_ws c = false -> includes c (trim s) = includes c s.
Proof.
  intros Hc. unfold trim. now rewrite includes_trimEnd_ink, includes_trimStart_ink.
Qed.

(** A colon on the line ends up in one of its fields. *)
Lemma scan_keeps_colon (line : string) :
  forall result current inQuotes,
    includes colon line || includes colon current || existsb (includes colon) result = true ->
    existsb (includes colon) (TextFile.parseCSVLine_loop line result current inQuotes) = true.
Proof.
  assert (Hws : is_ws colon = false) by reflexivity.
  induction line as [| c r IH]; intros result current q H; cbn [TextFile.parseCSVLine_loop].
  - rewrite existsb_app. cbn [existsb]. rewrite (includes_trim_ink _ _ Hws).
    cbn [includes] in H. rewrite orb_false_l in H.
    rewrite orb_false_r, orb_comm. exact H.
  - cbn [includes] in H.
    destruct (Ascii.eqb c dquote) eqn:Hq.
    + apply IH. apply Ascii.eqb_eq in Hq. subst c.
      replace (Ascii.eqb dquote colon) with false in H by reflexivity. exact H.
    + destruct (Ascii.eqb c comma && negb q) eqn:Hcm.
      * apply IH. apply andb_true_iff in Hcm as [Hcm _].
        apply Ascii.eqb_eq in Hcm. subst c.
        replace (Ascii.eqb comma colon) with false in H by reflexivity.
        rewrite existsb_app. cbn [existsb includes].
        rewrite (includes_trim_ink _ _ Hws).
        destruct (includes colon r), (includes colon current),
          (existsb (includes colon) result); cbn in *; congruence.
      * apply IH. rewrite includes_append. cbn [includes].
        destruct (Ascii.eqb c colon), (includes colon r), (includes colon current),
          (existsb (includes colon) result); cbn in *; congruence.
Qed.

Lemma header_cell_colon (h : FieldDef) : includes colon (TextFile.header_cell h) = true.
Proof.
  unfold TextFile.header_cell.
  destruct (type h), (luFile h) as [f |]; try destruct (truthy f);
    rewrite !includes_append; cbn; apply orb_true_r.
Qed.

Lemma header_line_colon (hs : list FieldDef) :
  hs <> [] -> includes colon (header_line hs) = true.
Proof.
  destruct hs as [| h [| h' rest]]; [contradiction | |]; intros _;
    unfold header_line, join; cbn [map String.concat].
  - apply header_cell_colon.
  - rewrite includes_append, header_cell_colon. reflexivity.
Qed.

Lemma filter_keeps_inked (ls : list string) :
  Forall (fun l => has_ink l = true) ls ->
  List.filter (fun line => truthy (trim line)) ls = ls.
Proof.
  induction 1 as [| l rest Hl _ IH]; cbn; [reflexivity |].
  now rewrite truthy_trim, Hl, IH.
Qed.

(** The non-blank lines of a file that [writeFile] printed from healed
    rows are the printed lines. *)
Lemma file_lines_printed (rows : list TextFile.Row) (headers : option (list FieldDef)) :
  Forall healed rows ->
  (forall hs, headers = Some hs -> hs <> [] /\ includes newline (header_line hs) = false) ->
  file_lines (TextFile.file_content rows headers) = printed_lines rows headers.
Proof.
  intros Hrows Hhead.
  change (TextFile.file_content rows headers)
    with (join (String newline EmptyString) (printed_lines rows headers)).
  unfold file_lines.
  assert (Hnl : Forall (fun l => includes newline l = false) (printed_lines rows headers)).
  { apply Forall_app. split.
    - destruct headers as [hs |]; constructor; [| constructor].
      now destruct (Hhead hs eq_refl).
    - apply Forall_map. eapply Forall_impl; [exact Hrows |].
      intros row [Hclean _]. now apply csv_line_newline. }
  assert (Hink : Forall (fun l => has_ink l = true) (printed_lines rows headers)).
  { apply Forall_app. split.
    - destruct headers as [hs |]; constructor; [| constructor].
      destruct (Hhead hs eq_refl) as [Hne _].
      apply (includes_ink colon); [reflexivity | now apply header_line_colon].
    - apply Forall_map. eapply Forall_impl; [exact Hrows |].
      intros row [_ Hid]. now apply csv_line_ink. }
  destruct (printed_lines rows headers) as [| l ls] eqn:Hlines; [reflexivity |].
  rewrite split_join by (try assumption; discriminate).
  now apply filter_keeps_inked.
Qed.

(** Reading a file that [writeFile] printed from healed rows gives the
    rows back and leaves the file alone. *)
Lemma readFile_written
      (p : TextFile.Provider) (fs : gmap string string) (t : string)
      (rows : list TextFile.Row) (headers : option (list FieldDef)) :
  Forall healed rows ->
  (forall hs, headers = Some hs -> hs <> [] /\ includes newline (header_line hs) = false) ->
  (headers = None ->
   forall row0 rest, rows = row0 :: rest -> existsb (includes colon) row0 = false) ->
  let fs' := <[path p t := TextFile.file_content rows headers]> fs in
  TextFile.rows (fst (readFile p fs' t)) = rows /\ snd (readFile p fs' t) = fs'.
Proof.
  intros Hrows Hhead Hfirst fs'. unfold TextFile.readFile. subst fs'.
  rewrite lookup_insert_eq.
  pose proof (file_lines_printed rows headers Hrows Hhead) as Hlines.
  unfold file_lines in Hlines. rewrite Hlines. unfold printed_lines.
  destruct headers as [hs |]; cbn [app].
  - destruct (Hhead hs eq_refl) as [Hne _].
    assert (Hcolon : existsb (includes colon) (TextFile.parseCSVLine (header_line hs)) = true).
    { unfold TextFile.parseCSVLine. apply scan_keeps_colon.
      now rewrite header_line_colon. }
    rewrite !Hcolon.
    destruct (read_rows_printed rows Hrows [] false 1) as [n' Hread].
    rewrite !Hread. now cbn.
  - destruct rows as [| row0 rest] eqn:Hr; [now cbn |]. rewrite <- Hr in *.
    assert (Hrow0 : healed row0) by (rewrite Hr in Hrows; now inversion Hrows).
    assert (Hcolon : existsb (includes colon) (TextFile.parseCSVLine (csv_line row0)) = false).
    { rewrite parseCSVLine_csv_line by (try apply Hrow0; now apply healed_nonempty).
      exact (Hfirst eq_refl row0 rest Hr). }
    destruct (read_rows_printed rows Hrows [] false 1) as [n' Hread].
    rewrite Hr in Hread |- *. cbn [map] in *. rewrite !Hcolon, !Hread. now cbn.
Qed.

Lemma filter_Forall {A : Type} (P : A -> Prop) (f : A -> bool) (l : list A) :
  Forall P l -> Forall P (List.filter f l).
Proof.
  induction 1 as [| x rest Hx _ IH]; cbn; [constructor |].
  destruct (f x); [now constructor | assumption].
Qed.

(** The rows [readFile] hands out are healed; a header has a field; and
    without a header no cell of the first row holds a colon. *)
Lemma readFile_healed (p : TextFile.Provider) (fs : gmap string string) (t : string) :
  let fd := fst (readFile p fs t) in
  Forall healed (TextFile.rows fd)
  /\ (forall hs, TextFile.headers fd = Some hs -> hs <> [])
  /\ (TextFile.headers fd = None ->
      forall row0 rest, TextFile.rows fd = row0 :: rest ->
                        existsb (includes colon) row0 = false).
Proof.
  unfold TextFile.readFile.
  destruct (fs !! path p t) as [content |]; cbn;
    [| repeat split; [constructor | discriminate | discriminate]].
  pose proof (filter_Forall _ (fun line => truthy (trim line)) _
                (split_pieces_without_sep newline content)) as Hnl.
  destruct (List.filter _ (split newline content)) as [| line0 lines'];
    cbn; [repeat split; [constructor | discriminate | discriminate] |].
  destruct (existsb (includes colon) (TextFile.parseCSVLine line0)) eqn:Hcolon.
  - inversion Hnl as [| ? ? _ Hnl']; subst.
    pose proof (read_rows_healed lines' [] false 1 ltac:(lia) Hnl' ltac:(constructor)) as Hh.
    destruct (TextFile.read_rows lines' [] false 1) as [[rows nu] n]. cbn in *.
    repeat split; [assumption | | discriminate].
    intros hs H. injection H as <-.
    pose proof (parseCSVLine_loop_nonempty line0 [] "" false) as Hne.
    unfold TextFile.parseCSVLine. destruct (TextFile.parseCSVLine_loop line0 [] "" false);
      [contradiction | discriminate].
  - pose proof (read_rows_healed (line0 :: lines') [] false 1 ltac:(lia) Hnl
                                 ltac:(constructor)) as Hh.
    cbn [TextFile.read_rows] in *.
    destruct (TextFile.lacks_id (TextFile.parseCSVLine line0)).
    + match goal with
      | |- context [TextFile.read_rows lines' ?a ?u ?k] =>
          destruct (read_rows_spec lines' a u k) as [new [n' [Heq _]]]
      end.
      rewrite Heq in *. cbn in *. repeat split; [assumption | discriminate |].
      intros _ row0 rest H. injection H as <- _. cbn [existsb]. now rewrite Hcolon.
    + match goal with
      | |- context [TextFile.read_rows lines' ?a ?u ?k] =>
          destruct (read_rows_spec lines' a u k) as [new [n' [Heq _]]]
      end.
      rewrite Heq in *. cbn in *. repeat split; [assumption | discriminate |].
      intros _ row0 rest H. injection H as <- _. exact Hcolon.
Qed.

(** Reading a table a second time gives the same rows and does not
    write, provided that the header line [readFile] would print holds no
    line break. *)
Lemma readFile_settles (p : TextFile.Provider) (fs : gmap string string) (t : string) :
  let fd := fst (readFile p fs t) in
  let fs1 := snd (readFile p fs t) in
  (forall hs, TextFile.headers fd = Some hs -> includes newline (header_line hs) = false) ->
  TextFile.rows (fst (readFile p fs1 t)) = TextFile.rows fd
  /\ snd (readFile p fs1 t) = fs1.
Proof.
  intros fd fs1 Hhead.
  destruct (readFile_healed p fs t) as [Hrows [Hne Hfirst]]. fold fd in Hrows, Hne, Hfirst.
  destruct (readFile_spec path_join p fs t) as [_ Hstore]. fold fd fs1 in Hstore.
  destruct (existsb _ (stored_lines fs (path p t))).
  - rewrite Hstore. apply readFile_written; auto.
  - rewrite Hstore. split; [reflexivity | exact Hstore].
Qed.

End RereadFacts.

Section HeaderFacts.

Variable path_join : string -> string -> string.

Local Abbreviation readFile := (TextFile.readFile path_join).
Local Abbreviation path := (TextFile.getFilePath path_join).

Lemma split_pieces_exclude (c sep : ascii) (s : string) :
  includes c s = false -> Forall (fun piece => includes c piece = false) (split sep s).
Proof.
  induction s as [| x r IH]; cbn [includes split]; [repeat constructor |].
  intros H. apply orb_false_iff in H as [Hx Hr]. specialize (IH Hr).
  destruct (Ascii.eqb x sep); [now constructor |].
  destruct (split sep r) as [| h tl]; [repeat constructor; cbn; now rewrite Hx |].
  inversion IH as [| ? ? Hh Htl]; subst. constructor; [| assumption].
  cbn. now rewrite Hx, Hh.
Qed.

Lemma lookup_Forall {A : Type} (P : A -> Prop) (l : list A) (i : nat) (x : A) :
  Forall P l -> l !! i = Some x -> P x.
Proof.
  intros Hall. revert i. induction Hall as [| y rest Hy _ IH]; intros [| i] H;
    try discriminate; cbn in H.
  - now injection H as <-.
  - now apply (IH i).
Qed.

Lemma header_cell_newline (p : TextFile.Provider) (t field : string) :
  config_on_one_line p ->
  includes newline field = false ->
  includes newline (TextFile.header_cell (TextFile.parse_header_field p t field)) = false.
Proof.
  intros Hcfg Hfield. unfold TextFile.parse_header_field.
  assert (Hparts : Forall (fun part => includes newline part = false)
                          (map trim (split colon field))).
  { apply Forall_map. eapply Forall_impl; [apply (split_pieces_exclude _ _ _ Hfield) |].
    intros part Hpart. now apply includes_trim. }
  set (parts := map trim (split colon field)) in *.
  assert (Hname : includes newline
                    (match parts !! 0%nat with
                     | Some s => if truthy s then s else "Unknown"
                     | None => "Unknown"
                     end) = false).
  { destruct (parts !! 0%nat) as [s |] eqn:H0; [| reflexivity].
    destruct (truthy s); [| reflexivity]. exact (lookup_Forall _ _ _ _ Hparts H0). }
  set (name0 := match parts !! 0%nat with
                | Some s => if truthy s then s else "Unknown"
                | None => "Unknown"
                end) in *.
  assert (Hcode : forall ty, includes newline (TextFile.getTypeCode ty) = false)
    by (intros []; reflexivity).
  destruct (_ && truthy_opt (parts !! 2%nat)) eqn:Hlu.
  - apply andb_true_iff in Hlu as [_ Hlu].
    destruct (parts !! 2%nat) as [f |] eqn:H2; [| discriminate].
    unfold TextFile.header_cell. cbn [type luFile name]. cbn in Hlu. rewrite Hlu.
    rewrite !includes_append, Hname, (lookup_Forall _ _ _ _ Hparts H2). reflexivity.
  - destruct (manual_lookup _ t name0) as [target |] eqn:Hm.
    + unfold TextFile.header_cell. cbn [type luFile name].
      destruct (truthy target);
        rewrite !includes_append, Hname, ?(Hcfg _ _ _ Hm); reflexivity.
    + unfold TextFile.header_cell. cbn [type luFile name].
      destruct (TextFile.mapTypeCode _);
        rewrite !includes_append, Hname; reflexivity.
Qed.

Lemma header_line_newline (p : TextFile.Provider) (t : string) (fields : list string) :
  config_on_one_line p ->
  Forall (fun f => includes newline f = false) fields ->
  includes newline (header_line (map (TextFile.parse_header_field p t) fields)) = false.
Proof.
  intros Hcfg. unfold header_line, join.
  induction 1 as [| f rest Hf Hrest IH]; [reflexivity |].
  destruct rest as [| f' rest']; cbn [map String.concat].
  - now apply header_cell_newline.
  - rewrite !includes_append, (header_cell_newline _ _ _ Hcfg Hf).
    cbn [map String.concat] in IH. now rewrite IH.
Qed.

(** The header line that [writeFile] prints for the headers [readFile]
    read holds no line break. *)
Lemma readFile_header_newline
      (p : TextFile.Provider) (fs : gmap string string) (t : string) (hs : list FieldDef) :
  config_on_one_line p ->
  TextFile.headers (fst (readFile p fs t)) = Some hs ->
  includes newline (header_line hs) = false.
Proof.
  intros Hcfg. unfold TextFile.readFile.
  destruct (fs !! path p t) as [content |]; [| discriminate].
  pose proof (filter_Forall _ (fun line => truthy (trim line)) _
                (split_pieces_without_sep newline content)) as Hnl.
  destruct (List.filter _ (split newline content)) as [| line0 lines']; [discriminate |].
  inversion Hnl as [| ? ? Hline0 _]; subst.
  destruct (existsb _ _).
  - destruct (TextFile.read_rows lines' [] false 1) as [[rows nu] n]. cbn.
    intros H. injection H as <-. apply header_line_newline; [assumption |].
    eapply Forall_impl; [apply (parseCSVLine_clean _ Hline0) |].
    now intros f [_ [_ Hf]].
  - destruct (TextFile.read_rows (line0 :: lines') [] false 1) as [[rows nu] n].
    discriminate.
Qed.

(** Reading a table a second time gives the same rows and writes
    nothing. *)
Theorem readFile_twice (p : TextFile.Provider) (fs : gmap string string) (t : string) :
  config_on_one_line p ->
  let fs1 := snd (readFile p fs t) in
  TextFile.rows (fst (readFile p fs1 t)) = TextFile.rows (fst (readFile p fs t))
  /\ snd (readFile p fs1 t) = fs1.
Proof.
  intros Hcfg fs1. apply readFile_settles.
  intros hs Hhs. now apply (readFile_header_newline p fs t).
Qed.

End HeaderFacts.

Section TextFileWrites.

Variable path_join : string -> string -> string.

Local Abbreviation readFile := (TextFile.readFile path_join).
Local Abbreviation path := (TextFile.getFilePath path_join).




(** The loop of [insertRow] finds the largest id above zero. *)
Lemma max_id_from_largest (rows : list TextFile.Row) :
  forall maxId, 0 <= maxId ->
                TextFile.max_id_from maxId rows = Z.max maxId (largest_id rows).
Proof.
  unfold TextFile.max_id_from, largest_id, row_ids.
  induction rows as [| r rest IH]; intros maxId Hpos; cbn; [lia |].
  destruct (r !! 0%nat) as [r0 |]; [| rewrite IH by assumption; reflexivity].
  destruct (parseInt r0) as [n |]; [| rewrite IH by assumption; reflexivity].
  destruct (Z.gtb_spec n maxId); rewrite IH by lia; lia.
Qed.

Lemma largest_id_nonneg (rows : list TextFile.Row) : 0 <= largest_id rows.
Proof.
  unfold largest_id. induction (row_ids rows) as [| [n |] rest IH]; cbn; lia.
Qed.

(** The new row takes from the payload only the values of the fields
    that are not named [id]. *)
Lemma new_row_ignores_id (fields : list FieldDef) (newId : Z) (rowData rowData' : Obj) :
  (forall k, toLowerCase k <> "id" -> get rowData' k = get rowData k) ->
  TextFile.new_row fields newId rowData' = TextFile.new_row fields newId rowData.
Proof.
  intros Hsame. unfold TextFile.new_row. apply map_ext. intros f.
  destruct (toLowerCase (name f) =? "id")%string eqn:Hid; [reflexivity |].
  unfold get_or_empty. rewrite Hsame; [reflexivity |].
  now apply String.eqb_neq.
Qed.

Lemma new_row_lookup (fields : list FieldDef) (newId : Z) (rowData : Obj)
      (idx : nat) (f : FieldDef) :
  fields !! idx = Some f ->
  toLowerCase (name f) = "id" ->
  TextFile.new_row fields newId rowData !! idx = Some (String_of_Z newId).
Proof.
  unfold TextFile.new_row. revert idx.
  induction fields as [| g rest IH]; intros [| idx] Hf Hid; try discriminate; cbn in *.
  - injection Hf as ->. now rewrite Hid.
  - now apply IH.
Qed.

Lemma new_row_lookup_other (fields : list FieldDef) (newId : Z) (rowData : Obj)
      (idx : nat) (f : FieldDef) :
  fields !! idx = Some f ->
  toLowerCase (name f) <> "id" ->
  TextFile.new_row fields newId rowData !! idx = Some (get_or_empty rowData (name f)).
Proof.
  unfold TextFile.new_row. revert idx.
  induction fields as [| g rest IH]; intros [| idx] Hf Hid; try discriminate; cbn in *.
  - injection Hf as ->.
    destruct (String.eqb_spec (toLowerCase (name f)) "id"); [contradiction | reflexivity].
  - now apply IH.
Qed.

(** C6, amended.  The ids of the file being in the range of exact
    numbers, [insertRow] appends one row to the rows read from the file
    and succeeds.  The id it computes is one plus the largest existing
    id above zero (ids are read from the first cell of each row), hence
    1 when there is no such id, in particular in an empty table.  The
    id is stored in the first cell when the file has no header line,
    and in the cell of every field named [id] when it has one; the row
    has one cell per header field, and every other cell holds the
    payload's value for the name of its field, so that under a header
    without a field named [id] the row stores no id.  The payload's own
    [id] is never read. *)
Theorem insertRow_assigns_next_id
        (p : TextFile.Provider) (fs : gmap string string) (t : string) (rowData : Obj) :
  ids_in_range fs (path p t) = true ->
  let fd := fst (readFile p fs t) in
  let newId := largest_id (TextFile.rows fd) + 1 in
  exists newRow,
    TextFile.insertRow path_join p fs t rowData
    = (Ok tt,
       <[path p t := TextFile.file_content (TextFile.rows fd ++ [newRow])%list
                                           (TextFile.headers fd)]>
         (snd (readFile p fs t)))
    /\ (TextFile.headers fd = None -> newRow !! 0%nat = Some (String_of_Z newId))
    /\ (forall hs idx h,
           TextFile.headers fd = Some hs -> hs !! idx = Some h ->
           toLowerCase (name h) = "id" ->
           newRow !! idx = Some (String_of_Z newId))
    /\ (forall hs idx h,
           TextFile.headers fd = Some hs -> hs !! idx = Some h ->
           toLowerCase (name h) <> "id" -> inherited (name h) = false ->
           newRow !! idx = Some (get_or_empty rowData (name h)))
    /\ (forall hs, TextFile.headers fd = Some hs -> length newRow = length hs)
    /\ (TextFile.rows fd = [] -> newId = 1)
    /\ (forall rowData',
           (forall k, toLowerCase k <> "id" -> get rowData' k = get rowData k) ->
           TextFile.insertRow path_join p fs t rowData'
           = TextFile.insertRow path_join p fs t rowData).
Proof.
  intros _ fd newId.
  pose proof (readFile_rows_nonempty path_join p fs t) as Hne. fold fd in Hne.
  unfold TextFile.insertRow. subst newId fd.
  destruct (readFile p fs t) as [fd fs1]. cbn [fst snd] in *.
  rewrite (max_id_from_largest _ 0) by lia.
  rewrite Z.max_r by apply largest_id_nonneg.
  eexists. split; [reflexivity |]. repeat split.
  - intros Hnone. rewrite Hnone.
    destruct (TextFile.rows fd) as [| row0 rest] eqn:Hrows; [reflexivity |].
    destruct row0 as [| cell cells]; [| reflexivity].
    inversion Hne as [| ? ? Hrow0 _]. now destruct Hrow0.
  - intros hs idx h Hhs Hh Hid. rewrite Hhs. now apply (new_row_lookup hs _ _ idx h).
  - intros hs idx h Hhs Hh Hid _. rewrite Hhs. now apply (new_row_lookup_other hs _ _ idx h).
  - intros hs Hhs. rewrite Hhs. unfold TextFile.new_row. apply length_map.
  - intros Hempty. now rewrite Hempty.
  - intros rowData' Hsame. now rewrite (new_row_ignores_id _ _ _ _ Hsame).
Qed.

End TextFileWrites.


Lemma insertRow_assigns_next_id_witness :
  exists newRow,
    snd (TextFile.insertRow TextFile.slash_join Examples.open_source
                            Examples.countries_file "Countries"
                            [("id", "99"); ("Name", "Spain"); ("ISO2", "ES")])
    !! Examples.path_of "Countries"
    = Some (TextFile.file_content
              [["1"; "France"; "FR"]; newRow]
              (Some [mkField "id" integer None None;
                     mkField "Name" text None None;
                     mkField "ISO2" text None None]))
    /\ newRow !! 0%nat = Some "2".
Proof.
  destruct (insertRow_assigns_next_id TextFile.slash_join Examples.open_source
                                      Examples.countries_file "Countries"
                                      [("id", "99"); ("Name", "Spain"); ("ISO2", "ES")])
    as [newRow [Hinsert [_ [Hid _]]]]; [vm_compute; reflexivity |].
  exists newRow. split.
  - rewrite Hinsert. cbn [snd]. now rewrite lookup_insert_eq.
  - eapply (Hid _ 0%nat); [vm_compute; reflexivity | reflexivity | reflexivity].
Defined.

(** * Updates in the file-backed provider *)

Section TextFileUpdates.

Variable path_join : string -> string -> string.

Local Abbreviation readFile := (TextFile.readFile path_join).
Local Abbreviation path := (TextFile.getFilePath path_join).

Lemma parse_header_field_readonly (p : TextFile.Provider) (t field : string) :
  readonly (TextFile.parse_header_field p t field) = None.
Proof.
  unfold TextFile.parse_header_field.
  destruct (_ && truthy_opt _); [reflexivity |].
  destruct (manual_lookup _ _ _); reflexivity.
Qed.

(** No descriptor that [readFile] builds from a header line is
    readonly. *)
Lemma readFile_headers_not_readonly
      (p : TextFile.Provider) (fs : gmap string string) (t : string) (hs : list FieldDef) :
  TextFile.headers (fst (readFile p fs t)) = Some hs ->
  Forall (fun h => is_readonly h = false) hs.
Proof.
  unfold TextFile.readFile.
  destruct (fs !! path p t) as [content |]; [| discriminate].
  destruct (List.filter _ _) as [| line0 lines']; [discriminate |].
  destruct (existsb _ _).
  - destruct (TextFile.read_rows lines' [] false 1) as [[rows nu] n]. cbn.
    intros H. injection H as <-.
    induction (TextFile.parseCSVLine line0) as [| f fs' IH]; constructor; [| assumption].
    unfold is_readonly. now rewrite parse_header_field_readonly.
  - destruct (TextFile.read_rows (line0 :: lines') [] false 1) as [[rows nu] n].
    discriminate.
Qed.

(** Without a readonly descriptor, the stored row is the payload, field
    by field, the id like any other. *)
Lemma updated_row_without_readonly (fields : list FieldDef) (old : TextFile.Row)
      (rowData : Obj) :
  Forall (fun h => is_readonly h = false) fields ->
  TextFile.updated_row fields old rowData
  = map (fun h => get_or_empty rowData (name h)) fields.
Proof.
  unfold TextFile.updated_row. intros Hall.
  assert (Hgen : forall (g : nat -> nat),
             imap (fun idx field =>
                     if is_readonly field
                     then match old !! g idx with Some v => v | None => EmptyString end
                     else get_or_empty rowData (name field)) fields
             = map (fun h => get_or_empty rowData (name h)) fields).
  { induction Hall as [| h rest Hh _ IH]; intros g; cbn; [reflexivity |].
    rewrite Hh. f_equal. apply (IH (fun i => g (S i))). }
  apply (Hgen (fun i => i)).
Qed.

(** On every table with a header line, [updateRow] replaces the whole
    row by the payload, the id cell included. *)
Lemma updateRow_under_header
      (p : TextFile.Provider) (fs : gmap string string) (t id : string) (rowData : Obj)
      (hs : list FieldDef) (rowIndex : nat) :
  let fd := fst (readFile p fs t) in
  TextFile.headers fd = Some hs ->
  findIndex (TextFile.has_id id) (TextFile.rows fd) = Some rowIndex ->
  TextFile.updateRow path_join p fs t id rowData
  = (Ok tt,
     <[path p t :=
         TextFile.file_content
           (<[rowIndex := map (fun h => get_or_empty rowData (name h)) hs]> (TextFile.rows fd))
           (Some hs)]> (snd (readFile p fs t))).
Proof.
  intros fd Hhs Hidx.
  pose proof (readFile_headers_not_readonly p fs t hs Hhs) as Hro.
  unfold TextFile.updateRow. subst fd.
  destruct (readFile p fs t) as [fd fs1]. cbn [fst snd] in *.
  rewrite Hidx, Hhs.
  destruct (TextFile.rows fd) as [| row0 rest] eqn:Hrows; [discriminate |].
  now rewrite updated_row_without_readonly.
Qed.

(** On a table without a header line, the stored row keeps the id of
    the row it replaces. *)
Lemma updated_row_positional_keeps_id (row0 old : TextFile.Row) (rowData : Obj) (v : string) :
  row0 <> [] ->
  old !! 0%nat = Some v ->
  TextFile.updated_row (TextFile.positional_fields row0) old rowData !! 0%nat = Some v.
Proof.
  intros Hne Hold. destruct row0 as [| c cs]; [contradiction |].
  cbn. now rewrite Hold.
Qed.

End TextFileUpdates.

(** * Round trips and lookups in the file-backed provider *)

Section NumberFacts.

Lemma parse_digits_numeral (d : Decimal.uint) :
  forall acc seen,
    d <> Decimal.Nil \/ seen = true ->
    parse_digits 10 (NilEmpty.string_of_uint d) acc seen = Some (numeral_value d acc).
Proof.
  induction d; intros acc seen Hd; cbn [NilEmpty.string_of_uint parse_digits numeral_value];
    try (change (digit_val 10 "0") with (Some 0);
         change (digit_val 10 "1") with (Some 1);
         change (digit_val 10 "2") with (Some 2);
         change (digit_val 10 "3") with (Some 3);
         change (digit_val 10 "4") with (Some 4);
         change (digit_val 10 "5") with (Some 5);
         change (digit_val 10 "6") with (Some 6);
         change (digit_val 10 "7") with (Some 7);
         change (digit_val 10 "8") with (Some 8);
         change (digit_val 10 "9") with (Some 9);
         cbv iota; apply IHd; now right).
  destruct Hd as [Hd | ->]; [contradiction | reflexivity].
Qed.

Lemma numeral_value_acc (d : Decimal.uint) :
  forall acc : positive,
    numeral_value d (Z.pos acc) = Z.pos (Pos.of_uint_acc d acc).
Proof.
  induction d; intros acc; cbn [numeral_value Pos.of_uint_acc]; [reflexivity | ..];
    rewrite <- IHd; f_equal; cbn; lia.
Qed.

Lemma numeral_value_of_uint (d : Decimal.uint) :
  numeral_value d 0 = Z.of_N (Pos.of_uint d).
Proof.
  induction d; cbn [numeral_value Pos.of_uint]; [reflexivity | exact IHd | ..];
    cbn [Z.mul Z.add Z.of_N]; apply numeral_value_acc.
Qed.

Lemma strip_sign_minus (r : string) : strip_sign (String "-" r) = (-1, r).
Proof. reflexivity. Qed.

(** [parseInt(String(n))] is [n], for every integer [n]. *)
Lemma parseInt_String_of_Z (n : Z) : parseInt (String_of_Z n) = Some n.
Proof.
  unfold String_of_Z. destruct n as [| p | p]; [reflexivity | |].
  - cbn [Z.to_int NilZero.string_of_int].
    pose proof (Unsigned.to_uint_nonnil p) as Hnil.
    replace (NilZero.string_of_uint (Pos.to_uint p))
      with (NilEmpty.string_of_uint (Pos.to_uint p))
      by (destruct (Pos.to_uint p); [contradiction | reflexivity ..]).
    pose proof (string_of_uint_digits (Pos.to_uint p)) as Hd.
    pose proof (string_of_uint_nonempty _ Hnil) as Hne.
    unfold parseInt. rewrite (digits_trimStart _ Hd).
    destruct (NilEmpty.string_of_uint (Pos.to_uint p)) as [| c r] eqn:Hs; [contradiction |].
    pose proof Hd as Hd'. cbn [digits_only] in Hd'. apply andb_true_iff in Hd' as [Hc _].
    rewrite (strip_sign_digit _ _ Hc), (strip_radix_digits _ Hd), <- Hs.
    rewrite parse_digits_numeral by now left.
    rewrite numeral_value_of_uint, Unsigned.of_to. reflexivity.
  - cbn [Z.to_int NilZero.string_of_int].
    pose proof (Unsigned.to_uint_nonnil p) as Hnil.
    replace (NilZero.string_of_uint (Pos.to_uint p))
      with (NilEmpty.string_of_uint (Pos.to_uint p))
      by (destruct (Pos.to_uint p); [contradiction | reflexivity ..]).
    pose proof (string_of_uint_digits (Pos.to_uint p)) as Hd.
    unfold parseInt. cbn [trimStart]. replace (is_ws "-") with false by reflexivity.
    rewrite strip_sign_minus, (strip_radix_digits _ Hd).
    rewrite parse_digits_numeral by now left.
    rewrite numeral_value_of_uint, Unsigned.of_to. reflexivity.
Qed.

Lemma String_of_Z_ink (n : Z) : has_ink (String_of_Z n) = true.
Proof.
  unfold String_of_Z. destruct n as [| p | p]; [reflexivity | | reflexivity].
  cbn [Z.to_int NilZero.string_of_int].
  pose proof (Unsigned.to_uint_nonnil p) as Hnil.
  pose proof (string_of_uint_digits (Pos.to_uint p)) as Hd.
  destruct (Pos.to_uint p); [contradiction | ..]; reflexivity.
Qed.

(** X7. An id in the range of exact numbers, printed as [insertRow]
    and [readFile] print it, [String(id)], is read back by [parseInt] as
    the same number, and a row that starts with it passes the id test
    of [readFile]: no new id is assigned to it. *)
Theorem printed_id_is_read_as_id (n : Z) (cells : list string) :
  safe_integer n = true ->
  parseInt (String_of_Z n) = Some n
  /\ TextFile.lacks_id (String_of_Z n :: cells) = false.
Proof.
  intros _. split; [apply parseInt_String_of_Z |].
  unfold TextFile.lacks_id. cbn [lookup list_lookup].
  rewrite parseInt_String_of_Z.
  pose proof (String_of_Z_ink n) as Hink. rewrite <- truthy_trim in Hink.
  destruct (trim (String_of_Z n)) eqn:Ht; [discriminate |].
  destruct (String_of_Z n) eqn:Hs; [discriminate | reflexivity].
Qed.

End NumberFacts.

Section MoreTextFile.

Variable path_join : string -> string -> string.

Local Abbreviation readFile := (TextFile.readFile path_join).
Local Abbreviation path := (TextFile.getFilePath path_join).

(** Every field the scan produces is trimmed and free of quotes. *)
Lemma scan_trimmed (line : string) :
  forall result current inQuotes,
    Forall (fun f => trim f = f /\ includes dquote f = false) result ->
    includes dquote current = false ->
    Forall (fun f => trim f = f /\ includes dquote f = false)
           (TextFile.parseCSVLine_loop line result current inQuotes).
Proof.
  assert (Hpush : forall result current,
             Forall (fun f => trim f = f /\ includes dquote f = false) result ->
             includes dquote current = false ->
             Forall (fun f => trim f = f /\ includes dquote f = false)
                    (result ++ [trim current])).
  { intros result current Hres Hq. apply Forall_app. split; [assumption |].
    constructor; [| constructor]. split; [apply trim_idem | now apply includes_trim]. }
  induction line as [| c r IH]; intros result current inQuotes Hres Hq;
    cbn [TextFile.parseCSVLine_loop]; [now apply Hpush |].
  destruct (Ascii.eqb c dquote) eqn:Hcq; [now apply IH |].
  destruct (Ascii.eqb c comma && negb inQuotes).
  - apply IH; auto.
  - apply IH; auto. rewrite includes_append. cbn. now rewrite Hq, Hcq.
Qed.

(** X1. [parseCSVLine] always returns at least one field, and every
    field it returns is trimmed and holds no double quote. *)
Theorem parseCSVLine_fields_are_trimmed (line : string) :
  TextFile.parseCSVLine line <> []
  /\ Forall (fun f => trim f = f /\ includes dquote f = false) (TextFile.parseCSVLine line).
Proof.
  split; [apply parseCSVLine_loop_nonempty |].
  unfold TextFile.parseCSVLine. now apply scan_trimmed.
Qed.

(** X2. A row of trimmed cells without double quotes and line breaks,
    printed by [writeFile] (cells with a comma in quotes), is parsed
    back by [parseCSVLine] as the same row. *)
Theorem printed_row_parses_back (row : TextFile.Row) :
  row <> [] ->
  Forall clean row ->
  TextFile.parseCSVLine (join "," (map TextFile.csv_cell row)) = row.
Proof. intros Hne Hclean. now apply parseCSVLine_csv_line. Qed.

(** X3. A table written by [writeFile] from rows of such cells, each
    starting with an integer id, is read back by [readFile] with the
    same rows, and the read leaves the file as written. *)
Theorem written_table_reads_back
        (p : TextFile.Provider) (fs : gmap string string) (t : string)
        (rows : list TextFile.Row) (headers : option (list FieldDef)) :
  Forall healed rows ->
  (forall hs, headers = Some hs -> hs <> [] /\ includes newline (header_line hs) = false) ->
  (headers = None ->
   forall row0 rest, rows = row0 :: rest -> existsb (includes colon) row0 = false) ->
  let fs' := TextFile.writeFile path_join p fs t rows headers in
  TextFile.rows (fst (readFile p fs' t)) = rows
  /\ snd (readFile p fs' t) = fs'.
Proof. intros Hrows Hhead Hfirst. now apply readFile_written. Qed.

(** X5. The ids of the file being in the range of exact numbers:
    after one [readFile], which may have assigned ids and rewritten the
    file, a second [readFile] returns the same rows and writes
    nothing. *)
Theorem second_read_changes_nothing
        (p : TextFile.Provider) (fs : gmap string string) (t : string) :
  ids_in_range fs (path p t) = true ->
  config_on_one_line p ->
  let fs1 := snd (readFile p fs t) in
  TextFile.rows (fst (readFile p fs1 t)) = TextFile.rows (fst (readFile p fs t))
  /\ snd (readFile p fs1 t) = fs1.
Proof. intros _ Hcfg. now apply readFile_twice. Qed.

Lemma lacks_id_false_inv (row : TextFile.Row) :
  TextFile.lacks_id row = false ->
  exists id cells n, row = id :: cells /\ parseInt id = Some n.
Proof.
  destruct row as [| id cells]; [discriminate |].
  unfold TextFile.lacks_id. cbn [lookup list_lookup]. intros H.
  apply orb_false_iff in H as [_ H].
  destruct (parseInt id) as [n |] eqn:Hn; [| discriminate].
  exists id, cells, n. split; [reflexivity | exact Hn].
Qed.

(** X6. The ids of the file being in the range of exact numbers,
    [readFile] returns one row per data line of the file, and every row
    it returns starts with a cell that [parseInt] reads as a number. *)
Theorem readFile_rows_carry_ids
        (p : TextFile.Provider) (fs : gmap string string) (t : string) :
  ids_in_range fs (path p t) = true ->
  let rows := TextFile.rows (fst (readFile p fs t)) in
  length rows = length (stored_lines fs (path p t))
  /\ Forall (fun row => exists id cells n, row = id :: cells /\ parseInt id = Some n) rows.
Proof.
  intros _ rows. split.
  - destruct (readFile_spec path_join p fs t) as [Hall _].
    symmetry. exact (Forall2_length _ _ _ Hall).
  - destruct (readFile_healed path_join p fs t) as [Hrows _].
    eapply Forall_impl; [exact Hrows |]. intros row [_ Hid].
    now apply lacks_id_false_inv.
Qed.

Lemma find_spec_split {A : Type} (f : A -> bool) (l : list A) :
  match List.find f l with
  | Some x => exists before after,
      l = (before ++ x :: after)%list /\ f x = true /\ Forall (fun y => f y = false) before
  | None => Forall (fun y => f y = false) l
  end.
Proof.
  induction l as [| y rest IH]; cbn; [constructor |].
  destruct (f y) eqn:Hy.
  - exists [], rest. repeat split; [assumption | constructor].
  - destruct (List.find f rest) as [x |].
    + destruct IH as [before [after [-> [Hx Hbefore]]]].
      exists (y :: before), after. repeat split; [assumption | now constructor].
    + now constructor.
Qed.

(** X8. [getRowById] returns the first row, in file order, whose first
    cell is the id; it throws the not-found error exactly when no row
    has that first cell.  It writes nothing beyond what its [readFile]
    wrote. *)
Theorem getRowById_finds_first_match
        (p : TextFile.Provider) (fs : gmap string string) (t id : string) :
  let rows := TextFile.rows (fst (readFile p fs t)) in
  match fst (TextFile.getRowById path_join p fs t id) with
  | Ok found =>
      exists before after,
        rows = (before ++ TextFile.row found :: after)%list
        /\ TextFile.row found !! 0%nat = Some id
        /\ Forall (fun r => r !! 0%nat <> Some id) before
  | Throw message =>
      message = "Failed to fetch row: Row not found"
      /\ Forall (fun r => r !! 0%nat <> Some id) rows
  end
  /\ snd (TextFile.getRowById path_join p fs t id) = snd (readFile p fs t).
Proof.
  assert (Hno : forall r, TextFile.has_id id r = false -> r !! 0%nat <> Some id).
  { intros r. unfold TextFile.has_id. destruct (r !! 0%nat) as [r0 |]; [| discriminate].
    intros H [= ->]. now rewrite String.eqb_refl in H. }
  assert (Hyes : forall r, TextFile.has_id id r = true -> r !! 0%nat = Some id).
  { intros r. unfold TextFile.has_id. destruct (r !! 0%nat) as [r0 |]; [| discriminate].
    intros H. apply String.eqb_eq in H. now subst. }
  intros rows. subst rows. unfold TextFile.getRowById.
  destruct (readFile p fs t) as [fd fs1]. cbn [fst snd].
  pose proof (find_spec_split (TextFile.has_id id) (TextFile.rows fd)) as Hfind.
  destruct (List.find (TextFile.has_id id) (TextFile.rows fd)) as [found |]; cbn [fst snd].
  - split; [| reflexivity].
    destruct Hfind as [before [after [Hrows [Hid Hbefore]]]].
    exists before, after. repeat split; [assumption | now apply Hyes |].
    eapply Forall_impl; [exact Hbefore | exact Hno].
  - split; [| reflexivity]. split; [reflexivity |].
    eapply Forall_impl; [exact Hfind | exact Hno].
Qed.

End MoreTextFile.

Section DeleteUpdateInsert.

Variable path_join : string -> string -> string.

Local Abbreviation readFile := (TextFile.readFile path_join).
Local Abbreviation path := (TextFile.getFilePath path_join).

Lemma filter_length_lt {A : Type} (f : A -> bool) (l : list A) :
  existsb f l = true ->
  (length (List.filter (fun x => negb (f x)) l) < length l)%nat.
Proof.
  induction l as [| x rest IH]; cbn; [discriminate |].
  intros H. destruct (f x) eqn:Hx; cbn.
  - pose proof (List.filter_length_le (fun x => negb (f x)) rest). lia.
  - specialize (IH H). lia.
Qed.

Lemma find_filter_negb {A : Type} (f : A -> bool) (l : list A) :
  List.find f (List.filter (fun x => negb (f x)) l) = None.
Proof.
  induction l as [| x rest IH]; cbn; [reflexivity |].
  destruct (f x) eqn:Hx; cbn; [assumption | now rewrite Hx].
Qed.

Lemma readFile_header_ok
      (p : TextFile.Provider) (fs : gmap string string) (t : string) :
  config_on_one_line p ->
  forall hs, TextFile.headers (fst (readFile p fs t)) = Some hs ->
             hs <> [] /\ includes newline (header_line hs) = false.
Proof.
  intros Hcfg hs Hhs. split.
  - destruct (readFile_healed path_join p fs t) as [_ [Hne _]]. now apply Hne.
  - now apply (readFile_header_newline path_join p fs t).
Qed.

(** X9. The ids of the file being in the range of exact numbers,
    [deleteRow] for an id that a row has succeeds and writes the rows
    without those that carry the id; read back, the table holds exactly
    those rows, in their order, and the id is no longer found. *)
Theorem deleteRow_removes_the_id
        (p : TextFile.Provider) (fs : gmap string string) (t id : string) :
  ids_in_range fs (path p t) = true ->
  let fd := fst (readFile p fs t) in
  let kept := List.filter (fun r => negb (TextFile.has_id id r)) (TextFile.rows fd) in
  let r := TextFile.deleteRow path_join p fs t id in
  existsb (TextFile.has_id id) (TextFile.rows fd) = true ->
  r = (Ok tt, TextFile.writeFile path_join p (snd (readFile p fs t)) t kept (TextFile.headers fd))
  /\ (config_on_one_line p ->
      (TextFile.headers fd = None ->
       forall row0 rest, kept = row0 :: rest -> existsb (includes colon) row0 = false) ->
      TextFile.rows (fst (readFile p (snd r) t)) = kept
      /\ fst (TextFile.getRowById path_join p (snd r) t id)
         = Throw "Failed to fetch row: Row not found").
Proof.
  intros _ fd kept r Hpresent.
  assert (Hr : r = (Ok tt, TextFile.writeFile path_join p (snd (readFile p fs t)) t kept
                                              (TextFile.headers fd))).
  { subst r kept fd. unfold TextFile.deleteRow.
    destruct (readFile p fs t) as [fd fs1]. cbn [fst snd] in *.
    pose proof (filter_length_lt _ _ Hpresent) as Hlt.
    destruct (Nat.eqb_spec (length (TextFile.rows fd))
                (length (List.filter (fun r => negb (TextFile.has_id id r))
                                     (TextFile.rows fd)))) as [Heq | _];
      [lia | reflexivity]. }
  split; [exact Hr |]. intros Hcfg Hcolon. rewrite Hr. cbn [snd].
  destruct (readFile_healed path_join p fs t) as [Hrows _]. fold fd in Hrows.
  assert (Hback : TextFile.rows (fst (readFile p (TextFile.writeFile path_join p
                     (snd (readFile p fs t)) t kept (TextFile.headers fd)) t)) = kept).
  { apply (readFile_written path_join p _ t kept (TextFile.headers fd)).
    - now apply filter_Forall.
    - now apply readFile_header_ok.
    - exact Hcolon. }
  split; [exact Hback |].
  unfold TextFile.getRowById.
  destruct (readFile p (TextFile.writeFile _ _ _ _ _ _) t) as [fd' fs2]. cbn [fst] in Hback.
  rewrite Hback. subst kept. now rewrite find_filter_negb.
Qed.

Lemma findIndex_lookup {A : Type} (f : A -> bool) (l : list A) (i : nat) :
  findIndex f l = Some i -> exists x, l !! i = Some x /\ f x = true.
Proof.
  revert i. induction l as [| y rest IH]; intros i; cbn; [discriminate |].
  destruct (f y) eqn:Hy.
  - intros [= <-]. now exists y.
  - destruct (findIndex f rest) as [j |]; [| discriminate].
    intros [= <-]. now apply IH.
Qed.

Lemma has_id_first (id : string) (r : TextFile.Row) :
  TextFile.has_id id r = true -> r !! 0%nat = Some id.
Proof.
  unfold TextFile.has_id. destruct (r !! 0%nat) as [r0 |]; [| discriminate].
  intros H. apply String.eqb_eq in H. now subst.
Qed.

(** On a table without a header line, [updateRow] for an id that a row
    has succeeds and replaces the first row with that id by a row as wide
    as the first row of the table: its first cell is the id, every other
    cell the payload's value for [Column<k>]. The other rows and the
    row count stay. *)
(** X10. On a table without a header line, [updateRow] of a present id
    replaces that row, at its position, by a row with as many cells as
    the first row of the table: the id in front, then the payload's
    values under the keys [Column1], [Column2], ...; the number of rows
    stays the same. *)
Theorem updateRow_without_header
        (p : TextFile.Provider) (fs : gmap string string) (t id : string) (rowData : Obj)
        (rowIndex : nat) :
  let fd := fst (readFile p fs t) in
  TextFile.headers fd = None ->
  findIndex (TextFile.has_id id) (TextFile.rows fd) = Some rowIndex ->
  exists row0 newRow,
    head (TextFile.rows fd) = Some row0
    /\ TextFile.updateRow path_join p fs t id rowData
       = (Ok tt, TextFile.writeFile path_join p (snd (readFile p fs t)) t
                                    (<[rowIndex := newRow]> (TextFile.rows fd)) None)
    /\ length newRow = length row0
    /\ newRow !! 0%nat = Some id
    /\ (forall k, (0 < k < length row0)%nat ->
                  newRow !! k = Some (get_or_empty rowData ("Column" +:+ String_of_nat k)))
    /\ length (<[rowIndex := newRow]> (TextFile.rows fd)) = length (TextFile.rows fd).
Proof.
  intros fd Hnone Hidx.
  pose proof (readFile_rows_nonempty path_join p fs t) as Hne. fold fd in Hne.
  destruct (findIndex_lookup _ _ _ Hidx) as [old [Hold Hid]].
  apply has_id_first in Hid.
  unfold TextFile.updateRow. subst fd.
  destruct (readFile p fs t) as [fd fs1]. cbn [fst snd] in *.
  rewrite Hidx, Hnone.
  destruct (TextFile.rows fd) as [| row0 rest] eqn:Hrows; [discriminate |].
  exists row0, (TextFile.updated_row (TextFile.positional_fields row0) old rowData).
  unfold TextFile.Row in *. rewrite Hold.
  split; [reflexivity |]. split; [reflexivity |].
  unfold TextFile.updated_row, TextFile.positional_fields.
  split; [now rewrite !length_imap |]. split; [| split].
  - inversion Hne as [| ? ? Hrow0 _]; subst.
    destruct row0 as [| c cs]; [contradiction |].
    destruct old as [| o os]; [discriminate |]. cbn in Hid. injection Hid as ->.
    reflexivity.
  - intros k [Hk0 Hk]. rewrite !list_lookup_imap.
    destruct (lookup_lt_is_Some_2 row0 k Hk) as [c ->]. cbn.
    destruct k as [| k]; [lia |]. reflexivity.
  - apply length_insert.
Qed.

End DeleteUpdateInsert.

Section InsertThenRead.

Variable path_join : string -> string -> string.

Local Abbreviation readFile := (TextFile.readFile path_join).
Local Abbreviation path := (TextFile.getFilePath path_join).

Lemma largest_id_bound (rows : list TextFile.Row) (r : TextFile.Row) (r0 : string) (n : Z) :
  In r rows -> r !! 0%nat = Some r0 -> parseInt r0 = Some n -> n <= largest_id rows.
Proof.
  unfold largest_id, row_ids. induction rows as [| x rest IH]; [contradiction |].
  intros [-> | Hin] Hr0 Hn; cbn.
  - rewrite Hr0, Hn. lia.
  - specialize (IH Hin Hr0 Hn). destruct (x !! 0%nat) as [x0 |]; [| exact IH].
    destruct (parseInt x0); lia.
Qed.

Lemma largest_id_app (rows : list TextFile.Row) (n : Z) (cells : list string) :
  largest_id rows < n ->
  largest_id (rows ++ [String_of_Z n :: cells]) = n.
Proof.
  unfold largest_id, row_ids. intros Hlt.
  induction rows as [| x rest IH].
  - cbn in *. rewrite parseInt_String_of_Z. lia.
  - cbn in *. destruct (x !! 0%nat) as [x0 |]; [| now apply IH].
    destruct (parseInt x0) as [v |]; [| now apply IH].
    rewrite IH by lia. lia.
Qed.

Lemma find_app_last {A : Type} (f : A -> bool) (l : list A) (x : A) :
  Forall (fun y => f y = false) l -> f x = true -> List.find f (l ++ [x]) = Some x.
Proof.
  induction 1 as [| y rest Hy _ IH]; intros Hx; cbn; [now rewrite Hx |].
  rewrite Hy. now apply IH.
Qed.

Lemma new_row_clean (fields : list FieldDef) (newId : Z) (rowData : Obj) :
  0 <= newId ->
  (forall k v, get rowData k = Some v -> clean v) ->
  Forall clean (TextFile.new_row fields newId rowData).
Proof.
  intros Hid Hpayload. unfold TextFile.new_row. apply Forall_map.
  apply Forall_forall. intros f _.
  destruct (toLowerCase (name f) =? "id")%string.
  - apply digits_clean. now apply String_of_Z_digits.
  - unfold get_or_empty. destruct (get rowData (name f)) as [v |] eqn:Hv.
    + now apply (Hpayload (name f)).
    + repeat split.
Qed.

(** After [insertRow] of a payload of clean values into a table whose
    first field is the id, the table read back is the old rows followed
    by the new row, [getRowById] with the new id returns the new row, and
    the largest id of the table is the new id. *)
(** X11. The ids of the file being in the range of exact numbers and
    no header field bearing an inherited property name: after
    [insertRow], the table read back holds the old rows followed by the
    new row, [getRowById] finds the new row under the assigned id, and
    that id is the largest of the table. *)
Theorem insertRow_then_getRowById
        (p : TextFile.Provider) (fs : gmap string string) (t : string) (rowData : Obj) :
  ids_in_range fs (path p t) = true ->
  (forall hs h, TextFile.headers (fst (readFile p fs t)) = Some hs ->
                In h hs -> inherited (name h) = false) ->
  let fd := fst (readFile p fs t) in
  let newId := largest_id (TextFile.rows fd) + 1 in
  let fs' := snd (TextFile.insertRow path_join p fs t rowData) in
  config_on_one_line p ->
  (forall k v, get rowData k = Some v -> clean v) ->
  (forall hs, TextFile.headers fd = Some hs ->
              exists h rest, hs = h :: rest /\ toLowerCase (name h) = "id") ->
  exists cells found,
    TextFile.rows (fst (readFile p fs' t))
    = (TextFile.rows fd ++ [String_of_Z newId :: cells])%list
    /\ fst (TextFile.getRowById path_join p fs' t (String_of_Z newId)) = Ok found
    /\ TextFile.row found = String_of_Z newId :: cells
    /\ largest_id (TextFile.rows (fst (readFile p fs' t))) = newId.
Proof.
  intros _ _ fd newId fs' Hcfg Hpayload Hidfirst.
  destruct (readFile_healed path_join p fs t) as [Hrows [Hhne Hfirst]].
  fold fd in Hrows, Hhne, Hfirst.
  pose proof (readFile_header_ok path_join p fs t Hcfg) as Hhead. fold fd in Hhead.
  pose proof (largest_id_nonneg (TextFile.rows fd)) as Hpos.
  set (fields := match TextFile.headers fd with
                 | Some hs => hs
                 | None => match TextFile.rows fd with
                           | row0 :: _ => TextFile.positional_fields row0
                           | [] => [TextFile.default_id_field]
                           end
                 end).
  set (newRow := TextFile.new_row fields newId rowData).
  assert (Hfs' : fs' = TextFile.writeFile path_join p (snd (readFile p fs t)) t
                                          (TextFile.rows fd ++ [newRow])
                                          (TextFile.headers fd)).
  { subst fs' newRow fields newId fd. unfold TextFile.insertRow.
    destruct (readFile p fs t) as [fd fs1]. cbn [fst snd].
    rewrite (max_id_from_largest _ 0) by lia.
    now rewrite Z.max_r by apply largest_id_nonneg. }
  assert (Hshape : exists cells, newRow = String_of_Z newId :: cells).
  { subst newRow fields. destruct (TextFile.headers fd) as [hs |] eqn:Hhs.
    - destruct (Hidfirst hs eq_refl) as [h [rest [-> Hname]]].
      cbn. rewrite Hname. cbn. eauto.
    - destruct (TextFile.rows fd) as [| row0 rest] eqn:Hr; [cbn; eauto |].
      inversion Hrows as [| ? ? Hrow0 _]; subst.
      destruct row0 as [| c cs]; [now apply healed_nonempty in Hrow0 |].
      cbn. eauto. }
  destruct Hshape as [cells Hshape].
  assert (Hnew : healed newRow).
  { split; [apply new_row_clean; [lia | assumption] |].
    rewrite Hshape. apply lacks_id_assigned. lia. }
  assert (Hback : TextFile.rows (fst (readFile p fs' t)) = (TextFile.rows fd ++ [newRow])%list).
  { rewrite Hfs'. apply readFile_written.
    - apply Forall_app. split; [assumption | now constructor].
    - exact Hhead.
    - intros Hnone row0 rest Hr.
      destruct (TextFile.rows fd) as [| r0 rs] eqn:Hrs.
      + cbn in Hr. injection Hr as <- _.
        subst newRow fields. rewrite Hnone. cbn.
        rewrite orb_false_r. apply digits_exclude; [reflexivity |].
        apply String_of_Z_digits. lia.
      + cbn in Hr. injection Hr as <- _. now apply (Hfirst Hnone r0 rs). }
  exists cells.
  assert (Hfind : List.find (TextFile.has_id (String_of_Z newId))
                            (TextFile.rows fd ++ [newRow]) = Some newRow).
  { apply find_app_last.
    - apply Forall_forall. intros r Hin.
      unfold TextFile.has_id. destruct (r !! 0%nat) as [r0 |] eqn:Hr0; [| reflexivity].
      destruct (String.eqb_spec r0 (String_of_Z newId)) as [-> | _]; [| reflexivity].
      exfalso.
      assert (Hle : newId <= largest_id (TextFile.rows fd)).
      { eapply largest_id_bound; [| exact Hr0 | apply parseInt_String_of_Z].
        now apply list_elem_of_In. }
      lia.
    - rewrite Hshape. unfold TextFile.has_id. cbn. apply String.eqb_refl. }
  unfold TextFile.getRowById.
  destruct (readFile p fs' t) as [fd' fs2]. cbn [fst] in *.
  rewrite Hback, Hfind. eexists. split; [now rewrite Hshape |].
  split; [reflexivity |]. split; [exact Hshape |].
  rewrite Hshape. apply largest_id_app. lia.
Qed.

End InsertThenRead.

Section HeaderRoundTrip.

Variable path_join : string -> string -> string.

Local Abbreviation readFile := (TextFile.readFile path_join).
Local Abbreviation path := (TextFile.getFilePath path_join).

Lemma truthy_nonempty (s : string) : truthy s = true -> s <> "".
Proof. now destruct s. Qed.

Lemma trimmed_inv (x : string) :
  trim x = x -> x <> "" ->
  (exists c r, x = String c r /\ is_ws c = false) /\ trimEnd x = x.
Proof.
  unfold trim. intros Htrim Hne. pose proof (trimStart_head x) as Hhead.
  destruct (trimStart x) as [| c r] eqn:Hs; [cbn in Htrim; congruence |].
  destruct (trimEnd_head c r Hhead) as [r' Hr']. rewrite Hr' in Htrim. subst x.
  split; [eauto |].
  rewrite (trimStart_inked_head _ _ Hhead) in Hs. injection Hs as <-.
  exact Hr'.
Qed.

Lemma trimEnd_append (a b : string) :
  b <> "" -> trimEnd b = b -> trimEnd (a +:+ b) = a +:+ b.
Proof.
  intros Hne Hb. induction a as [| c r IH]; [exact Hb |].
  rewrite append_cons. cbn [trimEnd]. rewrite IH.
  destruct (r +:+ b) eqn:Hrb; [| reflexivity].
  destruct r; [now rewrite append_nil_l in Hrb | discriminate].
Qed.

Lemma trim_append (a b : string) :
  trim a = a -> a <> "" -> trim b = b -> b <> "" -> trim (a +:+ b) = a +:+ b.
Proof.
  intros Ha Hane Hb Hbne.
  destruct (trimmed_inv a Ha Hane) as [[c [r [-> Hc]]] _].
  destruct (trimmed_inv b Hb Hbne) as [_ Hbe].
  unfold trim. rewrite append_cons, (trimStart_inked_head _ _ Hc), <- append_cons.
  now apply trimEnd_append.
Qed.

Lemma split_two (a b : string) :
  includes colon a = false -> includes colon b = false ->
  split colon (a +:+ String colon b) = [a; b].
Proof.
  intros Ha Hb. now rewrite (split_append_sep _ _ _ Ha), (split_without_sep _ _ Hb).
Qed.

Lemma split_three (a b c : string) :
  includes colon a = false -> includes colon b = false -> includes colon c = false ->
  split colon (a +:+ String colon (b +:+ String colon c)) = [a; b; c].
Proof.
  intros Ha Hb Hc.
  now rewrite (split_append_sep _ _ _ Ha), (split_append_sep _ _ _ Hb),
    (split_without_sep _ _ Hc).
Qed.

Lemma header_cell_shape (h : FieldDef) :
  TextFile.header_cell h
  = match type h, luFile h with
    | lu, Some f => if truthy f then name h +:+ String colon ("lu" +:+ String colon f)
                    else name h +:+ String colon (TextFile.getTypeCode (type h))
    | _, _ => name h +:+ String colon (TextFile.getTypeCode (type h))
    end.
Proof.
  unfold TextFile.header_cell.
  destruct (type h), (luFile h) as [f |]; try reflexivity;
    destruct (truthy f); reflexivity.
Qed.

(** One header descriptor, printed and parsed, is the descriptor. *)
Lemma header_field_round_trip (p : TextFile.Provider) (t : string) (h : FieldDef) :
  header_as_read p t h ->
  TextFile.parse_header_field p t (TextFile.header_cell h) = h.
Proof.
  intros [[Htrim [Htruthy [Hcolon _]]] [Hro Hshape]].
  rewrite header_cell_shape. unfold TextFile.parse_header_field.
  destruct h as [nm ty lf ro]. cbn [name type luFile readonly] in *. subst ro.
  destruct ty, lf as [f |]; try contradiction;
    try (rewrite split_two by (try assumption; reflexivity);
         cbn [map lookup list_lookup]; rewrite Htrim, Htruthy;
         cbn; now rewrite Hshape).
  destruct Hshape as [Hft [Hftruthy [Hfcolon _]]]. rewrite Hftruthy.
  rewrite split_three by (try assumption; reflexivity).
  cbn [map lookup list_lookup]. rewrite Htrim, Htruthy, Hft. cbn. now rewrite Hftruthy.
Qed.

Lemma plain_printable (s : string) : plain s -> printable s.
Proof.
  intros [Ht [Hne [_ [Hcm [Hq Hn]]]]]. repeat split; try assumption.
  now apply truthy_nonempty.
Qed.

Lemma code_printable (ty : FieldType) : printable (TextFile.getTypeCode ty).
Proof. destruct ty; repeat split; discriminate. Qed.

Lemma printable_append_colon (a b : string) :
  printable a -> printable b -> printable (a +:+ String colon b).
Proof.
  intros [Ha [Hane [Hacm [Haq Han]]]] [Hb [Hbne [Hbcm [Hbq Hbn]]]].
  assert (Hcb : trim (String colon b) = String colon b).
  { change (String colon b) with (String colon "" +:+ b).
    apply trim_append; [reflexivity | discriminate | assumption | assumption]. }
  split; [| split; [| split; [| split]]].
  - apply trim_append; [assumption | assumption | assumption | discriminate].
  - destruct a; [contradiction | discriminate].
  - rewrite includes_append. cbn. now rewrite Hacm, Hbcm.
  - rewrite includes_append. cbn. now rewrite Haq, Hbq.
  - rewrite includes_append. cbn. now rewrite Han, Hbn.
Qed.

Lemma header_cell_printable (p : TextFile.Provider) (t : string) (h : FieldDef) :
  header_as_read p t h -> printable (TextFile.header_cell h).
Proof.
  intros [Hname [_ Hshape]]. rewrite header_cell_shape.
  apply plain_printable in Hname.
  destruct (type h) eqn:Hty, (luFile h) as [f |]; try contradiction;
    try (apply printable_append_colon; [assumption | apply (code_printable _)]).
  pose proof Hshape as [_ [Hftruthy _]]. rewrite Hftruthy.
  apply printable_append_colon; [assumption |].
  change ("lu" +:+ String colon f) with ("lu" +:+ String colon f).
  apply (printable_append_colon "lu" f); [repeat split; discriminate |].
  now apply plain_printable.
Qed.

Lemma header_cell_plain (p : TextFile.Provider) (t : string) (h : FieldDef) :
  header_as_read p t h ->
  clean (TextFile.header_cell h) /\ includes comma (TextFile.header_cell h) = false.
Proof.
  intros Hh. destruct (header_cell_printable p t h Hh) as [Ht [_ [Hcm [Hq Hn]]]].
  now repeat split.
Qed.

Lemma csv_cell_unquoted (cell : string) :
  clean cell -> includes comma cell = false -> TextFile.csv_cell cell = cell.
Proof.
  intros [_ [Hq Hn]] Hc. unfold TextFile.csv_cell. now rewrite Hc, Hq, Hn.
Qed.

Lemma header_line_parses (p : TextFile.Provider) (t : string) (hs : list FieldDef) :
  hs <> [] ->
  Forall (header_as_read p t) hs ->
  TextFile.parseCSVLine (header_line hs) = map TextFile.header_cell hs
  /\ includes newline (header_line hs) = false.
Proof.
  intros Hne Hall.
  assert (Hcells : Forall clean (map TextFile.header_cell hs)).
  { apply Forall_map. eapply Forall_impl; [exact Hall |].
    intros h Hh. now destruct (header_cell_plain p t h Hh). }
  assert (Hline : header_line hs = csv_line (map TextFile.header_cell hs)).
  { unfold header_line, csv_line. f_equal.
    clear Hne Hcells. induction Hall as [| h rest Hh _ IH]; [reflexivity |].
    cbn [map]. rewrite <- IH. f_equal.
    destruct (header_cell_plain p t h Hh) as [Hcl Hcm].
    symmetry. now apply csv_cell_unquoted. }
  rewrite Hline. split.
  - apply parseCSVLine_csv_line; [| assumption]. now destruct hs.
  - now apply csv_line_newline.
Qed.

(** A table written with a header of descriptors as [readFile] builds
    them is read back with the same header and the same rows. *)
(** X4. A header line written by [writeFile] is read back by
    [readFile] as the same descriptors, names, types and lookup targets,
    together with the rows, when neither the table name nor a field
    name is an inherited property name (for which the lookup
    configuration would answer although it has no such key). *)
Theorem written_header_reads_back
        (p : TextFile.Provider) (fs : gmap string string) (t : string)
        (rows : list TextFile.Row) (hs : list FieldDef) :
  inherited t = false ->
  Forall (fun h => inherited (name h) = false) hs ->
  hs <> [] ->
  Forall (header_as_read p t) hs ->
  Forall healed rows ->
  fst (readFile p (TextFile.writeFile path_join p fs t rows (Some hs)) t)
  = TextFile.mkFileData (Some hs) rows.
Proof.
  intros _ _ Hne Hall Hrows.
  destruct (header_line_parses p t hs Hne Hall) as [Hparse Hnl].
  unfold TextFile.readFile, TextFile.writeFile. rewrite lookup_insert_eq.
  assert (Hlines : file_lines (TextFile.file_content rows (Some hs))
                   = printed_lines rows (Some hs)).
  { apply file_lines_printed; [assumption |]. intros hs' [= <-]. now split. }
  unfold file_lines in Hlines. rewrite Hlines. unfold printed_lines. cbn [app].
  rewrite Hparse.
  assert (Hcolon : existsb (includes colon) (map TextFile.header_cell hs) = true).
  { destruct hs as [| h rest]; [contradiction |]. cbn.
    now rewrite header_cell_colon. }
  rewrite !Hcolon.
  destruct (read_rows_printed rows Hrows [] false 1) as [n' Hread].
  rewrite Hread. cbn. f_equal. f_equal.
  clear Hne Hparse Hnl Hlines Hcolon. induction Hall as [| h rest Hh _ IH]; [reflexivity |].
  cbn [map]. now rewrite IH, header_field_round_trip.
Qed.

End HeaderRoundTrip.

(** * One file per table, one source per call *)

Section OneFile.

Variable path_join : string -> string -> string.

Local Abbreviation getFilePath := (TextFile.getFilePath path_join).
Local Abbreviation readFile := (TextFile.readFile path_join).

Lemma writeFile_other_path (p : TextFile.Provider) (fs : gmap string string) (t path : string)
      (rows : list TextFile.Row) (headers : option (list FieldDef)) :
  path <> getFilePath p t ->
  TextFile.writeFile path_join p fs t rows headers !! path = fs !! path.
Proof.
  intros Hpath. unfold TextFile.writeFile. now rewrite lookup_insert_ne.
Qed.

Lemma readFile_other_path (p : TextFile.Provider) (fs : gmap string string) (t path : string) :
  path <> getFilePath p t ->
  snd (readFile p fs t) !! path = fs !! path.
Proof.
  intros Hpath. unfold TextFile.readFile.
  destruct (fs !! getFilePath p t) as [content |]; [| reflexivity].
  destruct (List.filter _ _) as [| line0 lines']; [reflexivity |].
  destruct (TextFile.read_rows _ _ _ _) as [[rows needsUpdate] nextId].
  destruct needsUpdate; cbn [snd]; [| reflexivity].
  now apply writeFile_other_path.
Qed.

Lemma insertRow_other_path (p : TextFile.Provider) (fs : gmap string string) (t path : string)
      (rowData : Obj) :
  path <> getFilePath p t ->
  snd (TextFile.insertRow path_join p fs t rowData) !! path = fs !! path.
Proof.
  intros Hpath. pose proof (readFile_other_path p fs t path Hpath) as Hread.
  unfold TextFile.insertRow. destruct (readFile p fs t) as [fd fs1].
  cbn [snd] in Hread |- *. now rewrite writeFile_other_path.
Qed.

(** X12. Every operation of the file-backed provider on a table reads and
    writes the file of that table only: each other path of the file
    system holds after the call what it held before. *)
Theorem text_operations_touch_one_file
        (p : TextFile.Provider) (fs : gmap string string) (t id path : string) (rowData : Obj) :
  path <> getFilePath p t ->
  snd (readFile p fs t) !! path = fs !! path
  /\ snd (TextFile.getTableData path_join p fs t) !! path = fs !! path
  /\ snd (TextFile.getRowById path_join p fs t id) !! path = fs !! path
  /\ snd (TextFile.insertRow path_join p fs t rowData) !! path = fs !! path
  /\ snd (TextFile.updateRow path_join p fs t id rowData) !! path = fs !! path
  /\ snd (TextFile.deleteRow path_join p fs t id) !! path = fs !! path.
Proof.
  intros Hpath. pose proof (readFile_other_path p fs t path Hpath) as Hread.
  unfold TextFile.getTableData, TextFile.getRowById, TextFile.insertRow,
    TextFile.updateRow, TextFile.deleteRow.
  destruct (readFile p fs t) as [fd fs1]. cbn [snd] in Hread |- *.
  repeat split; try assumption.
  - destruct (List.find _ _); assumption.
  - now rewrite writeFile_other_path.
  - destruct (findIndex _ _) as [rowIndex |]; [| assumption].
    destruct (TextFile.rows fd) as [| row0 rest]; [assumption |].
    cbn [snd]. now rewrite writeFile_other_path.
  - destruct (_ =? _)%nat; cbn [snd]; [assumption |].
    now rewrite writeFile_other_path.
Qed.

End OneFile.

Section Routing.

Variable path_join : string -> string -> string.
Variable Date_parse_ok : string -> bool.
Variable configured_tables : Outcome (list string).

Local Abbreviation manager_getTableData :=
  (MultiSource.getTableData path_join Date_parse_ok configured_tables).
Local Abbreviation manager_insertRow :=
  (MultiSource.insertRow path_join Date_parse_ok configured_tables).

(** X19. A call for a source id that is not registered throws the error
    that names the id, and leaves the manager, its providers and the
    files, as it was. *)
Theorem unknown_source_is_refused
        (m : MultiSource.Manager) (sourceId tableName : string) (row : Obj) :
  MultiSource.providers m !! sourceId = None ->
  manager_getTableData m sourceId tableName
  = (Throw ("Data source not found: " +:+ sourceId), m)
  /\ manager_insertRow m sourceId tableName row
     = (Throw ("Data source not found: " +:+ sourceId), m).
Proof.
  intros Hnone.
  unfold MultiSource.getTableData, MultiSource.insertRow, MultiSource.getProvider.
  now rewrite Hnone.
Qed.

(** X20. An insert routed to one source stays within it: the provider of
    every other source id is the one it was, a call to a remote source
    changes no file, and a call to a file-backed source changes no file
    but the one of the table. *)
Theorem insert_stays_within_its_source
        (m : MultiSource.Manager) (sourceId tableName : string) (row : Obj) :
  let m' := snd (manager_insertRow m sourceId tableName row) in
  (forall other, other <> sourceId ->
                 MultiSource.providers m' !! other = MultiSource.providers m !! other)
  /\ (forall c p, MultiSource.providers m !! sourceId = Some (MultiSource.Remote c p) ->
                  MultiSource.files m' = MultiSource.files m)
  /\ (forall p path,
         MultiSource.providers m !! sourceId = Some (MultiSource.TextFiles p) ->
         path <> TextFile.getFilePath path_join p tableName ->
         MultiSource.providers m' = MultiSource.providers m
         /\ MultiSource.files m' !! path = MultiSource.files m !! path).
Proof.
  cbv zeta. unfold MultiSource.insertRow, MultiSource.getProvider.
  destruct (MultiSource.providers m !! sourceId) as [[p | c p] |] eqn:Hprov.
  - pose proof (insertRow_other_path path_join p (MultiSource.files m) tableName) as Hframe.
    destruct (TextFile.insertRow path_join p (MultiSource.files m) tableName row)
      as [r fs1] eqn:Hins.
    cbn [snd MultiSource.providers MultiSource.files].
    split; [reflexivity |]. split; [discriminate |].
    intros q path Hq Hpath. injection Hq as <-. split; [reflexivity |].
    pose proof (Hframe path row Hpath) as Hinsert.
    rewrite Hins in Hinsert. exact Hinsert.
  - destruct (Supabase.insertRow _ _ c p tableName _) as [r p1].
    cbn [snd MultiSource.providers MultiSource.files].
    split; [| split]; [| reflexivity | discriminate].
    intros other Hother. now rewrite lookup_insert_ne.
  - cbn [snd]. split; [reflexivity |]. split; discriminate.
Qed.

End Routing.

(** * Schema discovery and payloads of the remote provider *)

Section RemoteSchemaFacts.

Variable Date_parse_ok : string -> bool.
Variable configured_tables : Outcome (list string).

Local Abbreviation discoverTableSchema := (Supabase.discoverTableSchema Date_parse_ok).

Lemma column_field_name (p : Supabase.Provider) (fks : gmap string Supabase.ForeignKey)
      (t columnName : string) (value : Supabase.Value) :
  name (Supabase.column_field Date_parse_ok p fks t columnName value) = columnName
  /\ readonly (Supabase.column_field Date_parse_ok p fks t columnName value)
     = Some (columnName =? "id")%string.
Proof.
  unfold Supabase.column_field.
  destruct (fks !! columnName); [now split |].
  destruct (manual_lookup _ _ _); now split.
Qed.

Lemma sample_fields_names (p : Supabase.Provider) (fks : gmap string Supabase.ForeignKey)
      (t : string) (sample : Supabase.Record_) :
  map name (Supabase.sample_fields Date_parse_ok p fks t sample)
  = List.filter (fun k => negb (audit_column k)) (map fst sample).
Proof.
  unfold Supabase.sample_fields, audit_column.
  induction sample as [| [k v] rest IH]; [reflexivity |].
  cbn [flat_map map List.filter fst].
  destruct ((k =? "created_at")%string || (k =? "updated_at")%string); cbn [negb app map].
  - exact IH.
  - rewrite IH. f_equal. apply column_field_name.
Qed.

Lemma sample_fields_readonly (p : Supabase.Provider) (fks : gmap string Supabase.ForeignKey)
      (t : string) (sample : Supabase.Record_) :
  Forall (fun f => readonly f = Some (name f =? "id")%string)
         (Supabase.sample_fields Date_parse_ok p fks t sample).
Proof.
  unfold Supabase.sample_fields.
  induction sample as [| [k v] rest IH]; [constructor |].
  cbn [flat_map]. destruct (_ || _); cbn [app]; [exact IH |].
  constructor; [| exact IH].
  destruct (column_field_name p fks t k v) as [-> ->]. reflexivity.
Qed.

Lemma id_first_In (fields : list FieldDef) (f : FieldDef) :
  In f (Supabase.id_first fields) <-> In f fields.
Proof.
  unfold Supabase.id_first. rewrite in_app_iff, !filter_In.
  destruct (name f =? "id")%string; cbn; tauto.
Qed.

Lemma id_first_head (fields : list FieldDef) :
  In "id" (map name fields) ->
  exists f rest, Supabase.id_first fields = f :: rest /\ name f = "id".
Proof.
  intros Hin. apply in_map_iff in Hin as [f [Hname Hin]].
  assert (Hf : In f (List.filter (fun f => (name f =? "id")%string) fields)).
  { apply filter_In. split; [assumption |]. now apply String.eqb_eq. }
  unfold Supabase.id_first.
  destruct (List.filter (fun f => (name f =? "id")%string) fields) as [| g rest] eqn:Hfilter;
    [destruct Hf |].
  exists g, (rest ++ List.filter (fun f => negb (name f =? "id")%string) fields)%list.
  split; [reflexivity |].
  assert (Hg : In g (List.filter (fun f => (name f =? "id")%string) fields))
    by (rewrite Hfilter; now left).
  apply filter_In in Hg as [_ Hg]. now apply String.eqb_eq.
Qed.

(** What a first, successful discovery resolves to. *)
Lemma discoverTableSchema_fresh
      (c : Supabase.Client) (p : Supabase.Provider) (t : string)
      (sample : Supabase.Record_) (others : list Supabase.Record_) :
  Supabase.schemaCache p !! t = None ->
  Supabase.select_limit_1 c t = Ok (Supabase.mkResponse (Some (sample :: others)) None) ->
  exists fks p1,
    Supabase.discoverForeignKeys c p t = (fks, p1)
    /\ discoverTableSchema c p t
       = (Supabase.id_first (Supabase.sample_fields Date_parse_ok p1 fks t sample),
          Supabase.set_schemaCache p1
            (<[t := Supabase.id_first (Supabase.sample_fields Date_parse_ok p1 fks t sample)]>
               (Supabase.schemaCache p1))).
Proof.
  intros Hcache Hsel. unfold Supabase.discoverTableSchema. rewrite Hcache.
  destruct (Supabase.discoverForeignKeys c p t) as [fks p1]. exists fks, p1.
  split; [reflexivity |]. now rewrite Hsel.
Qed.



(** X17. Every row of the remote [getTableData] has one cell per heading,
    and there is one row per record of the answer. *)
Theorem remote_rows_fit_headings
        (c : Supabase.Client) (p p' : Supabase.Provider) (t : string)
        (table : TableData (option Supabase.Value)) :
  Supabase.getTableData Date_parse_ok configured_tables c p t = (Ok table, p') ->
  Forall (fun row => length row = length (headings table)) (Schema.rows table)
  /\ exists records,
      Supabase.select_order_by_id c t = Ok (Supabase.mkResponse (Some records) None)
      /\ length (Schema.rows table) = length records.
Proof.
  intros Hget.
  destruct (remote_getTableData_rows _ _ c p p' t table Hget) as [records [Hsel Hrows]].
  rewrite Hrows. split.
  - apply Forall_map. apply Forall_forall. intros r _.
    unfold Supabase.project. apply length_map.
  - exists records. split; [assumption | apply length_map].
Qed.



End RemoteSchemaFacts.

(** * The table list of the remote provider *)

Section RemoteMetadataFacts.

Variable Date_parse_ok : string -> bool.
Variable configured_tables : Outcome (list string).

Local Abbreviation discoverTables := (Supabase.discoverTables Date_parse_ok configured_tables).
Local Abbreviation discoverTablesFromConfig :=
  (Supabase.discoverTablesFromConfig Date_parse_ok configured_tables).
Local Abbreviation getTableMetadata :=
  (Supabase.getTableMetadata Date_parse_ok configured_tables).
Local Abbreviation remote_getTableData :=
  (Supabase.getTableData Date_parse_ok configured_tables).


Lemma discoverTablesFromConfig_throws (c : Supabase.Client) (p p1 : Supabase.Provider)
      (m : string) :
  discoverTablesFromConfig c p = (Throw m, p1) -> p1 = p /\ configured_tables = Throw m.
Proof.
  unfold Supabase.discoverTablesFromConfig.
  destruct configured_tables as [[| n names] | m']; [discriminate | |].
  - destruct (Supabase.discover_each _ c p (n :: names) ∅) as [ts p2]. discriminate.
  - intros [= <- <-]. now split.
Qed.



Lemma discoverTables_without_config (c : Supabase.Client) (p : Supabase.Provider) (m : string) :
  Supabase.metadataCache p = None ->
  no_public_tables c ->
  configured_tables = Throw m ->
  discoverTables c p = (Throw m, p).
Proof.
  intros Hcache Hrpc Hcfg. unfold Supabase.discoverTables. rewrite Hcache.
  assert (Hfrom : forall q, discoverTablesFromConfig c q = (Throw m, q)).
  { intros q. unfold Supabase.discoverTablesFromConfig. now rewrite Hcfg. }
  unfold no_public_tables in Hrpc.
  destruct (Supabase.rpc_get_public_tables c) as [[[[| n names] |] [e |]] | m'];
    cbn [Supabase.error Supabase.data]; try contradiction; rewrite ?Hfrom; try reflexivity;
    apply Hfrom.
Qed.

(** X26. When the table list of the service does not arrive and reading
    the configured tables throws, every data call of the remote
    provider throws that error under its own prefix, and the provider
    is left as it was. *)
Theorem remote_calls_fail_without_table_list
        (c : Supabase.Client) (p : Supabase.Provider) (t m : string)
        (id : Supabase.Value) (rowData : gmap string Supabase.Value) :
  Supabase.metadataCache p = None ->
  no_public_tables c ->
  configured_tables = Throw m ->
  remote_getTableData c p t = (Throw ("Failed to fetch data: " +:+ m), p)
  /\ Supabase.insertRow Date_parse_ok configured_tables c p t rowData
     = (Throw ("Failed to insert row: " +:+ m), p)
  /\ Supabase.updateRow Date_parse_ok configured_tables c p t id rowData
     = (Throw ("Failed to update row: " +:+ m), p).
Proof.
  intros Hcache Hrpc Hcfg.
  pose proof (discoverTables_without_config c p m Hcache Hrpc Hcfg) as Hall.
  unfold Supabase.getTableData, Supabase.insertRow, Supabase.updateRow,
    Supabase.getTableMetadata.
  rewrite Hall. repeat split.
Qed.

End RemoteMetadataFacts.

(** * The caches of the remote provider *)

Section RemoteCacheFacts.

Variable Date_parse_ok : string -> bool.
Variable configured_tables : Outcome (list string).

Local Abbreviation discoverTableSchema := (Supabase.discoverTableSchema Date_parse_ok).
Local Abbreviation discoverTables := (Supabase.discoverTables Date_parse_ok configured_tables).
Local Abbreviation discoverTablesFromConfig :=
  (Supabase.discoverTablesFromConfig Date_parse_ok configured_tables).
Local Abbreviation remote_getTableData :=
  (Supabase.getTableData Date_parse_ok configured_tables).
Local Abbreviation later := (after_calls Date_parse_ok configured_tables).

Lemma keeps_caches_refl (p : Supabase.Provider) : keeps_caches p p.
Proof. repeat split; auto. Qed.

Lemma keeps_caches_trans (p q r : Supabase.Provider) :
  keeps_caches p q -> keeps_caches q r -> keeps_caches p r.
Proof.
  intros [Hs [Hf Hm]] [Hs' [Hf' Hm']]. repeat split; auto.
Qed.

Lemma discoverForeignKeys_keeps (c : Supabase.Client) (p : Supabase.Provider) (t : string) :
  keeps_caches p (snd (Supabase.discoverForeignKeys c p t)).
Proof.
  unfold Supabase.discoverForeignKeys.
  destruct (Supabase.foreignKeyCache p !! t) as [cached |] eqn:Hcache;
    [apply keeps_caches_refl |].
  destruct (Supabase.rpc_get_foreign_keys c t) as [[d [e |]] | m];
    cbn [Supabase.error snd]; try apply keeps_caches_refl.
  repeat split; cbn; auto.
  intros t' fks Ht'. destruct (String.eqb_spec t t') as [<- | Hne]; [congruence |].
  now rewrite lookup_insert_ne.
Qed.

Lemma discoverTableSchema_keeps (c : Supabase.Client) (p : Supabase.Provider) (t : string) :
  keeps_caches p (snd (discoverTableSchema c p t)).
Proof.
  unfold Supabase.discoverTableSchema.
  destruct (Supabase.schemaCache p !! t) as [cached |] eqn:Hcache;
    [apply keeps_caches_refl |].
  pose proof (discoverForeignKeys_keeps c p t) as Hfk.
  destruct (Supabase.discoverForeignKeys c p t) as [fks p1]. cbn [snd] in Hfk.
  destruct Hfk as [Hs [Hf Hm]].
  assert (Hput : forall fields,
             keeps_caches p (Supabase.set_schemaCache p1
                               (<[t := fields]> (Supabase.schemaCache p1)))).
  { intros fields. repeat split; cbn; auto.
    intros t' fs' Ht'. destruct (String.eqb_spec t t') as [<- | Hne]; [congruence |].
    rewrite lookup_insert_ne by assumption. now apply Hs. }
  destruct (Supabase.select_limit_1 c t) as [[[[| s o] |] [e |]] | m];
    cbn [Supabase.error Supabase.data snd]; try (repeat split; assumption); apply Hput.
Qed.

Lemma discover_each_keeps (c : Supabase.Client) (names : list string) :
  forall (p : Supabase.Provider) (tables : gmap string Supabase.TableMeta),
    keeps_caches p (snd (Supabase.discover_each Date_parse_ok c p names tables)).
Proof.
  induction names as [| n rest IH]; intros p tables; cbn [Supabase.discover_each];
    [apply keeps_caches_refl |].
  pose proof (discoverTableSchema_keeps c p n) as Hn.
  destruct (discoverTableSchema c p n) as [fields p1]. cbn [snd] in Hn.
  eapply keeps_caches_trans; [exact Hn | apply IH].
Qed.

Lemma set_metadataCache_keeps (p q : Supabase.Provider) (tables : gmap string Supabase.TableMeta) :
  Supabase.metadataCache p = None ->
  keeps_caches p q ->
  keeps_caches p (Supabase.set_metadataCache q (Some tables)).
Proof.
  intros Hnone [Hs [Hf Hm]]. repeat split; cbn; auto. congruence.
Qed.

Lemma discoverTablesFromConfig_keeps (c : Supabase.Client) (p : Supabase.Provider) :
  Supabase.metadataCache p = None ->
  keeps_caches p (snd (discoverTablesFromConfig c p)).
Proof.
  intros Hnone. unfold Supabase.discoverTablesFromConfig.
  destruct configured_tables as [[| n names] | m]; cbn [snd]; try apply keeps_caches_refl.
  pose proof (discover_each_keeps c (n :: names) p ∅) as Heach.
  destruct (Supabase.discover_each _ c p (n :: names) ∅) as [ts p1]. cbn [snd] in *.
  now apply set_metadataCache_keeps.
Qed.

Lemma discoverTables_keeps (c : Supabase.Client) (p : Supabase.Provider) :
  keeps_caches p (snd (discoverTables c p)).
Proof.
  unfold Supabase.discoverTables.
  destruct (Supabase.metadataCache p) as [cached |] eqn:Hcache;
    [apply keeps_caches_refl |].
  assert (Hfallback :
            keeps_caches p (snd match discoverTablesFromConfig c p with
                                | (Throw _, p2) => discoverTablesFromConfig c p2
                                | r => r
                                end)).
  { pose proof (discoverTablesFromConfig_keeps c p Hcache) as Hfirst.
    destruct (discoverTablesFromConfig c p) as [[ts | m] p2] eqn:Hcfg; [exact Hfirst |].
    apply (discoverTablesFromConfig_throws Date_parse_ok configured_tables c p p2 m) in Hcfg as [-> _].
    now apply discoverTablesFromConfig_keeps. }
  destruct (Supabase.rpc_get_public_tables c) as [[d [e |]] | m];
    cbn [Supabase.error Supabase.data]; try exact Hfallback.
  - destruct d as [[| n names] |]; try exact Hfallback.
    pose proof (discover_each_keeps c (n :: names) p ∅) as Heach.
    destruct (Supabase.discover_each _ c p (n :: names) ∅) as [ts p1]. cbn [snd] in *.
    now apply set_metadataCache_keeps.
  - now apply discoverTablesFromConfig_keeps.
Qed.

Lemma getTableMetadata_state (c : Supabase.Client) (p : Supabase.Provider) (t : string) :
  snd (Supabase.getTableMetadata Date_parse_ok configured_tables c p t)
  = snd (discoverTables c p).
Proof.
  unfold Supabase.getTableMetadata.
  destruct (discoverTables c p) as [[tables | m] p1]; reflexivity.
Qed.

Lemma getTableData_state (c : Supabase.Client) (p : Supabase.Provider) (t : string) :
  snd (remote_getTableData c p t) = snd (discoverTables c p).
Proof.
  unfold Supabase.getTableData, Supabase.getTableMetadata.
  destruct (discoverTables c p) as [[tables | m] p1]; [| reflexivity].
  destruct (tables !! t) as [metadata |]; [| reflexivity].
  destruct (Supabase.select_order_by_id c t) as [[[records |] [e |]] | m]; reflexivity.
Qed.

Lemma insertRow_state (c : Supabase.Client) (p : Supabase.Provider) (t : string)
      (rowData : gmap string Supabase.Value) :
  snd (Supabase.insertRow Date_parse_ok configured_tables c p t rowData)
  = snd (discoverTables c p).
Proof.
  unfold Supabase.insertRow, Supabase.getTableMetadata.
  destruct (discoverTables c p) as [[tables | m] p1]; [| reflexivity].
  destruct (tables !! t) as [metadata |]; [| reflexivity].
  cbv zeta. destruct (Supabase.insert c t _) as [[d [e |]] | m]; reflexivity.
Qed.

Lemma updateRow_state (c : Supabase.Client) (p : Supabase.Provider) (t : string)
      (id : Supabase.Value) (rowData : gmap string Supabase.Value) :
  snd (Supabase.updateRow Date_parse_ok configured_tables c p t id rowData)
  = snd (discoverTables c p).
Proof.
  unfold Supabase.updateRow, Supabase.getTableMetadata.
  destruct (discoverTables c p) as [[tables | m] p1]; [| reflexivity].
  destruct (tables !! t) as [metadata |]; [| reflexivity].
  cbv zeta. destruct (Supabase.update_eq_id c t _ id) as [[d [e |]] | m]; reflexivity.
Qed.

Lemma after_call_keeps (c : Supabase.Client) (p : Supabase.Provider) (call : RemoteCall) :
  keeps_caches p (after_call Date_parse_ok configured_tables c p call).
Proof.
  destruct call as [t | t | | t | t | t rowData | t id rowData]; cbn [after_call].
  - apply discoverTableSchema_keeps.
  - apply discoverForeignKeys_keeps.
  - apply discoverTables_keeps.
  - rewrite getTableMetadata_state. apply discoverTables_keeps.
  - rewrite getTableData_state. apply discoverTables_keeps.
  - rewrite insertRow_state. apply discoverTables_keeps.
  - rewrite updateRow_state. apply discoverTables_keeps.
Qed.

(** The methods of the provider only add to its caches. *)
Lemma after_calls_keeps (calls : list (Supabase.Client * RemoteCall)) :
  forall p, keeps_caches p (later p calls).
Proof.
  induction calls as [| [c call] rest IH]; intros p; cbn [after_calls];
    [apply keeps_caches_refl |].
  eapply keeps_caches_trans; [apply after_call_keeps | apply IH].
Qed.

Lemma map_name_filter (P : string -> bool) (l : list FieldDef) :
  map name (List.filter (fun f => P (name f)) l) = List.filter P (map name l).
Proof.
  induction l as [| f rest IH]; [reflexivity |].
  cbn [List.filter map]. destruct (P (name f)); cbn [map]; now rewrite IH.
Qed.

Lemma id_first_names (l : list FieldDef) :
  map name (Supabase.id_first l)
  = (List.filter (fun k => (k =? "id")%string) (map name l)
     ++ List.filter (fun k => negb (k =? "id")%string) (map name l))%list.
Proof.
  unfold Supabase.id_first. rewrite map_app.
  rewrite (map_name_filter (fun k => (k =? "id")%string)).
  now rewrite (map_name_filter (fun k => negb (k =? "id")%string)).
Qed.

Lemma NoDup_partition (P : string -> bool) (l : list string) :
  List.NoDup l ->
  List.NoDup (List.filter P l ++ List.filter (fun k => negb (P k)) l)%list.
Proof.
  induction 1 as [| x l Hx Hl IH]; cbn [List.filter]; [constructor |].
  destruct (P x) eqn:Hp; cbn [negb app].
  - constructor; [| exact IH].
    rewrite in_app_iff, !filter_In. tauto.
  - apply List.NoDup_Add with (a := x) (l := (List.filter P l
                                               ++ List.filter (fun k => negb (P k)) l)%list).
    + apply List.Add_app.
    + split; [exact IH |]. rewrite in_app_iff, !filter_In. tauto.
Qed.

(** X13. A first discovery from a sample row gives exactly one
    descriptor per column of the row other than the audit columns, and
    none for those: the names of the descriptors are the names of these
    columns, [id] in front and the others in the order of the row, as
    many as there are columns and without repetition.  A descriptor is
    readonly exactly when its name is [id], and the result is stored in
    the schema cache. *)
Theorem discovered_schema_shape
        (c : Supabase.Client) (p : Supabase.Provider) (t : string)
        (sample : Supabase.Record_) (others : list Supabase.Record_) :
  inherited t = false ->
  Supabase.schemaCache p !! t = None ->
  Supabase.select_limit_1 c t = Ok (Supabase.mkResponse (Some (sample :: others)) None) ->
  let fields := fst (discoverTableSchema c p t) in
  let columns := List.filter (fun k => negb (audit_column k)) (map fst sample) in
  map name fields
  = (List.filter (fun k => (k =? "id")%string) columns
     ++ List.filter (fun k => negb (k =? "id")%string) columns)%list
  /\ length fields = length columns
  /\ (List.NoDup (map fst sample) -> List.NoDup (map name fields))
  /\ (forall k, In k (map name fields) <-> In k (map fst sample) /\ audit_column k = false)
  /\ Forall (fun f => readonly f = Some (name f =? "id")%string) fields
  /\ (In "id" (map fst sample) -> exists f rest, fields = f :: rest /\ name f = "id")
  /\ Supabase.schemaCache (snd (discoverTableSchema c p t)) !! t = Some fields.
Proof.
  intros _ Hcache Hsel.
  destruct (discoverTableSchema_fresh Date_parse_ok c p t sample others Hcache Hsel)
    as [fks [p1 [_ Heq]]].
  rewrite Heq. cbn [fst snd].
  set (raw := Supabase.sample_fields Date_parse_ok p1 fks t sample).
  assert (Hraw : map name raw
                 = List.filter (fun k => negb (audit_column k)) (map fst sample))
    by apply sample_fields_names.
  assert (Hnames : forall k, In k (map name raw)
                             <-> In k (map fst sample) /\ audit_column k = false).
  { intros k. rewrite Hraw, filter_In, negb_true_iff. tauto. }
  assert (Horder : map name (Supabase.id_first raw)
                   = (List.filter (fun k => (k =? "id")%string)
                                  (List.filter (fun k => negb (audit_column k)) (map fst sample))
                      ++ List.filter (fun k => negb (k =? "id")%string)
                                     (List.filter (fun k => negb (audit_column k))
                                                  (map fst sample)))%list)
    by (rewrite id_first_names; now rewrite Hraw).
  split; [exact Horder |]. split; [| split; [| split; [| split; [| split]]]].
  - rewrite <- Hraw, <- (length_map name (Supabase.id_first raw)), id_first_names.
    rewrite length_app.
    clear. induction (map name raw) as [| k rest IH]; [reflexivity |].
    cbn [List.filter]. destruct (k =? "id")%string; cbn [negb length]; lia.
  - intros Hnodup. rewrite Horder.
    apply (List.NoDup_filter (fun k => negb (audit_column k))) in Hnodup.
    now apply NoDup_partition.
  - intros k. rewrite <- Hnames. rewrite !in_map_iff.
    split; intros [f [Hn Hf]]; exists f; (split; [assumption |]);
      [apply (proj1 (id_first_In _ _)) | apply (proj2 (id_first_In _ _))]; assumption.
  - apply List.Forall_forall. intros f Hf. apply (proj1 (id_first_In _ _)) in Hf.
    pose proof (sample_fields_readonly Date_parse_ok p1 fks t sample) as Hro.
    rewrite List.Forall_forall in Hro. subst raw. exact (Hro f Hf).
  - intros Hid. apply id_first_head. apply Hnames. split; [assumption | reflexivity].
  - cbn. apply lookup_insert_eq.
Qed.

(** X14. Once discovered from a sample row, the schema of a table stays
    in the cache through every later call of the provider's methods,
    for any tables and whatever the service answers then: a
    [discoverTableSchema] after them returns the same descriptors and
    leaves the provider as it is. *)
Theorem discovered_schema_is_cached
        (c c' : Supabase.Client) (p : Supabase.Provider) (t : string)
        (sample : Supabase.Record_) (others : list Supabase.Record_)
        (calls : list (Supabase.Client * RemoteCall)) :
  inherited t = false ->
  Supabase.schemaCache p !! t = None ->
  Supabase.select_limit_1 c t = Ok (Supabase.mkResponse (Some (sample :: others)) None) ->
  let q := later (snd (discoverTableSchema c p t)) calls in
  discoverTableSchema c' q t = (fst (discoverTableSchema c p t), q).
Proof.
  intros _ Hcache Hsel q.
  destruct (discoverTableSchema_fresh Date_parse_ok c p t sample others Hcache Hsel)
    as [fks [p1 [_ Heq]]].
  assert (Hentry : Supabase.schemaCache q !! t = Some (fst (discoverTableSchema c p t))).
  { destruct (after_calls_keeps calls (snd (discoverTableSchema c p t))) as [Hs _].
    apply Hs. rewrite Heq. cbn. apply lookup_insert_eq. }
  unfold Supabase.discoverTableSchema at 1. now rewrite Hentry.
Qed.

(** X16. A failed foreign-key query gives no foreign keys and is not
    cached.  The answer of a successful one stays in the cache through
    every later call of the provider's methods: a [discoverForeignKeys]
    after them returns the same map, whatever the service answers then,
    and leaves the provider as it is. *)
Theorem foreign_keys_cache_only_answers
        (c c' : Supabase.Client) (p : Supabase.Provider) (t : string)
        (calls : list (Supabase.Client * RemoteCall)) :
  inherited t = false ->
  Supabase.foreignKeyCache p !! t = None ->
  match Supabase.rpc_get_foreign_keys c t with
  | Ok (Supabase.mkResponse _ None) =>
      let q := later (snd (Supabase.discoverForeignKeys c p t)) calls in
      Supabase.discoverForeignKeys c' q t = (fst (Supabase.discoverForeignKeys c p t), q)
  | _ => Supabase.discoverForeignKeys c p t = (∅, p)
  end.
Proof.
  intros _ Hcache.
  assert (Hfirst : Supabase.discoverForeignKeys c p t
                   = match Supabase.rpc_get_foreign_keys c t with
                     | Ok (Supabase.mkResponse d None) =>
                         let fks := match d with
                                    | Some rows =>
                                        fold_left
                                          (fun acc fk =>
                                             <[Supabase.column_name fk :=
                                                 Supabase.mkForeignKey
                                                   (Supabase.foreign_table_name fk)
                                                   (Supabase.foreign_column_name fk)]> acc)
                                          rows ∅
                                    | None => ∅
                                    end in
                         (fks, Supabase.set_foreignKeyCache p
                                 (<[t := fks]> (Supabase.foreignKeyCache p)))
                     | _ => (∅, p)
                     end).
  { unfold Supabase.discoverForeignKeys. rewrite Hcache.
    destruct (Supabase.rpc_get_foreign_keys c t) as [[d [e |]] | m]; reflexivity. }
  destruct (Supabase.rpc_get_foreign_keys c t) as [[d [e |]] | m]; try exact Hfirst.
  intros q.
  assert (Hentry : Supabase.foreignKeyCache q !! t
                   = Some (fst (Supabase.discoverForeignKeys c p t))).
  { destruct (after_calls_keeps calls (snd (Supabase.discoverForeignKeys c p t)))
      as [_ [Hf _]].
    apply Hf. rewrite Hfirst. cbn. apply lookup_insert_eq. }
  unfold Supabase.discoverForeignKeys at 1. now rewrite Hentry.
Qed.


End RemoteCacheFacts.

(** * Escaping, login and sessions *)

Section HtmlFacts.

Lemma replace_all_append (c : ascii) (by_ a b : string) :
  Html.replace_all c by_ (a +:+ b) = Html.replace_all c by_ a +:+ Html.replace_all c by_ b.
Proof.
  induction a as [| x a IH]; [reflexivity |].
  rewrite append_cons. cbn [Html.replace_all]. rewrite IH.
  destruct (Ascii.eqb x c); [| reflexivity].
  now rewrite append_assoc.
Qed.

Lemma replace_all_entity (c : ascii) :
  Html.replace_all "'" "&#39;"
    (Html.replace_all JS.dquote "&quot;"
       (Html.replace_all ">" "&gt;"
          (Html.replace_all "<" "&lt;"
             (Html.replace_all "&" "&amp;" (String c EmptyString)))))
  = entity c.
Proof.
  unfold entity. cbn [Html.replace_all].
  destruct (Ascii.eqb c "&") eqn:Hamp; [reflexivity |].
  cbn [Html.replace_all].
  destruct (Ascii.eqb c "<") eqn:Hlt; [reflexivity |].
  cbn [Html.replace_all].
  destruct (Ascii.eqb c ">") eqn:Hgt; [reflexivity |].
  cbn [Html.replace_all].
  destruct (Ascii.eqb c JS.dquote) eqn:Hdq; [reflexivity |].
  cbn [Html.replace_all].
  destruct (Ascii.eqb c "'") eqn:Hsq; reflexivity.
Qed.

Lemma escapeHtml_cons (c : ascii) (rest : string) :
  Html.escapeHtml (Some (String c rest)) = entity c +:+ Html.escapeHtml (Some rest).
Proof.
  unfold Html.escapeHtml.
  change (String c rest) with (String c EmptyString +:+ rest).
  rewrite !replace_all_append. now rewrite replace_all_entity.
Qed.

Lemma forallb_string_append (f : ascii -> bool) (a b : string) :
  forallb_string f (a +:+ b) = forallb_string f a && forallb_string f b.
Proof.
  induction a as [| x a IH]; [reflexivity |].
  rewrite append_cons. cbn [forallb_string]. rewrite IH. now rewrite andb_assoc.
Qed.

Lemma entity_without_markup (c : ascii) :
  forallb_string (fun x => negb (markup x)) (entity c) = true.
Proof.
  unfold entity.
  destruct (Ascii.eqb c "&"); [reflexivity |].
  destruct (Ascii.eqb c "<") eqn:Hlt; [reflexivity |].
  destruct (Ascii.eqb c ">") eqn:Hgt; [reflexivity |].
  destruct (Ascii.eqb c JS.dquote) eqn:Hdq; [reflexivity |].
  destruct (Ascii.eqb c "'") eqn:Hsq; [reflexivity |].
  cbn [forallb_string]. unfold markup. now rewrite Hlt, Hgt, Hdq, Hsq.
Qed.

Lemma escapeHtml_each (s : string) : Html.escapeHtml (Some s) = escape_each s.
Proof.
  induction s as [| c rest IH]; [reflexivity |].
  rewrite escapeHtml_cons, IH. reflexivity.
Qed.

Lemma escape_each_without_markup (s : string) :
  forallb_string (fun x => negb (markup x)) (escape_each s) = true.
Proof.
  induction s as [| c rest IH]; [reflexivity |].
  cbn [escape_each]. now rewrite forallb_string_append, entity_without_markup.
Qed.

(** X24. The five replacements of [escapeHtml], one after the other, escape
    each character of the text once: no later replacement touches what
    an earlier one produced.  The result holds no angle bracket and no
    quote character. *)
Theorem escapeHtml_escapes_each_character_once (s : string) :
  Html.escapeHtml (Some s) = escape_each s
  /\ forallb_string (fun x => negb (markup x)) (Html.escapeHtml (Some s)) = true.
Proof.
  split; [apply escapeHtml_each |].
  rewrite escapeHtml_each. apply escape_each_without_markup.
Qed.

End HtmlFacts.

Section AuthFacts.

Variable signInWithPassword : Supabase.Client -> string -> string -> Outcome Auth.SignIn.

Local Abbreviation provider_login := (Auth.provider_login signInWithPassword).
Local Abbreviation manager_login := (Auth.login signInWithPassword).
Local Abbreviation post_login := (Auth.post_login signInWithPassword).

Local Abbreviation refused := (refused signInWithPassword).

(** X21. The manager's [login] answers with the result of the first
    provider, in registration order, whose own [login] succeeds; when
    every provider refuses, it answers with its own error text and
    drops the providers' messages. *)
Theorem login_first_success_wins
        (values : list MultiSource.AnyProvider) (email password : string) :
  match manager_login values email password with
  | Auth.Success u =>
      exists before provider after,
        values = (before ++ provider :: after)%list
        /\ provider_login provider email password = Auth.Success u
        /\ Forall (refused email password) before
  | Auth.Failed e =>
      e = "Invalid credentials" /\ Forall (refused email password) values
  end.
Proof.
  induction values as [| provider rest IH]; cbn [Auth.login].
  - split; [reflexivity | constructor].
  - destruct (provider_login provider email password) as [u | e] eqn:Hp.
    + exists [], provider, rest. repeat split; [assumption | constructor].
    + destruct (manager_login rest email password) as [u | e'].
      * destruct IH as [before [q [after [Hvalues [Hq Hbefore]]]]].
        exists (provider :: before), q, after. split; [now rewrite Hvalues |].
        split; [assumption |]. constructor; [now exists e | assumption].
      * destruct IH as [He Hall]. split; [assumption |].
        constructor; [now exists e | assumption].
Qed.

Lemma text_login_succeeds (p : TextFile.Provider) (email password : string) :
  exists u, provider_login (MultiSource.TextFiles p) email password = Auth.Success u.
Proof.
  unfold Auth.provider_login, TextFile.login.
  destruct (negb (TextFile.authRequired p)); cbn; eauto.
Qed.

Lemma login_with_text_source
      (values : list MultiSource.AnyProvider) (p : TextFile.Provider) (email password : string) :
  In (MultiSource.TextFiles p) values ->
  exists u, manager_login values email password = Auth.Success u.
Proof.
  induction values as [| provider rest IH]; intros Hin; [destruct Hin |].
  cbn [Auth.login].
  destruct (provider_login provider email password) as [u | e] eqn:Hp; [now exists u |].
  destruct Hin as [-> | Hin]; [| now apply IH].
  destruct (text_login_succeeds p email password) as [u Hu]. congruence.
Qed.

(** X22. With a file-backed source registered, the login handler admits
    every non-empty email and password: it answers with the session id
    and stores a session, whatever the remote sources answer. *)
Theorem text_source_admits_every_login
        (values : list MultiSource.AnyProvider) (p : TextFile.Provider)
        (sessions : Auth.Sessions) (email password sessionId : string) :
  In (MultiSource.TextFiles p) values ->
  email <> "" -> password <> "" ->
  exists u,
    post_login values sessions (Some email) (Some password) sessionId
    = (Auth.LoginOk sessionId (TextFile.email u), <[sessionId := u]> sessions).
Proof.
  intros Hin He Hp. unfold Auth.post_login.
  destruct email as [| a email']; [contradiction |].
  destruct password as [| b password']; [contradiction |].
  cbn [truthy negb orb].
  destruct (login_with_text_source values p (String a email') (String b password') Hin)
    as [u Hu].
  exists u. now rewrite Hu.
Qed.

(** X23. A session opened by the login handler passes [requireAuth] under
    its id, as the user the login returned when a source requires
    authentication and as the guest otherwise; once the logout handler
    ran for that id, [requireAuth] answers 401 again. *)
Theorem session_opens_and_closes
        (values : list MultiSource.AnyProvider) (sessions : Auth.Sessions)
        (email password sessionId : string) (u : TextFile.User) :
  email <> "" -> password <> "" -> sessionId <> "" ->
  manager_login values email password = Auth.Success u ->
  let opened := snd (post_login values sessions (Some email) (Some password) sessionId) in
  fst (post_login values sessions (Some email) (Some password) sessionId)
  = Auth.LoginOk sessionId (TextFile.email u)
  /\ Auth.requireAuth values opened (Some sessionId)
     = Auth.Next (if Auth.isAuthRequired values then u
                  else TextFile.mkUser "guest" "guest")
  /\ (Auth.isAuthRequired values = true ->
      Auth.requireAuth values (Auth.get_logout opened (Some sessionId)) (Some sessionId)
      = Auth.Unauthorized).
Proof.
  intros He Hp Hs Hlogin. unfold Auth.post_login.
  destruct email as [| a email']; [contradiction |].
  destruct password as [| b password']; [contradiction |].
  destruct sessionId as [| s sessionId']; [contradiction |].
  cbn [truthy negb orb]. rewrite Hlogin. cbv zeta. cbn [fst snd].
  split; [reflexivity |]. unfold Auth.requireAuth, Auth.get_logout.
  cbn [truthy]. split.
  - destruct (Auth.isAuthRequired values); cbn [negb]; [| reflexivity].
    unfold Auth.Sessions in *. now rewrite lookup_insert_eq.
  - intros ->. cbn [negb]. unfold Auth.Sessions in *. now rewrite lookup_delete_eq.
Qed.

End AuthFacts.

(** * The statements above, on the example data *)

(** The open example source has no lookup configuration. *)
Lemma open_source_on_one_line : config_on_one_line Examples.open_source.
Proof.
  intros tableName name target H. unfold manual_lookup in H. cbn in H.
  rewrite lookup_empty in H. discriminate.
Qed.

Lemma printed_id_is_read_as_id_witness :
  parseInt (String_of_Z 9007199254740991) = Some 9007199254740991
  /\ TextFile.lacks_id (String_of_Z 9007199254740991 :: ["a"]) = false.
Proof.
  apply (printed_id_is_read_as_id 9007199254740991 ["a"]). reflexivity.
Defined.

Lemma readFile_rows_carry_ids_witness :
  let rows := TextFile.rows (fst (TextFile.readFile TextFile.slash_join Examples.open_source
                                                    (Examples.one_file "Letters" "a,b")
                                                    "Letters")) in
  length rows = 1%nat
  /\ Forall (fun row => exists id cells n, row = id :: cells /\ parseInt id = Some n) rows.
Proof.
  apply (readFile_rows_carry_ids TextFile.slash_join Examples.open_source
           (Examples.one_file "Letters" "a,b") "Letters").
  vm_compute. reflexivity.
Defined.

Lemma printed_row_parses_back_witness :
  TextFile.parseCSVLine (join "," (map TextFile.csv_cell ["1"; "a,b"; "x"])) = ["1"; "a,b"; "x"].
Proof.
  apply printed_row_parses_back; [discriminate |].
  repeat constructor.
Defined.

Lemma written_table_reads_back_witness :
  TextFile.rows
    (fst (TextFile.readFile TextFile.slash_join Examples.open_source
            (TextFile.writeFile TextFile.slash_join Examples.open_source ∅ "Letters"
                                [["1"; "a,b"]; ["2"; "c"]] None)
            "Letters"))
  = [["1"; "a,b"]; ["2"; "c"]].
Proof.
  apply (written_table_reads_back TextFile.slash_join Examples.open_source ∅ "Letters"
                                  [["1"; "a,b"]; ["2"; "c"]] None).
  - repeat constructor.
  - intros hs Hhs. discriminate Hhs.
  - intros _ row0 rest Hrows. injection Hrows as <- _. reflexivity.
Defined.

Lemma written_header_reads_back_witness :
  fst (TextFile.readFile TextFile.slash_join Examples.open_source
         (TextFile.writeFile TextFile.slash_join Examples.open_source ∅ "Countries"
                             [["1"; "France"; "7"]]
                             (Some [mkField "id" integer None None;
                                    mkField "Name" text None None;
                                    mkField "Region" lu (Some "Regions") None]))
         "Countries")
  = TextFile.mkFileData (Some [mkField "id" integer None None;
                               mkField "Name" text None None;
                               mkField "Region" lu (Some "Regions") None])
                        [["1"; "France"; "7"]].
Proof.
  apply written_header_reads_back; [reflexivity | | discriminate | |].
  - repeat constructor.
  - repeat constructor.
  - repeat constructor.
Defined.

Lemma second_read_changes_nothing_witness :
  snd (TextFile.readFile TextFile.slash_join Examples.open_source
         (snd (TextFile.readFile TextFile.slash_join Examples.open_source
                 (Examples.one_file "Letters" "a,b") "Letters"))
         "Letters")
  = snd (TextFile.readFile TextFile.slash_join Examples.open_source
           (Examples.one_file "Letters" "a,b") "Letters").
Proof.
  apply (second_read_changes_nothing TextFile.slash_join Examples.open_source
           (Examples.one_file "Letters" "a,b") "Letters");
    [vm_compute; reflexivity | exact open_source_on_one_line].
Defined.

Lemma deleteRow_removes_the_id_witness :
  TextFile.deleteRow TextFile.slash_join Examples.open_source Examples.letters_file "Letters" "1"
  = (Ok tt, TextFile.writeFile TextFile.slash_join Examples.open_source Examples.letters_file "Letters"
                               [["2"; "b"]] None)
  /\ fst (TextFile.getRowById TextFile.slash_join Examples.open_source
            (snd (TextFile.deleteRow TextFile.slash_join Examples.open_source
                                     Examples.letters_file "Letters" "1"))
            "Letters" "1")
     = Throw "Failed to fetch row: Row not found".
Proof.
  destruct (deleteRow_removes_the_id TextFile.slash_join Examples.open_source
                                     Examples.letters_file "Letters" "1")
    as [Hdel Hback]; [vm_compute; reflexivity | vm_compute; reflexivity |].
  split.
  - rewrite Hdel. vm_compute. reflexivity.
  - apply Hback; [exact open_source_on_one_line |].
    intros _ row0 rest Hkept. vm_compute in Hkept. injection Hkept as <- _. reflexivity.
Defined.

Lemma updateRow_without_header_witness :
  exists newRow,
    TextFile.updateRow TextFile.slash_join Examples.open_source Examples.letters_file "Letters" "2"
                       [("Column1", "z")]
    = (Ok tt, TextFile.writeFile TextFile.slash_join Examples.open_source
                (snd (TextFile.readFile TextFile.slash_join Examples.open_source
                                        Examples.letters_file "Letters"))
                "Letters"
                (<[1%nat := newRow]>
                   (TextFile.rows (fst (TextFile.readFile TextFile.slash_join
                                          Examples.open_source Examples.letters_file "Letters"))))
                None)
    /\ newRow !! 0%nat = Some "2"
    /\ newRow !! 1%nat = Some "z".
Proof.
  destruct (updateRow_without_header TextFile.slash_join Examples.open_source
              Examples.letters_file "Letters" "2" [("Column1", "z")] 1%nat)
    as [row0 [newRow [Hhead [Hupd [Hlen [Hid [Hcells _]]]]]]];
    [vm_compute; reflexivity | vm_compute; reflexivity |].
  exists newRow. split; [exact Hupd |]. split; [exact Hid |].
  vm_compute in Hhead. injection Hhead as <-.
  refine (eq_trans (Hcells 1%nat _) _); [cbn; lia | reflexivity].
Defined.

Lemma insertRow_then_getRowById_witness :
  exists cells found,
    fst (TextFile.getRowById TextFile.slash_join Examples.open_source
           (snd (TextFile.insertRow TextFile.slash_join Examples.open_source
                                    Examples.countries_file "Countries"
                                    [("Name", "Spain"); ("ISO2", "ES")]))
           "Countries" "2")
    = Ok found
    /\ TextFile.row found = "2" :: cells.
Proof.
  destruct (insertRow_then_getRowById TextFile.slash_join Examples.open_source
              Examples.countries_file "Countries" [("Name", "Spain"); ("ISO2", "ES")])
    as [cells [found [_ [Hget [Hrow _]]]]].
  - vm_compute. reflexivity.
  - intros hs h Hhs Hin. vm_compute in Hhs. injection Hhs as <-.
    destruct Hin as [<- | [<- | [<- | []]]]; reflexivity.
  - exact open_source_on_one_line.
  - intros k v Hget. cbn [get] in Hget.
    destruct (String.eqb "Name" k); [injection Hget as <-; repeat constructor |].
    destruct (String.eqb "ISO2" k); [injection Hget as <-; repeat constructor |].
    discriminate.
  - intros hs Hhs. vm_compute in Hhs. injection Hhs as <-.
    eexists _, _. split; reflexivity.
  - exists cells, found. split; [exact Hget | exact Hrow].
Defined.

Lemma text_operations_touch_one_file_witness :
  snd (TextFile.insertRow TextFile.slash_join Examples.open_source
                          (Examples.countries_file ∪ Examples.letters_file) "Countries"
                          [("Name", "Spain")])
  !! Examples.path_of "Letters"
  = (Examples.countries_file ∪ Examples.letters_file) !! Examples.path_of "Letters".
Proof.
  destruct (text_operations_touch_one_file TextFile.slash_join Examples.open_source
              (Examples.countries_file ∪ Examples.letters_file) "Countries" "1"
              (Examples.path_of "Letters") [("Name", "Spain")])
    as [_ [_ [_ [Hinsert _]]]]; [vm_compute; discriminate | exact Hinsert].
Defined.

Lemma discovered_schema_shape_witness :
  map name (fst (Supabase.discoverTableSchema Examples.no_dates Examples.orders_client
                                              Examples.orders_provider "orders"))
  = ["id"; "customer_id"; "item"]
  /\ Forall (fun f => readonly f = Some (name f =? "id")%string)
            (fst (Supabase.discoverTableSchema Examples.no_dates Examples.orders_client
                                               Examples.orders_provider "orders")).
Proof.
  destruct (discovered_schema_shape Examples.no_dates Examples.orders_client
              Examples.orders_provider "orders"
              [("id", Supabase.VNum 1 1); ("customer_id", Supabase.VNum 7 1);
               ("item", Supabase.VStr "pen")] [])
    as [Hnames [_ [_ [_ [Hreadonly _]]]]];
    [reflexivity | vm_compute; reflexivity | reflexivity |].
  split; [exact Hnames | exact Hreadonly].
Defined.

Lemma discovered_schema_is_cached_witness :
  let q := after_calls Examples.no_dates Examples.no_config
             (snd (Supabase.discoverTableSchema Examples.no_dates Examples.orders_client
                                                Examples.orders_provider "orders"))
             later_calls in
  Supabase.discoverTableSchema Examples.no_dates Examples.down_client q "orders"
  = (fst (Supabase.discoverTableSchema Examples.no_dates Examples.orders_client
                                       Examples.orders_provider "orders"), q).
Proof.
  apply (discovered_schema_is_cached Examples.no_dates Examples.no_config
           Examples.orders_client Examples.down_client
           Examples.orders_provider "orders"
           [("id", Supabase.VNum 1 1); ("customer_id", Supabase.VNum 7 1);
            ("item", Supabase.VStr "pen")] [] later_calls);
    [reflexivity | vm_compute; reflexivity | reflexivity].
Defined.


Lemma foreign_keys_cache_only_answers_witness :
  (let q := after_calls Examples.no_dates Examples.no_config
              (snd (Supabase.discoverForeignKeys Examples.orders_client
                                                 Examples.orders_provider "orders"))
              later_calls in
   Supabase.discoverForeignKeys Examples.down_client q "orders"
   = (fst (Supabase.discoverForeignKeys Examples.orders_client
                                        Examples.orders_provider "orders"), q))
  /\ Supabase.discoverForeignKeys Examples.down_client Examples.orders_provider "orders"
     = (∅, Examples.orders_provider).
Proof.
  split.
  - apply (foreign_keys_cache_only_answers Examples.no_dates Examples.no_config
             Examples.orders_client Examples.down_client
             Examples.orders_provider "orders" later_calls);
      [reflexivity | vm_compute; reflexivity].
  - apply (foreign_keys_cache_only_answers Examples.no_dates Examples.no_config
             Examples.down_client Examples.down_client
             Examples.orders_provider "orders" []);
      [reflexivity | vm_compute; reflexivity].
Defined.

Lemma remote_rows_fit_headings_witness :
  exists table p',
    Supabase.getTableData Examples.no_dates Examples.no_config Examples.orders_client
                          Examples.orders_provider "orders" = (Ok table, p')
    /\ Forall (fun row => length row = length (headings table)) (Schema.rows table)
    /\ length (Schema.rows table) = 2%nat.
Proof.
  destruct (Supabase.getTableData Examples.no_dates Examples.no_config Examples.orders_client
                                  Examples.orders_provider "orders")
    as [[table | message] p'] eqn:Hget; [| vm_compute in Hget; discriminate Hget].
  exists table, p'. split; [reflexivity |].
  destruct (remote_rows_fit_headings Examples.no_dates Examples.no_config
              Examples.orders_client Examples.orders_provider p' "orders" table Hget)
    as [Hfit [records [Hsel Hlen]]].
  split; [exact Hfit |]. rewrite Hlen.
  cbn in Hsel. injection Hsel as <-. reflexivity.
Defined.

Lemma unknown_source_is_refused_witness :
  MultiSource.insertRow TextFile.slash_join Examples.no_dates Examples.no_config
                        (Examples.registry ∅) "source9" "Countries" [("Name", "Spain")]
  = (Throw "Data source not found: source9", Examples.registry ∅).
Proof.
  apply (unknown_source_is_refused TextFile.slash_join Examples.no_dates Examples.no_config
           (Examples.registry ∅) "source9" "Countries" [("Name", "Spain")]).
  vm_compute. reflexivity.
Defined.

Lemma text_source_admits_every_login_witness :
  exists u,
    Auth.post_login Examples.strict_service Examples.mixed_sources ∅ (Some "eve@example.org") (Some "guess") "s1"
    = (Auth.LoginOk "s1" (TextFile.email u), <[ "s1" := u ]> ∅).
Proof.
  apply (text_source_admits_every_login Examples.strict_service Examples.mixed_sources Examples.secured_source
           ∅ "eve@example.org" "guess" "s1");
    [right; left; reflexivity | discriminate | discriminate].
Defined.

Lemma session_opens_and_closes_witness :
  Auth.requireAuth Examples.mixed_sources
    (snd (Auth.post_login Examples.strict_service Examples.mixed_sources ∅
                          (Some "eve@example.org") (Some "guess") "s1"))
    (Some "s1")
  = Auth.Next (TextFile.mkUser "eve@example.org" "eve@example.org")
  /\ Auth.requireAuth Examples.mixed_sources
       (Auth.get_logout
          (snd (Auth.post_login Examples.strict_service Examples.mixed_sources ∅
                                (Some "eve@example.org") (Some "guess") "s1"))
          (Some "s1"))
       (Some "s1")
     = Auth.Unauthorized.
Proof.
  destruct (session_opens_and_closes Examples.strict_service Examples.mixed_sources ∅
              "eve@example.org" "guess" "s1"
              (TextFile.mkUser "eve@example.org" "eve@example.org"))
    as [_ [Hopen Hclose]]; [discriminate | discriminate | discriminate | reflexivity |].
  split; [exact Hopen | apply Hclose; reflexivity].
Defined.


Lemma remote_calls_fail_without_table_list_witness :
  Supabase.getTableData Examples.no_dates Examples.no_config Examples.down_client
                        Examples.orders_provider "orders"
  = (Throw "Failed to fetch data: config.getSupabaseConfig is not a function",
     Examples.orders_provider).
Proof.
  apply (remote_calls_fail_without_table_list Examples.no_dates Examples.no_config
           Examples.down_client Examples.orders_provider "orders"
           "config.getSupabaseConfig is not a function" Supabase.VNull ∅);
    [reflexivity | exact I | reflexivity].
Defined.
